(** * agentrisk-money: Fowler's Money pattern (src/src/money.py)

    A shallow embedding of the [Money] class and of the fragment of Python's
    numeric tower it runs on: unbounded [int] as [Z], [float] as IEEE-754
    binary64 (the executable specification of the Standard Library,
    [SpecFloat], at precision 53 and maximal exponent 1024), finite
    [decimal.Decimal] values as sign, coefficient and exponent, and
    exceptions as an error monad.

    [__str__] (formatting by babel) and [__float__] (rounding to two
    decimal places) are left out; no property below depends on them. *)

From Stdlib Require Import ZArith Znumtheory Bool String Ascii Lia.
From Stdlib Require Import Floats.SpecFloat.

Local Open Scope Z_scope.

(** ** Exceptions and the error monad *)

(** The exception classes the module can raise.  [ValueError] carries its
    message: the two checks of the class differ by nothing else. *)
Inductive exn : Type :=
  | ValueError (msg : string)
  | ZeroDivisionError
  | OverflowError
  | DecimalInvalidOperation.

Inductive result (A : Type) : Type :=
  | Return (a : A)
  | Raise (e : exn).

Arguments Return {A} a.
Arguments Raise {A} e.

Definition bind {A B : Type} (c : result A) (k : A -> result B) : result B :=
  match c with
  | Return a => k a
  | Raise e => Raise e
  end.

Notation "x <- c ;; k" := (bind c (fun x => k))
  (at level 61, c at next level, right associativity).
Notation "c ;;; k" := (bind c (fun _ => k))
  (at level 61, right associativity).

(** ** Integer rounding helpers *)

(** Nearest integer to [num / den] for [0 < den], ties to the even
    neighbour. *)
Definition Zrne (num den : Z) : Z :=
  let q := num / den in
  let r := num mod den in
  match 2 * r ?= den with
  | Lt => q
  | Gt => q + 1
  | Eq => if Z.even q then q else q + 1
  end.

(** Number of decimal digits of a natural number, by fuel on its bits. *)
Fixpoint digits10_fuel (fuel : nat) (n : Z) : Z :=
  match fuel with
  | O => 0
  | S fuel' => if n <=? 0 then 0 else 1 + digits10_fuel fuel' (n / 10)
  end.

Definition digits10 (n : Z) : Z :=
  digits10_fuel (S (Z.to_nat (Z.log2 n))) n.

(** ** Python floats: IEEE-754 binary64 *)

Module PyFloat.

Definition prec : Z := 53.
Definition emax : Z := 1024.

Definition float : Type := spec_float.

Definition is_zero (x : float) : bool :=
  match x with S754_zero _ => true | _ => false end.

Definition is_finite (x : float) : bool :=
  match x with S754_zero _ | S754_finite _ _ _ => true | _ => false end.

Definition sign_of (x : float) : bool :=
  match x with
  | S754_zero s | S754_infinity s | S754_finite s _ _ => s
  | S754_nan => false
  end.

(** The float nearest to the rational [num / den] (ties to even), for
    [den <> 0]; an infinity when the quotient is out of range. *)
Definition nearest_quotient (num den : Z) : float :=
  match num, den with
  | Z0, _ => S754_zero (den <? 0)
  | _, Z0 => S754_nan
  | _, _ =>
      SFdiv prec emax
        (S754_finite (num <? 0) (Z.to_pos (Z.abs num)) 0)
        (S754_finite (den <? 0) (Z.to_pos (Z.abs den)) 0)
  end.

(** [float(n)] for an int [n]: nearest float, [OverflowError] when the
    int is too large to convert. *)
Definition of_int (n : Z) : result float :=
  match binary_normalize prec emax n 0 false with
  | S754_infinity _ => Raise OverflowError
  | f => Return f
  end.

(** [a / b] on two ints ([long_true_divide]): the correctly rounded
    quotient. *)
Definition int_truediv (a b : Z) : result float :=
  if b =? 0 then Raise ZeroDivisionError
  else match nearest_quotient a b with
       | S754_infinity _ => Raise OverflowError
       | f => Return f
       end.

(** [x * y] on floats: never raises. *)
Definition mul (x y : float) : float := SFmul prec emax x y.

(** [x / y] on floats ([float_div]). *)
Definition div (x y : float) : result float :=
  if is_zero y then Raise ZeroDivisionError
  else Return (SFdiv prec emax x y).

(** The exact value of a finite float as a fraction [n / d] with a
    power of two [d]. *)
Definition to_fraction (s : bool) (m : positive) (e : Z) : Z * Z :=
  let n := cond_Zopp s (Zpos m) in
  match e with
  | Zneg p => (n, Z.pow_pos 2 p)
  | _ => (n * 2 ^ e, 1)
  end.

Definition nan_to_integer : exn :=
  ValueError "cannot convert float NaN to integer".

(** [round(x)] with no digits ([float.__round__]): the nearest int, ties
    to even. *)
Definition round (x : float) : result Z :=
  match x with
  | S754_zero _ => Return 0
  | S754_infinity _ => Raise OverflowError
  | S754_nan => Raise nan_to_integer
  | S754_finite s m e =>
      let '(n, d) := to_fraction s m e in Return (Zrne n d)
  end.

(** [round(x, ndigits)] on a float, for [0 <= ndigits] ([float.__round__]
    through [double_round]): NaN, the infinities and the zeros come back
    as they are; a finite [x] is written out correctly rounded to
    [ndigits] decimals, ties of the exact binary value to even, and the
    text is read back as the nearest float, with the sign of [x] when the
    digits are all zero. *)
Definition round_ndigits (x : float) (ndigits : Z) : result float :=
  match x with
  | S754_finite s m e =>
      let '(n, d) := to_fraction s m e in
      let r := Zrne (n * 10 ^ ndigits) d in
      if r =? 0 then Return (S754_zero s)
      else match nearest_quotient r (10 ^ ndigits) with
           | S754_infinity _ => Raise OverflowError
           | f => Return f
           end
  | _ => Return x
  end.

(** [math.floor(x)] ([float.__floor__]). *)
Definition floor (x : float) : result Z :=
  match x with
  | S754_zero _ => Return 0
  | S754_infinity _ => Raise OverflowError
  | S754_nan => Raise nan_to_integer
  | S754_finite s m e =>
      let '(n, d) := to_fraction s m e in Return (n / d)
  end.

(** C's [floor] on doubles: the result is again a float and keeps the
    sign of a zero. *)
Definition cfloor (x : float) : float :=
  match x with
  | S754_finite s m e =>
      let '(n, d) := to_fraction s m e in
      binary_normalize prec emax (n / d) 0 s
  | _ => x
  end.

(** C's [fmod] for a nonzero [y]: the exact remainder of the division
    truncated toward zero, with the sign of [x]. *)
Definition fmod (x y : float) : float :=
  match x, y with
  | S754_nan, _ | _, S754_nan => S754_nan
  | S754_infinity _, _ => S754_nan
  | _, S754_zero _ => S754_nan
  | S754_zero _, _ => x
  | S754_finite _ _ _, S754_infinity _ => x
  | S754_finite sx mx ex, S754_finite _ my ey =>
      let e := Z.min ex ey in
      let r := Z.rem (Zpos mx * 2 ^ (ex - e)) (Zpos my * 2 ^ (ey - e)) in
      binary_normalize prec emax (cond_Zopp sx r) e sx
  end.

Definition copysign_zero (x : float) : float := S754_zero (sign_of x).

Definition half : float := S754_finite false 1 (-1).
Definition one : float := S754_finite false 4503599627370496 (-52).

(** [x // y] on floats ([float_floor_div], through [_float_div_mod]). *)
Definition floordiv (x y : float) : result float :=
  if is_zero y then Raise ZeroDivisionError
  else
    let mod_ := fmod x y in
    let div0 := SFdiv prec emax (SFsub prec emax x mod_) y in
    let div_ :=
      if negb (is_zero mod_)
         && negb (Bool.eqb (SFltb y (S754_zero false))
                           (SFltb mod_ (S754_zero false)))
      then SFsub prec emax div0 one
      else div0 in
    if is_zero div_ then Return (copysign_zero (SFdiv prec emax x y))
    else
      let floordiv_ := cfloor div_ in
      if SFltb half (SFsub prec emax div_ floordiv_)
      then Return (SFadd prec emax floordiv_ one)
      else Return floordiv_.

End PyFloat.

(** ** Python strings *)

Local Open Scope string_scope.

Definition is_digit (c : ascii) : bool :=
  let n := N_of_ascii c in (48 <=? n)%N && (n <=? 57)%N.

Definition digit_value (c : ascii) : Z := Z.of_N (N_of_ascii c) - 48.

Definition is_point (c : ascii) : bool := Ascii.eqb c ".".

Fixpoint filter_string (keep : ascii -> bool) (s : string) : string :=
  match s with
  | EmptyString => EmptyString
  | String c s' =>
      if keep c then String c (filter_string keep s') else filter_string keep s'
  end.

Fixpoint all_string (p : ascii -> bool) (s : string) : bool :=
  match s with
  | EmptyString => true
  | String c s' => p c && all_string p s'
  end.

(** A run of [n] zero digits. *)
Fixpoint zeros (n : nat) : string :=
  match n with
  | O => EmptyString
  | S n' => String "0" (zeros n')
  end.

(** [re.sub(r'[^\d.]', '', s)]: every character that is neither a decimal
    digit nor a point is deleted.  Characters are code points below 256,
    where the digits are exactly 0 to 9. *)
Definition strip_non_numeric (s : string) : string :=
  filter_string (fun c => is_digit c || is_point c) s.

(** ** decimal.Decimal *)

Module PyDecimal.

Inductive decimal : Type :=
  | DFinite (sign : bool) (coeff : Z) (exp : Z)
  | DInfinity (sign : bool)
  | DNaN.

(** Precision of the default context. *)
Definition context_prec : Z := 28.

(** Value of a string of digits, most significant first. *)
Fixpoint digits_value (acc : Z) (s : string) : Z :=
  match s with
  | EmptyString => acc
  | String c s' => digits_value (10 * acc + digit_value c) s'
  end.

(** The characters before the first point, and those after it when there
    is one. *)
Fixpoint split_point (s : string) : string * option string :=
  match s with
  | EmptyString => (EmptyString, None)
  | String c s' =>
      if is_point c then (EmptyString, Some s')
      else let '(i, f) := split_point s' in (String c i, f)
  end.

(** [Decimal(s)] on the strings [strip_non_numeric] produces: digits with
    at most one point and at least one digit; anything else is a
    conversion syntax error. *)
Definition of_string (s : string) : result decimal :=
  let '(int_part, rest) := split_point s in
  let frac_part := match rest with Some f => f | None => EmptyString end in
  if all_string is_digit int_part && all_string is_digit frac_part
     && negb (String.length (int_part ++ frac_part) =? 0)%nat
  then Return (DFinite false (digits_value 0 (int_part ++ frac_part))
                       (- Z.of_nat (String.length frac_part)))
  else Raise DecimalInvalidOperation.

(** [float(d)]: the float nearest to the decimal value. *)
Definition to_float (d : decimal) : PyFloat.float :=
  match d with
  | DNaN => S754_nan
  | DInfinity s => S754_infinity s
  | DFinite s c e =>
      if (c =? 0)%Z then S754_zero s
      else match e with
           | Zneg p => PyFloat.nearest_quotient (cond_Zopp s c) (Z.pow_pos 10 p)
           | _ => PyFloat.nearest_quotient (cond_Zopp s c * 10 ^ e) 1
           end
  end.

(** [float.as_integer_ratio] on the absolute value of a finite float: a
    fraction in lowest terms whose denominator is a power of two. *)
Definition as_integer_ratio (m : positive) (e : Z) : Z * Z :=
  match e with
  | Zneg p =>
      let d := Z.pow_pos 2 p in
      let g := Z.gcd (Zpos m) d in
      (Zpos m / g, d / g)
  | _ => (Zpos m * 2 ^ e, 1)
  end.

(** [Decimal(f)] ([Decimal.from_float]): exact. *)
Definition of_float (f : PyFloat.float) : decimal :=
  match f with
  | S754_nan => DNaN
  | S754_infinity s => DInfinity s
  | S754_zero s => DFinite s 0 0
  | S754_finite s m e =>
      let '(n, d) := as_integer_ratio m e in
      let k := Z.log2 d in
      DFinite s (n * 5 ^ k) (- k)
  end.

Definition exponent_of (d : decimal) : option Z :=
  match d with DFinite _ _ e => Some e | _ => None end.

(** [d.quantize(exp, rounding=ROUND_HALF_EVEN)] in the default context. *)
Definition quantize (d exp : decimal) : result decimal :=
  match d, exponent_of exp with
  | DNaN, _ => Return DNaN
  | DInfinity s, None => Return (DInfinity s)
  | DInfinity _, Some _ => Raise DecimalInvalidOperation
  | DFinite _ _ _, None => Raise DecimalInvalidOperation
  | DFinite s c e, Some e' =>
      let c' :=
        match e - e' with
        | Zneg p => Zrne c (Z.pow_pos 10 p)
        | shift => c * 10 ^ shift
        end in
      if (context_prec <? digits10 c')%Z then Raise DecimalInvalidOperation
      else Return (DFinite s c' e')
  end.

(** [int(d)]: truncation toward zero. *)
Definition to_int (d : decimal) : result Z :=
  match d with
  | DNaN => Raise (ValueError "cannot convert NaN to integer")
  | DInfinity _ => Raise OverflowError
  | DFinite s c e =>
      Return (cond_Zopp s
                match e with
                | Zneg p => c / Z.pow_pos 10 p
                | _ => c * 10 ^ e
                end)
  end.

End PyDecimal.

(** ** Python values *)

(** A [Money] object: the private fields [__amount] and [__currency].  An
    amount given as a [bool] (a subclass of [int]) is kept as the integer
    it counts as in every arithmetic operation. *)
Record Money : Type := mkMoney { amount : Z; currency : string }.

(** The values an operand can be. *)
Inductive pyval : Type :=
  | VInt (z : Z)
  | VBool (b : bool)
  | VFloat (f : PyFloat.float)
  | VStr (s : string)
  | VDecimal (d : PyDecimal.decimal)
  | VNone
  | VMoney (m : Money).

(** What [isinstance(v, (int, float))] leaves: an int or a float. *)
Inductive number : Type :=
  | NInt (z : Z)
  | NFloat (f : PyFloat.float).

Definition number_val (n : number) : pyval :=
  match n with NInt z => VInt z | NFloat f => VFloat f end.

(** [isinstance(v, int)], with the integer when it holds. *)
Definition as_int (v : pyval) : option Z :=
  match v with
  | VInt z => Some z
  | VBool b => Some (Z.b2z b)
  | _ => None
  end.

Definition isinstance_int (v : pyval) : bool :=
  match as_int v with Some _ => true | None => false end.

Definition isinstance_float (v : pyval) : bool :=
  match v with VFloat _ => true | _ => false end.

Definition isinstance_str (v : pyval) : bool :=
  match v with VStr _ => true | _ => false end.

Definition isinstance_Money (v : pyval) : bool :=
  match v with VMoney _ => true | _ => false end.

(** Arithmetic of an int with an int or a float. *)
Definition num_is_zero (n : number) : bool :=
  match n with NInt z => (z =? 0)%Z | NFloat f => PyFloat.is_zero f end.

Definition num_mul (a : Z) (n : number) : result number :=
  match n with
  | NInt k => Return (NInt (a * k))
  | NFloat f => x <- PyFloat.of_int a ;; Return (NFloat (PyFloat.mul x f))
  end.

Definition num_truediv (a : Z) (n : number) : result PyFloat.float :=
  match n with
  | NInt k => PyFloat.int_truediv a k
  | NFloat f => x <- PyFloat.of_int a ;; PyFloat.div x f
  end.

Definition num_floordiv (a : Z) (n : number) : result number :=
  match n with
  | NInt k =>
      if (k =? 0)%Z then Raise ZeroDivisionError else Return (NInt (a / k))
  | NFloat f =>
      x <- PyFloat.of_int a ;; q <- PyFloat.floordiv x f ;; Return (NFloat q)
  end.

(** The builtin [round(x)] on an int or a float. *)
Definition py_round (n : number) : result Z :=
  match n with
  | NInt z => Return z
  | NFloat f => PyFloat.round f
  end.

(** ** The Money class *)

Module Money_.

Definition amount_error : exn := ValueError "Amount must be an integer".
Definition operand_error : exn := ValueError "Operand must be a numeric value".
Definition float_error : exn := ValueError "Amount must be a float".
Definition string_error : exn := ValueError "Amount must be a string".

(** [__assert_amount]: the value must be an int. *)
Definition assert_amount (v : pyval) : result Z :=
  match as_int v with
  | Some z => Return z
  | None => Raise amount_error
  end.

(** [__assert_operand]: the value must be an int or a float. *)
Definition assert_operand (v : pyval) : result number :=
  match v with
  | VFloat f => Return (NFloat f)
  | _ => match as_int v with
         | Some z => Return (NInt z)
         | None => Raise operand_error
         end
  end.

(** [__init__], and [self.__class__(amount)]. *)
Definition init (v : pyval) : result Money :=
  a <- assert_amount v ;; Return (mkMoney a "USD").

Definition instance (self : Money) (v : pyval) : result Money :=
  assert_amount v ;;; init v.

Definition from_float (v : pyval) : result Money :=
  match v with
  | VFloat f =>
      hundred <- PyFloat.of_int 100 ;;
      cents <- PyFloat.floor (PyFloat.mul f hundred) ;;
      init (VInt cents)
  | _ => Raise float_error
  end.

Definition from_string (v : pyval) : result Money :=
  match v with
  | VStr currency_str =>
      value <- PyDecimal.of_string (strip_non_numeric currency_str) ;;
      from_float (VFloat (PyDecimal.to_float value))
  | _ => Raise string_error
  end.

Definition add (self : Money) (other : pyval) : result Money :=
  match other with
  | VMoney o => init (VInt (amount self + amount o))
  | _ => k <- assert_amount other ;; init (VInt (amount self + k))
  end.

Definition radd (self : Money) (other : pyval) : result Money :=
  add self other.

Definition sub (self : Money) (other : pyval) : result Money :=
  match other with
  | VMoney o => init (VInt (amount self - amount o))
  | _ => k <- assert_amount other ;; init (VInt (amount self - k))
  end.

Definition neg (self : Money) : result Money := init (VInt (- amount self)).
Definition pos (self : Money) : result Money := init (VInt (amount self)).
Definition abs (self : Money) : result Money :=
  init (VInt (Z.abs (amount self))).

Definition rsub (self : Money) (other : pyval) : result Money :=
  n <- neg self ;; add n other.

Definition mul (self : Money) (factor : pyval) : result Money :=
  f <- assert_operand factor ;;
  p <- num_mul (amount self) f ;;
  r <- py_round p ;;
  init (VInt r).

Definition rmul (self : Money) (factor : pyval) : result Money :=
  mul self factor.

Definition true_divide (self : Money) (other : pyval) : result pyval :=
  match other with
  | VMoney o =>
      if (amount o =? 0)%Z then Raise ZeroDivisionError
      else
        q <- PyFloat.int_truediv (amount self) (amount o) ;;
        r <- PyFloat.round q ;;
        Return (VInt r)
  | _ =>
      d <- assert_operand other ;;
      if num_is_zero d then Raise ZeroDivisionError
      else
        q <- num_truediv (amount self) d ;;
        r <- PyFloat.round q ;;
        m <- init (VInt r) ;;
        Return (VMoney m)
  end.

Definition floor_divide (self : Money) (other : pyval) : result pyval :=
  match other with
  | VMoney o =>
      if (amount o =? 0)%Z then Raise ZeroDivisionError
      else Return (VInt (amount self / amount o))
  | _ =>
      d <- assert_operand other ;;
      if num_is_zero d then Raise ZeroDivisionError
      else
        q <- num_floordiv (amount self) d ;;
        m <- init (number_val q) ;;
        Return (VMoney m)
  end.

Definition eq (self : Money) (other : pyval) : result bool :=
  match other with
  | VMoney o => Return (amount self =? amount o)%Z
  | _ => k <- assert_amount other ;; Return (amount self =? k)%Z
  end.

(** [__compare], with the operator of [__gt__], [__ge__], [__lt__] and
    [__le__] as a function on ints. *)
Definition compare (self : Money) (other : pyval)
    (comparison_operator : Z -> Z -> bool) : result bool :=
  match other with
  | VMoney o => Return (comparison_operator (amount self) (amount o))
  | _ => k <- assert_amount other ;;
         Return (comparison_operator (amount self) k)
  end.

Definition gt (self : Money) (other : pyval) := compare self other Z.gtb.
Definition ge (self : Money) (other : pyval) := compare self other Z.geb.
Definition lt (self : Money) (other : pyval) := compare self other Z.ltb.
Definition le (self : Money) (other : pyval) := compare self other Z.leb.

(** [__round__]. *)
Definition round (self : Money) : result Money :=
  q <- PyFloat.int_truediv (amount self) 100 ;;
  let decimal_value := PyDecimal.of_float q in
  quantized_value <-
    PyDecimal.quantize decimal_value (PyDecimal.of_float PyFloat.one) ;;
  rounded <- PyDecimal.to_int quantized_value ;;
  init (VInt (rounded * 100)).

(** [__int__]. *)
Definition to_integer (self : Money) : Z := amount self.

(** [__float__]. *)
Definition to_float (self : Money) : result PyFloat.float :=
  q <- PyFloat.int_truediv (amount self) 100 ;;
  PyFloat.round_ndigits q 2.

End Money_.

Local Open Scope Z_scope.

(** ** The error kinds of the specification

    [InvalidAmount] is what the amount checks raise ([__assert_amount] and
    the type checks of the two parsers), [InvalidOperand] what
    [__assert_operand] raises, [DivisionByZero] is [ZeroDivisionError]. *)
Inductive error_kind : Type := InvalidAmount | InvalidOperand | DivisionByZero.

Definition error_kind_of (e : exn) : option error_kind :=
  match e with
  | ValueError msg =>
      if ((msg =? "Amount must be an integer") || (msg =? "Amount must be a float")
          || (msg =? "Amount must be a string"))%string
      then Some InvalidAmount
      else if (msg =? "Operand must be a numeric value")%string
      then Some InvalidOperand
      else None
  | ZeroDivisionError => Some DivisionByZero
  | OverflowError | DecimalInvalidOperation => None
  end.

(** A divisor the division operators accept and that equals zero: the int
    0 (or [False]), a float zero of either sign, a [Money] of amount 0. *)
Definition zero_divisor (v : pyval) : bool :=
  match v with
  | VMoney o => (amount o =? 0)%Z
  | VFloat f => PyFloat.is_zero f
  | _ => match as_int v with Some z => (z =? 0)%Z | None => false end
  end.

(** What the specification asks of [round]: the amount over 100, rounded
    half to even on the exact quotient, in minor units again. *)
Definition spec_round_amount (a : Z) : Z := Zrne a 100 * 100.

(** Literals used in the examples. *)
Definition usd (n : Z) : Money := mkMoney n "USD".
Definition float_lit (num den : Z) : PyFloat.float :=
  PyFloat.nearest_quotient num den.

(** The integer a comparison operand stands for. *)
Definition operand_amount (v : pyval) : option Z :=
  match v with
  | VMoney o => Some (amount o)
  | _ => as_int v
  end.

(** A float that is not negative: a zero, a finite float or an infinity
    with a clear sign bit. *)
Definition positive_sign (f : PyFloat.float) : Prop :=
  match f with
  | S754_zero s | S754_infinity s | S754_finite s _ _ => s = false
  | S754_nan => False
  end.

(** The rational [a / k], for [k <> 0], rounded to the nearest integer,
    ties to even. *)
Definition half_even_quotient (a k : Z) : Z := Zrne (Z.sgn k * a) (Z.abs k).

(** * Facts about the float model *)

Section FloatFacts.

Let prec := PyFloat.prec.
Let emax := PyFloat.emax.

Lemma iter_pos_invariant {A : Type} (P : A -> Prop) (f : A -> A) :
  (forall x, P x -> P (f x)) ->
  forall n x, P x -> P (iter_pos f n x).
Proof.
  intros Hf. induction n as [n IH | n IH | ]; simpl; intros x Hx; auto.
Qed.

Lemma shr_1_nonneg mrs : 0 <= shr_m mrs -> 0 <= shr_m (shr_1 mrs).
Proof.
  destruct mrs as [m r s].
  destruct m as [ | [p | p | ] | [p | p | ] ]; simpl; lia.
Qed.

Lemma shr_nonneg mrs e n :
  0 <= shr_m mrs -> 0 <= shr_m (fst (shr mrs e n)).
Proof.
  intros H. destruct n as [ | p | p ]; simpl; trivial.
  apply (iter_pos_invariant (fun r => 0 <= shr_m r)); trivial.
  exact shr_1_nonneg.
Qed.

Lemma shr_record_of_loc_m m l : shr_m (shr_record_of_loc m l) = m.
Proof. destruct l as [ | [ | | ] ]; reflexivity. Qed.

Lemma shr_fexp_nonneg m e l :
  0 <= m -> 0 <= shr_m (fst (shr_fexp prec emax m e l)).
Proof.
  intros H. unfold shr_fexp. apply shr_nonneg.
  now rewrite shr_record_of_loc_m.
Qed.

Lemma round_nearest_even_nonneg m l :
  0 <= m -> 0 <= round_nearest_even m l.
Proof.
  intros H. destruct l as [ | [ | | ] ]; simpl; try lia.
  destruct (Z.even m); lia.
Qed.

(** Rounding a nonnegative mantissa gives a zero, a finite float or an
    infinity. *)
Lemma binary_round_aux_not_nan s m e l :
  0 <= m -> binary_round_aux prec emax s m e l <> S754_nan.
Proof.
  intros H. unfold binary_round_aux.
  pose proof (shr_fexp_nonneg m e l H) as H1.
  destruct (shr_fexp prec emax m e l) as [mrs1 e1]. simpl in H1.
  pose proof (shr_fexp_nonneg _ e1 loc_Exact
                (round_nearest_even_nonneg _ (loc_of_shr_record mrs1) H1)) as H2.
  destruct (shr_fexp prec emax _ e1 loc_Exact) as [mrs2 e2]. simpl in H2.
  destruct (shr_m mrs2) as [ | p | p ]; try discriminate; try lia.
  destruct (e2 <=? emax - prec); discriminate.
Qed.

Lemma SFdiv_finite_not_nan sx mx ex sy my ey :
  SFdiv prec emax (S754_finite sx mx ex) (S754_finite sy my ey) <> S754_nan.
Proof.
  unfold SFdiv, SFdiv_core_binary.
  set (m' := match _ - _ - _ with Z0 => _ | Zpos _ => _ | Zneg _ => _ end).
  assert (Hm : 0 <= m').
  { subst m'. destruct (_ - _ - _); try lia.
    apply Z.shiftl_nonneg. lia. }
  pose proof (Z.div_pos m' (Zpos my) Hm eq_refl) as Hq.
  unfold Z.div in Hq.
  destruct (Z.div_eucl m' (Zpos my)) as [q r].
  now apply binary_round_aux_not_nan.
Qed.

Lemma nearest_quotient_not_nan num den :
  den <> 0 -> PyFloat.nearest_quotient num den <> S754_nan.
Proof.
  intros Hd. unfold PyFloat.nearest_quotient.
  destruct num, den; try discriminate; try congruence;
    apply SFdiv_finite_not_nan.
Qed.

Lemma mul_not_nan x y :
  x <> S754_nan -> PyFloat.is_finite y = true -> PyFloat.is_zero y = false ->
  PyFloat.mul x y <> S754_nan.
Proof.
  intros Hx Hy Hz. unfold PyFloat.mul.
  destruct x, y; simpl in *; try discriminate; try congruence.
  apply binary_round_aux_not_nan. lia.
Qed.

(** An int divided by a nonzero int is a float, unless it overflows. *)
Lemma int_truediv_cases a b :
  b <> 0 ->
  PyFloat.int_truediv a b = Raise OverflowError \/
  exists q, PyFloat.int_truediv a b = Return q /\ PyFloat.is_finite q = true.
Proof.
  intros Hb. unfold PyFloat.int_truediv.
  destruct (Z.eqb_spec b 0) as [ | _ ]; [ contradiction | ].
  pose proof (nearest_quotient_not_nan a b Hb) as Hn.
  destruct (PyFloat.nearest_quotient a b); try congruence; eauto.
Qed.

(** [round] and [math.floor] return on every finite float. *)
Lemma round_finite q :
  PyFloat.is_finite q = true -> exists z, PyFloat.round q = Return z.
Proof.
  destruct q; simpl; try discriminate; eauto.
  destruct (PyFloat.to_fraction s m e); eauto.
Qed.

End FloatFacts.

(** * Facts about rounding half to even *)

(** [Zrne] is determined by any Euclidean decomposition of its
    numerator. *)
Lemma Zrne_unique_lt n d q r :
  n = d * q + r -> 0 <= r -> 2 * r < d -> Zrne n d = q.
Proof.
  intros Hn Hr Hd. unfold Zrne.
  assert (Hq : n / d = q) by (symmetry; apply (Z.div_unique_pos n d q r); lia).
  assert (Hm : n mod d = r) by (symmetry; apply (Z.mod_unique_pos n d q r); lia).
  rewrite Hq, Hm. now rewrite (proj2 (Z.compare_lt_iff _ _) Hd).
Qed.

Lemma Zrne_unique_gt n d q r :
  n = d * q + r -> r < d -> d < 2 * r -> Zrne n d = q + 1.
Proof.
  intros Hn Hr Hd. unfold Zrne.
  assert (Hq : n / d = q) by (symmetry; apply (Z.div_unique_pos n d q r); lia).
  assert (Hm : n mod d = r) by (symmetry; apply (Z.mod_unique_pos n d q r); lia).
  rewrite Hq, Hm. now rewrite (proj2 (Z.compare_gt_iff _ _) Hd).
Qed.

Lemma Zrne_unique_eq n d q r :
  n = d * q + r -> 0 < d -> d = 2 * r ->
  Zrne n d = if Z.even q then q else q + 1.
Proof.
  intros Hn Hr Hd. unfold Zrne.
  assert (Hq : n / d = q) by (symmetry; apply (Z.div_unique_pos n d q r); lia).
  assert (Hm : n mod d = r) by (symmetry; apply (Z.mod_unique_pos n d q r); lia).
  rewrite Hq, Hm. now rewrite (proj2 (Z.compare_eq_iff _ _) (eq_sym Hd)).
Qed.

Lemma Zrne_exact d q : 0 < d -> Zrne (d * q) d = q.
Proof. intros Hd. apply (Zrne_unique_lt _ d q 0); lia. Qed.

(** The three cases of a rounding. *)
Lemma Zrne_cases n d :
  0 < d ->
  exists q r, n = d * q + r /\ 0 <= r < d /\
    ((2 * r < d /\ Zrne n d = q) \/
     (d < 2 * r /\ Zrne n d = q + 1) \/
     (d = 2 * r /\ Zrne n d = if Z.even q then q else q + 1)).
Proof.
  intros Hd. exists (n / d), (n mod d).
  pose proof (Z.div_mod n d ltac:(lia)) as H.
  pose proof (Z.mod_pos_bound n d Hd) as Hb.
  split; [ exact H | split; [ exact Hb | ] ].
  unfold Zrne. destruct (Z.compare_spec (2 * (n mod d)) d); auto.
Qed.

(** [Zrne] is a function of the fraction, not of its representation. *)
Lemma Zrne_scale c n d : 0 < c -> 0 < d -> Zrne (c * n) (c * d) = Zrne n d.
Proof.
  intros Hc Hd.
  destruct (Zrne_cases n d Hd) as [q [r [Hn [Hr [[H1 ->] | [[H1 ->] | [H1 ->]]]]]]].
  - apply (Zrne_unique_lt _ _ q (c * r)); nia.
  - apply (Zrne_unique_gt _ _ q (c * r)); nia.
  - apply (Zrne_unique_eq _ _ q (c * r)); nia.
Qed.

Lemma Zrne_cross n1 d1 n2 d2 :
  0 < d1 -> 0 < d2 -> n1 * d2 = n2 * d1 -> Zrne n1 d1 = Zrne n2 d2.
Proof.
  intros H1 H2 H.
  rewrite <- (Zrne_scale d2 n1 d1), <- (Zrne_scale d1 n2 d2) by assumption.
  f_equal; lia.
Qed.

(** Ties to even is symmetric about zero. *)
Lemma Zrne_opp n d : 0 < d -> Zrne (- n) d = - Zrne n d.
Proof.
  intros Hd.
  destruct (Zrne_cases n d Hd) as [q [r [Hn [Hr [[H1 ->] | [[H1 ->] | [H1 ->]]]]]]].
  - destruct (Z.eq_dec r 0) as [-> | Hr0].
    + apply (Zrne_unique_lt _ _ (- q) 0); lia.
    + replace (- q) with ((- q - 1) + 1) by lia.
      apply (Zrne_unique_gt _ _ (- q - 1) (d - r)); lia.
  - replace (- (q + 1)) with (- q - 1) by lia.
    apply (Zrne_unique_lt _ _ (- q - 1) (d - r)); lia.
  - rewrite (Zrne_unique_eq (- n) d (- q - 1) (d - r)) by lia.
    replace (- q - 1) with (- (q + 1)) by lia.
    rewrite Z.even_opp, Z.even_add. simpl (Z.even 1).
    destruct (Z.even q); simpl; lia.
Qed.

(** Rounding first to [N >= 6] binary places and then to an integer is
    rounding hundredths to an integer. *)
Lemma Zrne_twice a P :
  64 <= P -> Z.even P = true ->
  Zrne (Zrne (a * P) 100) P = Zrne a 100.
Proof.
  intros HP He.
  destruct (Zrne_cases a 100 ltac:(lia)) as [k [r [Ha [Hr Hc]]]].
  destruct (Zrne_cases (a * P) 100 ltac:(lia)) as [Q [R [HM [HR HcM]]]].
  set (M := Zrne (a * P) 100) in *.
  assert (HMb : a * P - 50 <= 100 * M <= a * P + 50).
  { destruct HcM as [[H1 H2] | [[H1 H2] | [H1 H2]]]; rewrite H2;
      try destruct (Z.even Q); lia. }
  subst a.
  destruct Hc as [[H1 ->] | [[H1 ->] | [H1 ->]]].
  - apply (Zrne_unique_lt _ _ k (M - P * k)); nia.
  - destruct (Z.eq_dec M (P * (k + 1))) as [-> | Hne].
    + apply Zrne_exact; lia.
    + apply (Zrne_unique_gt _ _ k (M - P * k)); nia.
  - assert (r = 50) by lia. subst r.
    apply Z.even_spec in He. destruct He as [h ->].
    assert (HMe : M = 2 * h * k + h).
    { unfold M. replace ((100 * k + 50) * (2 * h)) with (100 * (2 * h * k + h)) by lia.
      apply Zrne_exact; lia. }
    rewrite HMe.
    apply (Zrne_unique_eq _ _ k h); lia.
Qed.

(** ** Binary digits, shifts and locations of [SpecFloat] *)

Lemma digits2_pos_size p : digits2_pos p = Pos.size p.
Proof. induction p; simpl; congruence. Qed.

Lemma Zdigits2_bounds p :
  2 ^ (Zdigits2 (Zpos p) - 1) <= Zpos p < 2 ^ Zdigits2 (Zpos p).
Proof.
  change (Zdigits2 (Zpos p)) with (Zpos (digits2_pos p)).
  rewrite digits2_pos_size.
  assert (H : Z.log2 (Zpos p) = Zpos (Pos.size p) - 1).
  { destruct p; cbn [Z.log2 Pos.size]; rewrite ?Pos2Z.inj_succ; lia. }
  rewrite <- H.
  replace (Zpos (Pos.size p)) with (Z.succ (Z.log2 (Zpos p))) by lia.
  apply Z.log2_spec. lia.
Qed.

Lemma Zdigits2_unique m n :
  0 < n -> 2 ^ (n - 1) <= m < 2 ^ n -> Zdigits2 m = n.
Proof.
  intros Hn Hm.
  assert (0 < m) by (pose proof (Z.pow_pos_nonneg 2 (n - 1)); lia).
  destruct m as [ | p | p ]; try lia.
  pose proof (Zdigits2_bounds p) as Hb.
  set (d := Zdigits2 (Zpos p)) in *.
  assert (Hd : 0 < d) by (unfold d; simpl; lia).
  destruct (Z.lt_trichotomy d n) as [Hlt | [Heq | Hgt]]; trivial; exfalso.
  - assert (2 ^ d <= 2 ^ (n - 1)) by (apply Z.pow_le_mono_r; lia). lia.
  - assert (2 ^ n <= 2 ^ (d - 1)) by (apply Z.pow_le_mono_r; lia). lia.
Qed.

Lemma loc_of_shr_record_of_loc m l :
  loc_of_shr_record (shr_record_of_loc m l) = l.
Proof. destruct l as [ | [ | | ] ]; reflexivity. Qed.

(** Rounding a quotient by 100 with the location of its remainder is
    [Zrne]; after one shift to the right it is [Zrne] by 200. *)
Lemma round_new_location n :
  round_nearest_even (n / 100) (new_location 100 (n mod 100)) = Zrne n 100.
Proof.
  unfold new_location. change (Z.even 100) with true. cbv iota.
  unfold new_location_even, Zrne.
  pose proof (Z.mod_pos_bound n 100 ltac:(lia)) as Hb.
  destruct (Z.eqb_spec (n mod 100) 0) as [H0 | H0].
  - rewrite H0. reflexivity.
  - simpl. destruct (2 * (n mod 100) ?= 100); reflexivity.
Qed.

Lemma shr_1_spec m r s :
  0 <= m -> shr_1 (Build_shr_record m r s) = Build_shr_record (m / 2) (Z.odd m) (r || s).
Proof.
  intros Hm. rewrite <- Z.div2_div.
  destruct m as [ | [p | p | ] | p ]; try lia; reflexivity.
Qed.

Lemma round_shifted_location n :
  0 <= n ->
  let mrs := shr_1 (shr_record_of_loc (n / 100) (new_location 100 (n mod 100))) in
  round_nearest_even (shr_m mrs) (loc_of_shr_record mrs) = Zrne n 200.
Proof.
  intros Hn mrs.
  assert (Hq : 0 <= n / 100) by (apply Z.div_pos; lia).
  pose proof (Z.mod_pos_bound n 100 ltac:(lia)) as Hb.
  pose proof (Z.div_mod n 100 ltac:(lia)) as Hdm.
  pose proof (Z.div_mod (n / 100) 2 ltac:(lia)) as Hdm2.
  pose proof (Z.mod_pos_bound (n / 100) 2 ltac:(lia)) as Hb2.
  assert (Ho : Z.odd (n / 100) = negb ((n / 100) mod 2 =? 0)).
  { rewrite Zmod_odd. destruct (Z.odd (n / 100)); reflexivity. }
  subst mrs. unfold new_location. change (Z.even 100) with true. cbv iota.
  unfold new_location_even.
  destruct (Z.eqb_spec (n mod 100) 0) as [H0 | H0].
  - simpl shr_record_of_loc. rewrite shr_1_spec by trivial. simpl.
    rewrite Ho. destruct (Z.eqb_spec ((n / 100) mod 2) 0) as [He | He]; simpl.
    + symmetry. apply (Zrne_unique_lt _ _ (n / 100 / 2) 0); lia.
    + rewrite (Zrne_unique_eq n 200 (n / 100 / 2) 100) by lia. reflexivity.
  - destruct (2 * (n mod 100) ?= 100) eqn:Hc; simpl shr_record_of_loc;
      rewrite shr_1_spec by trivial; simpl; rewrite Ho;
      destruct (Z.eqb_spec ((n / 100) mod 2) 0) as [He | He]; simpl;
      symmetry;
      first [ apply (Zrne_unique_lt _ _ (n / 100 / 2) (n mod 100)); lia
            | apply (Zrne_unique_gt _ _ (n / 100 / 2) (100 + n mod 100)); lia ].
Qed.

(** ** The float quotient of an int by 100 *)

Lemma fexp_normal d e :
  -1074 <= e -> fexp PyFloat.prec PyFloat.emax (d + e) - e = Z.max (d - 53) (-1074 - e).
Proof. intros He. unfold fexp, emin, PyFloat.prec, PyFloat.emax. lia. Qed.

(** A mantissa of 53 bits, or 2^53 itself, with nothing to round. *)
Lemma shr_fexp_exact m e :
  2 ^ 52 <= m <= 2 ^ 53 -> -1074 <= e ->
  exists m' e',
    shr_fexp PyFloat.prec PyFloat.emax m e loc_Exact = (Build_shr_record m' false false, e') /\
    2 ^ 52 <= m' < 2 ^ 53 /\ e <= e' /\ m' * 2 ^ (e' - e) = m.
Proof.
  intros Hm He. unfold shr_fexp.
  destruct (Z.eq_dec m (2 ^ 53)) as [-> | Hne].
  - exists (2 ^ 52), (e + 1).
    rewrite (Zdigits2_unique (2 ^ 53) 54) by (simpl; lia).
    rewrite fexp_normal by trivial.
    replace (Z.max (54 - 53) (-1074 - e)) with 1 by lia.
    replace (e + 1 - e) with 1 by lia.
    repeat split; try reflexivity; try lia.
  - exists m, e.
    rewrite (Zdigits2_unique m 53) by (simpl; lia).
    rewrite fexp_normal by trivial.
    replace (Z.max (53 - 53) (-1074 - e)) with 0 by lia.
    replace (e - e) with 0 by lia.
    repeat split; try reflexivity; try lia.
Qed.

(** Rounding a quotient by 100 of 53 or 54 bits to a binary64 mantissa:
    the float is the [Zrne] of the quotient at the exponent [e + j], where
    [j] is 1 when a bit has to go; a carry to 2^53 is renormalised. *)
Lemma round_quotient_100 s n e :
  2 ^ 52 * 100 <= n < 2 ^ 54 * 100 -> -1074 <= e <= 960 ->
  exists m E j,
    binary_round_aux PyFloat.prec PyFloat.emax s (n / 100) e (new_location 100 (n mod 100))
      = S754_finite s m E /\
    0 <= j <= 1 /\ (j = 1 -> 2 ^ 53 <= n / 100) /\ e <= E <= e + j + 1 /\
    Zpos m * 2 ^ (E - e) = Zrne n (100 * 2 ^ j) * 2 ^ j.
Proof.
  intros Hn He.
  assert (Hq : 2 ^ 52 <= n / 100 < 2 ^ 54).
  { change (2 ^ 52) with 4503599627370496 in *.
    change (2 ^ 54) with 18014398509481984 in *.
    pose proof (Z.div_mod n 100 ltac:(lia)).
    pose proof (Z.mod_pos_bound n 100 ltac:(lia)). lia. }
  pose proof (Z.mod_pos_bound n 100 ltac:(lia)) as Hr.
  pose proof (Z.div_mod n 100 ltac:(lia)) as Hdm.
  unfold binary_round_aux.
  destruct (Z.lt_ge_cases (n / 100) (2 ^ 53)) as [Hlt | Hge].
  - (* 53 bits: no shift before the rounding *)
    unfold shr_fexp at 1.
    rewrite (Zdigits2_unique (n / 100) 53) by (simpl; lia).
    rewrite fexp_normal by lia.
    replace (Z.max (53 - 53) (-1074 - e)) with 0 by lia.
    cbn [shr]. rewrite shr_record_of_loc_m, loc_of_shr_record_of_loc.
    rewrite round_new_location.
    destruct (Zrne_cases n 100 ltac:(lia)) as [Q [R [HQ [HR Hc]]]].
    assert (HM : 2 ^ 52 <= Zrne n 100 <= 2 ^ 53).
    { change (2 ^ 52) with 4503599627370496 in *.
      change (2 ^ 53) with 9007199254740992 in *.
      destruct Hc as [[H1 ->] | [[H1 ->] | [H1 ->]]];
        try destruct (Z.even Q); lia. }
    destruct (shr_fexp_exact (Zrne n 100) e HM ltac:(lia)) as [m' [e' [-> [Hm' [He' Hv]]]]].
    cbn [shr_m].
    destruct m' as [ | p | p ]; try (simpl in Hm'; lia).
    exists p, e', 0. 
    assert (He'' : e' <= e + 1).
    { destruct (Z.le_gt_cases e' (e + 1)); trivial. exfalso.
      assert (2 ^ 2 <= 2 ^ (e' - e)) by (apply Z.pow_le_mono_r; lia).
      change (2 ^ 52) with 4503599627370496 in *.
      change (2 ^ 53) with 9007199254740992 in *. nia. }
    replace (e' <=? PyFloat.emax - PyFloat.prec) with true
      by (symmetry; apply Z.leb_le; unfold PyFloat.emax, PyFloat.prec; lia).
    repeat split; try lia.
    change (2 ^ 0) with 1. rewrite !Z.mul_1_r. exact Hv.
  - (* 54 bits: one shift before the rounding *)
    unfold shr_fexp at 1.
    rewrite (Zdigits2_unique (n / 100) 54) by (simpl; lia).
    rewrite fexp_normal by lia.
    replace (Z.max (54 - 53) (-1074 - e)) with 1 by lia.
    cbn [shr iter_pos].
    rewrite (round_shifted_location n) by (change (2 ^ 52) with 4503599627370496 in *; lia).
    destruct (Zrne_cases n 200 ltac:(lia)) as [Q [R [HQ [HR Hc]]]].
    assert (HM : 2 ^ 52 <= Zrne n 200 <= 2 ^ 53).
    { change (2 ^ 52) with 4503599627370496 in *.
      change (2 ^ 53) with 9007199254740992 in *.
      change (2 ^ 54) with 18014398509481984 in *.
      destruct Hc as [[H1 ->] | [[H1 ->] | [H1 ->]]];
        try destruct (Z.even Q); lia. }
    destruct (shr_fexp_exact (Zrne n 200) (e + 1) HM ltac:(lia)) as [m' [e' [-> [Hm' [He' Hv]]]]].
    cbn [shr_m].
    destruct m' as [ | p | p ]; try (simpl in Hm'; lia).
    exists p, e', 1.
    assert (He'' : e' <= e + 2).
    { destruct (Z.le_gt_cases e' (e + 2)); trivial. exfalso.
      assert (2 ^ 2 <= 2 ^ (e' - (e + 1))) by (apply Z.pow_le_mono_r; lia).
      change (2 ^ 52) with 4503599627370496 in *.
      change (2 ^ 53) with 9007199254740992 in *. nia. }
    replace (e' <=? PyFloat.emax - PyFloat.prec) with true
      by (symmetry; apply Z.leb_le; unfold PyFloat.emax, PyFloat.prec; lia).
    repeat split; try lia.
    change (100 * 2 ^ 1) with 200. rewrite <- Hv.
    replace (e' - e) with ((e' - (e + 1)) + 1) by lia.
    rewrite Z.pow_add_r by lia. lia.
Qed.

Lemma div_eucl_div_mod a b : Z.div_eucl a b = (a / b, a mod b).
Proof. unfold Z.div, Z.modulo. now destruct (Z.div_eucl a b). Qed.

(** Below 100 * 2^47 the float nearest to [p / 100] rounds to the same
    integer as [p / 100] itself. *)
Lemma quotient_100_float s p :
  Zpos p < 100 * 2 ^ 47 ->
  exists m E,
    SFdiv PyFloat.prec PyFloat.emax (S754_finite s p 0) (S754_finite false 100 0)
      = S754_finite s m E /\
    E < 0 /\
    Zrne (Zpos m) (2 ^ (- E)) = Zrne (Zpos p) 100.
Proof.
  intros Ha.
  pose proof (Zdigits2_bounds p) as Hd.
  unfold SFdiv, SFdiv_core_binary. rewrite Bool.xorb_false_r.
  change (Zdigits2 100) with 7.
  set (d := Zdigits2 (Zpos p)) in *.
  assert (Hd1 : 1 <= d) by (unfold d; simpl; lia).
  assert (Hd54 : d <= 54).
  { destruct (Z.le_gt_cases d 54); trivial. exfalso.
    assert (2 ^ 54 <= 2 ^ (d - 1)) by (apply Z.pow_le_mono_r; lia).
    change (2 ^ 54) with 18014398509481984 in *.
    change (2 ^ 47) with 140737488355328 in *. lia. }
  replace (Z.min (fexp PyFloat.prec PyFloat.emax (d + 0 - (7 + 0))) (0 - 0)) with (d - 60)
    by (unfold fexp, emin, PyFloat.prec, PyFloat.emax; lia).
  replace (0 - 0 - (d - 60)) with (60 - d) by lia.
  assert (Hs : match 60 - d with
               | 0 => Zpos p
               | Zpos _ => Z.shiftl (Zpos p) (60 - d)
               | Zneg _ => 0
               end = Zpos p * 2 ^ (60 - d)).
  { destruct (60 - d) eqn:Hsd; try lia. rewrite <- Hsd.
    apply Z.shiftl_mul_pow2. lia. }
  rewrite Hs. clear Hs.
  set (n := Zpos p * 2 ^ (60 - d)).
  rewrite div_eucl_div_mod.
  assert (Hp : 2 ^ (d - 1) * 2 ^ (60 - d) = 2 ^ 59)
    by (rewrite <- Z.pow_add_r by lia; f_equal; lia).
  assert (Hp' : 2 ^ d * 2 ^ (60 - d) = 2 ^ 60)
    by (rewrite <- Z.pow_add_r by lia; f_equal; lia).
  assert (Hpos : 0 < 2 ^ (60 - d)) by (apply Z.pow_pos_nonneg; lia).
  assert (Hn : 2 ^ 59 <= n < 2 ^ 60) by (unfold n; nia).
  destruct (round_quotient_100 s n (d - 60)) as [m [E [j [HR [Hj [Hj1 [HE Hv]]]]]]].
  { change (2 ^ 52 * 100) with 450359962737049600.
    change (2 ^ 54 * 100) with 1801439850948198400.
    change (2 ^ 59) with 576460752303423488 in Hn.
    change (2 ^ 60) with 1152921504606846976 in Hn. lia. }
  { lia. }
  exists m, E. split; [ exact HR | ].
  (* one shift before the rounding leaves at least six binary places *)
  assert (Hj53 : j = 1 -> d <= 53).
  { intros Hj'. specialize (Hj1 Hj').
    destruct (Z.le_gt_cases d 53); trivial. exfalso.
    assert (d = 54) by lia. subst n.
    replace (60 - d) with 6 in * by lia.
    change (2 ^ 6) with 64 in *. change (2 ^ 53) with 9007199254740992 in *.
    change (2 ^ 47) with 140737488355328 in *.
    pose proof (Z.div_mod (Zpos p * 64) 100 ltac:(lia)).
    pose proof (Z.mod_pos_bound (Zpos p * 64) 100 ltac:(lia)). lia. }
  split; [ lia | ].
  set (N := 60 - d - j).
  assert (HN : 6 <= N) by (unfold N; lia).
  assert (HM : Zrne n (100 * 2 ^ j) = Zrne (Zpos p * 2 ^ N) 100).
  { unfold n. replace (60 - d) with (N + j) by (unfold N; lia).
    rewrite Z.pow_add_r by lia.
    replace (Zpos p * (2 ^ N * 2 ^ j)) with (2 ^ j * (Zpos p * 2 ^ N)) by lia.
    rewrite (Z.mul_comm 100).
    apply Zrne_scale; first [ lia | apply Z.pow_pos_nonneg; lia ]. }
  rewrite HM in Hv.
  rewrite <- (Zrne_twice (Zpos p) (2 ^ N)).
  - apply Zrne_cross; try (apply Z.pow_pos_nonneg; lia).
    assert (H2j : 0 < 2 ^ j) by (apply Z.pow_pos_nonneg; lia).
    apply (Z.mul_reg_r _ _ (2 ^ j)); [ lia | ].
    rewrite <- !Z.mul_assoc, <- (Z.pow_add_r 2 N j) by lia.
    replace (N + j) with ((E - (d - 60)) + (- E)) by (unfold N; lia).
    rewrite Z.pow_add_r by lia.
    rewrite (Z.mul_comm (2 ^ (- E)) (2 ^ j)).
    rewrite !Z.mul_assoc. rewrite Hv. reflexivity.
  - assert (2 ^ 6 <= 2 ^ N) by (apply Z.pow_le_mono_r; lia).
    change (2 ^ 6) with 64 in *. lia.
  - replace N with (1 + (N - 1)) by lia. rewrite Z.pow_add_r by lia.
    change (2 ^ 1) with 2. apply Z.even_mul.
Qed.

(** ** The decimal expansion of a float *)

(** A positive divisor of a power of two is a power of two. *)
Lemma pow2_divisor n x :
  0 <= n -> 0 < x -> (x | 2 ^ n) -> x = 2 ^ Z.log2 x.
Proof.
  intros Hn. revert x. pattern n. apply natlike_ind; trivial; clear n Hn.
  - intros x Hx Hdiv. change (2 ^ 0) with 1 in Hdiv.
    apply Z.divide_1_r_nonneg in Hdiv; [ | lia ]. now subst x.
  - intros n Hn IH x Hx Hdiv.
    rewrite Z.pow_succ_r in Hdiv by trivial.
    destruct (Z.even x) eqn:He.
    + apply Z.even_spec in He. destruct He as [y ->].
      assert (Hy : 0 < y) by lia.
      rewrite Z.log2_double by trivial.
      rewrite Z.pow_succ_r by apply Z.log2_nonneg.
      f_equal. apply IH; trivial.
      apply (Z.mul_divide_cancel_l y (2 ^ n) 2); [ lia | exact Hdiv ].
    + apply IH; trivial.
      apply (Z.gauss x 2 (2 ^ n)); trivial.
      assert (Hg : (Z.gcd x 2 | 2)) by apply Z.gcd_divide_r.
      assert (Hx2 : (Z.gcd x 2 | x)) by apply Z.gcd_divide_l.
      pose proof (Z.gcd_nonneg x 2) as Hg0.
      apply Z.divide_pos_le in Hg as Hle; [ | lia ].
      assert (Hc : Z.gcd x 2 = 0 \/ Z.gcd x 2 = 1 \/ Z.gcd x 2 = 2) by lia.
      destruct Hc as [Hc | [Hc | Hc]]; trivial.
      * rewrite Hc in Hg. destruct Hg as [z Hz]. lia.
      * rewrite Hc in Hx2. destruct Hx2 as [z Hz].
        rewrite Hz, Z.even_mul in He. simpl in He.
        rewrite Bool.orb_true_r in He. discriminate.
Qed.

Lemma digits10_fuel_le fuel n k :
  0 <= k -> n < 10 ^ k -> digits10_fuel fuel n <= k.
Proof.
  revert n k.
  induction fuel as [ | fuel IH ]; intros n k Hk Hn; cbn [digits10_fuel]; trivial.
  destruct (Z.leb_spec n 0) as [ | Hpos ]; trivial.
  assert (Hk1 : 1 <= k).
  { destruct (Z.eq_dec k 0) as [-> | ]; [ | lia ].
    change (10 ^ 0) with 1 in Hn. lia. }
  assert (digits10_fuel fuel (n / 10) <= k - 1); [ | lia ].
  apply IH; [ lia | ].
  apply Z.div_lt_upper_bound; [ lia | ].
  rewrite <- Z.pow_succ_r by lia. now replace (Z.succ (k - 1)) with k by lia.
Qed.

Lemma of_float_one : PyDecimal.of_float PyFloat.one = PyDecimal.DFinite false 1 0.
Proof. vm_compute. reflexivity. Qed.

Lemma quantize_shift c k :
  0 <= k ->
  match - k - 0 with
  | Zneg p => Zrne c (Z.pow_pos 10 p)
  | shift => c * 10 ^ shift
  end = Zrne c (10 ^ k).
Proof.
  intros Hk. destruct k as [ | p | p ]; try lia; simpl.
  - rewrite Z.mul_1_r. symmetry.
    replace c with (1 * c) at 1 by lia. apply Zrne_exact. lia.
  - reflexivity.
Qed.

(** Quantizing the exact decimal expansion of a float to exponent 0 rounds
    the float itself half to even. *)
Lemma quantize_of_float s m E :
  E < 0 -> Zrne (Zpos m) (2 ^ (- E)) < 10 ^ 28 ->
  PyDecimal.quantize (PyDecimal.of_float (S754_finite s m E))
                     (PyDecimal.of_float PyFloat.one)
    = Return (PyDecimal.DFinite s (Zrne (Zpos m) (2 ^ (- E))) 0).
Proof.
  intros HE Hb. rewrite of_float_one.
  destruct E as [ | p | p ]; try lia.
  unfold PyDecimal.of_float, PyDecimal.as_integer_ratio.
  change (- Zneg p) with (Zpos p) in *.
  rewrite Z.pow_pos_fold.
  set (D := 2 ^ Zpos p) in *.
  assert (HD : 0 < D) by (apply Z.pow_pos_nonneg; lia).
  set (g := Z.gcd (Zpos m) D).
  assert (Hg : 0 < g).
  { pose proof (Z.gcd_nonneg (Zpos m) D).
    destruct (Z.eq_dec g 0) as [H0 | ]; [ | lia ].
    apply Z.gcd_eq_0_l in H0. lia. }
  destruct (Z.gcd_divide_l (Zpos m) D) as [m' Hm'].
  destruct (Z.gcd_divide_r (Zpos m) D) as [D' HD'].
  fold g in Hm', HD'.
  assert (Hmg : Zpos m / g = m') by (rewrite Hm'; apply Z.div_mul; lia).
  assert (HDg : D / g = D') by (rewrite HD'; apply Z.div_mul; lia).
  rewrite Hmg, HDg.
  assert (HD'pos : 0 < D') by nia.
  assert (Hpow : D' = 2 ^ Z.log2 D').
  { apply (pow2_divisor (Zpos p)); try lia.
    exists g. fold D. lia. }
  set (k := Z.log2 D') in *.
  assert (Hk : 0 <= k) by apply Z.log2_nonneg.
  assert (Hc : Zrne (m' * 5 ^ k) (10 ^ k) = Zrne (Zpos m) D).
  { change 10 with (5 * 2). rewrite Z.pow_mul_l, (Z.mul_comm m').
    rewrite Zrne_scale by (apply Z.pow_pos_nonneg; lia).
    rewrite <- Hpow, Hm', HD', !(Z.mul_comm _ g).
    symmetry. apply Zrne_scale; lia. }
  unfold PyDecimal.quantize. cbn [PyDecimal.exponent_of].
  rewrite quantize_shift by trivial. rewrite Hc.
  assert (Hd : digits10 (Zrne (Zpos m) D) <= 28)
    by (apply digits10_fuel_le; [ lia | exact Hb ]).
  destruct (Z.ltb_spec PyDecimal.context_prec (digits10 (Zrne (Zpos m) D)));
    [ unfold PyDecimal.context_prec in *; lia | reflexivity ].
Qed.

Lemma Zrne_100_bound a :
  0 <= a < 100 * 2 ^ 47 -> 0 <= Zrne a 100 <= 2 ^ 47.
Proof.
  change (2 ^ 47) with 140737488355328. intros Ha.
  destruct (Zrne_cases a 100 ltac:(lia)) as [q [r [Hq [Hr Hc]]]].
  destruct Hc as [[H1 ->] | [[H1 ->] | [H1 ->]]];
    try destruct (Z.even q); lia.
Qed.


(** * Properties of the Money class *)

Module MoneySpec.

Import Money_.

(** Takes a computation apart along its binds. *)
Ltac step_result :=
  match goal with
  | |- context [ match ?c with Return _ => _ | Raise _ => _ end ] =>
      destruct c eqn:?
  | |- context [ if ?b then _ else _ ] => destruct b eqn:?
  end.

Lemma init_int z : init (VInt z) = Return (usd z).
Proof. reflexivity. Qed.

Lemma init_float f : init (VFloat f) = Raise amount_error.
Proof. reflexivity. Qed.

Lemma assert_amount_not_int v :
  isinstance_int v = false -> assert_amount v = Raise amount_error.
Proof.
  unfold isinstance_int, assert_amount.
  destruct (as_int v); [ discriminate | reflexivity ].
Qed.

(** ** Division of a Money by a Money *)

(** C1, as stated, fails: [floor_divide] of two Money values returns the
    plain int 333 for 1000 and 3, and no Money. *)
Lemma floor_divide_money_not_money :
  floor_divide (usd 1000) (VMoney (usd 3)) = Return (VInt 333) /\
  ~ (exists r, floor_divide (usd 1000) (VMoney (usd 3)) = Return (VMoney r)).
Proof.
  split; [ reflexivity | ].
  intros [r Hr]. discriminate Hr.
Qed.

(** C1, amended: for a divisor Money of nonzero amount both divisions
    return a plain int, never a Money: [floor_divide] the floor quotient
    of the amounts, [true_divide] the half-even rounding of their float
    quotient.  [true_divide] raises exactly when that quotient overflows
    the floats, and what it raises is OverflowError: whenever the float
    quotient exists, its rounding exists and is the result. *)
Theorem divide_by_money_plain_int (m d : Money) :
  amount d <> 0 ->
  floor_divide m (VMoney d) = Return (VInt (amount m / amount d)) /\
  match PyFloat.int_truediv (amount m) (amount d) with
  | Return q =>
      PyFloat.is_finite q = true /\
      exists r,
        PyFloat.round q = Return r /\
        true_divide m (VMoney d) = Return (VInt r)
  | Raise e =>
      e = OverflowError /\
      (exists s, PyFloat.nearest_quotient (amount m) (amount d)
                   = S754_infinity s) /\
      true_divide m (VMoney d) = Raise OverflowError
  end.
Proof.
  intros Hd. unfold floor_divide, true_divide.
  destruct (Z.eqb_spec (amount d) 0) as [ | Hd' ]; [ contradiction | ].
  split; [ reflexivity | ].
  destruct (int_truediv_cases (amount m) (amount d) Hd) as [Ho | [q [Hq Hf]]].
  - rewrite Ho. repeat split.
    unfold PyFloat.int_truediv in Ho.
    destruct (Z.eqb_spec (amount d) 0) as [ | _ ]; [ contradiction | ].
    destruct (PyFloat.nearest_quotient (amount m) (amount d));
      try discriminate Ho. eauto.
  - rewrite Hq. split; [ exact Hf | ].
    destruct (round_finite q Hf) as [r Hr].
    exists r. cbn [bind]. rewrite Hr. auto.
Qed.

Lemma divide_by_money_plain_int_witness :
  floor_divide (usd 1000) (VMoney (usd 3)) = Return (VInt 333) /\
  true_divide (usd 1000) (VMoney (usd 3)) = Return (VInt 333).
Proof.
  destruct (divide_by_money_plain_int (usd 1000) (usd 3)) as [Hf Ht].
  - simpl. lia.
  - split; [ exact Hf | ].
    let q := eval vm_compute in
        (PyFloat.int_truediv (amount (usd 1000)) (amount (usd 3))) in
    change (PyFloat.int_truediv (amount (usd 1000)) (amount (usd 3)))
      with q in Ht.
    cbv beta iota in Ht. destruct Ht as [_ [r [Hr Ht]]].
    vm_compute in Hr. injection Hr as <-. exact Ht.
Defined.

(** The float quotient of two amounts can overflow: 10^400 over 1. *)
Lemma true_divide_money_overflow :
  true_divide (usd (10 ^ 400)) (VMoney (usd 1)) = Raise OverflowError.
Proof. vm_compute. reflexivity. Qed.

(** ** Floor division by a float *)

(** C2: [floor_divide] checks its operand with [__assert_operand], which
    lets floats through, and then hands the float quotient to the
    constructor, which takes ints only: it returns for no float at all,
    and raises the constructor's error at 1000 // 3.0, where the floor
    of the quotient is 333. *)
Theorem floor_divide_float_raises :
  (forall (m : Money) (f : PyFloat.float),
      exists e, floor_divide m (VFloat f) = Raise e) /\
  assert_operand (VFloat (float_lit 3 1)) = Return (NFloat (float_lit 3 1)) /\
  num_floordiv 1000 (NFloat (float_lit 3 1)) = Return (NFloat (float_lit 333 1)) /\
  floor_divide (usd 1000) (VFloat (float_lit 3 1)) = Raise amount_error /\
  floor_divide (usd 1000) (VInt 3) = Return (VMoney (usd 333)).
Proof.
  split; [ | repeat split; reflexivity ].
  intros m f. unfold floor_divide. simpl.
  destruct (PyFloat.is_zero f); [ eauto | ].
  unfold num_floordiv.
  destruct (PyFloat.of_int (amount m)) as [x | e]; simpl; [ | eauto ].
  destruct (PyFloat.floordiv x f) as [q | e]; simpl; eauto.
Qed.

(** ** Addition and subtraction *)

(** C3, as stated, fails: the error of 1000 + 10.0 is the one of the
    amount check, not the one of the operand check. *)
Lemma add_float_not_invalid_operand :
  ~ (exists e, add (usd 1000) (VFloat (float_lit 10 1)) = Raise e /\
               error_kind_of e = Some InvalidOperand).
Proof.
  intros [e [He Hk]]. inversion He. subst e. discriminate Hk.
Qed.

(** C3, amended: a float operand of [add] and [subtract] is rejected by
    [__assert_amount], with the ValueError of the constructor
    (InvalidAmount), which is not the error of [__assert_operand]. *)
Theorem add_sub_float_amount_error (m : Money) (f : PyFloat.float) :
  add m (VFloat f) = Raise amount_error /\
  sub m (VFloat f) = Raise amount_error /\
  error_kind_of amount_error = Some InvalidAmount /\
  amount_error <> operand_error.
Proof. repeat split. discriminate. Qed.

(** C7: adding and subtracting the same int are inverse to each other,
    as seen by [==]. *)
Theorem add_sub_int_round_trip (m : Money) (k : Z) :
  (r <- add m (VInt k) ;; r' <- sub r (VInt k) ;; eq r' (VMoney m))
    = Return true /\
  (r <- sub m (VInt k) ;; r' <- add r (VInt k) ;; eq r' (VMoney m))
    = Return true.
Proof.
  split; simpl; f_equal; apply Z.eqb_eq; lia.
Qed.

(** ** Multiplication *)

(** C8: multiplying by an int, on either side, returns the Money of the
    exact product; [round] leaves an int as it is. *)
Theorem mul_int_exact (m : Money) (k : Z) :
  mul m (VInt k) = Return (usd (amount m * k)) /\
  rmul m (VInt k) = Return (usd (amount m * k)) /\
  py_round (NInt (amount m * k)) = Return (amount m * k).
Proof. repeat split. Qed.

(** ** Division by zero *)

Lemma round_not_zero_division q : PyFloat.round q <> Raise ZeroDivisionError.
Proof.
  destruct q; simpl; try discriminate.
  destruct (PyFloat.to_fraction s m e); discriminate.
Qed.

Lemma of_int_not_zero_division a : PyFloat.of_int a <> Raise ZeroDivisionError.
Proof.
  unfold PyFloat.of_int.
  destruct (binary_normalize _ _ a 0 false); discriminate.
Qed.

Lemma int_truediv_zero_division a b :
  PyFloat.int_truediv a b = Raise ZeroDivisionError <-> b = 0.
Proof.
  unfold PyFloat.int_truediv.
  destruct (Z.eqb_spec b 0) as [Hb | Hb]; split; trivial; try contradiction.
  destruct (PyFloat.nearest_quotient a b); discriminate.
Qed.

Lemma bind_not_raise {A B : Type} (c : result A) (k : A -> result B) e :
  c <> Raise e -> (forall a, k a <> Raise e) -> bind c k <> Raise e.
Proof.
  intros Hc Hk. destruct c as [a | e']; simpl; [ apply Hk | ].
  intros H. apply Hc. congruence.
Qed.

Lemma init_not_zero_division v : init v <> Raise ZeroDivisionError.
Proof.
  unfold init, assert_amount. destruct (as_int v); discriminate.
Qed.

Lemma floordiv_float_not_zero_division x f :
  PyFloat.is_zero f = false -> PyFloat.floordiv x f <> Raise ZeroDivisionError.
Proof.
  intros Hf. unfold PyFloat.floordiv. rewrite Hf.
  repeat step_result; discriminate.
Qed.

(** Division by a checked number raises ZeroDivisionError for zero
    only. *)
Lemma true_divide_number a d :
  num_is_zero d = false ->
  (q <- num_truediv a d ;; r <- PyFloat.round q ;;
   m <- init (VInt r) ;; Return (VMoney m)) <> Raise ZeroDivisionError.
Proof.
  intros Hz. apply bind_not_raise.
  - destruct d as [k | f]; simpl in *.
    + intros H. apply int_truediv_zero_division in H.
      apply Z.eqb_neq in Hz. contradiction.
    + apply bind_not_raise; [ apply of_int_not_zero_division | ].
      intros x. unfold PyFloat.div. rewrite Hz. discriminate.
  - intros q. apply bind_not_raise; [ apply round_not_zero_division | ].
    intros r. discriminate.
Qed.

Lemma floor_divide_number a d :
  num_is_zero d = false ->
  (q <- num_floordiv a d ;; m <- init (number_val q) ;; Return (VMoney m))
    <> Raise ZeroDivisionError.
Proof.
  intros Hz. apply bind_not_raise.
  - destruct d as [k | f]; simpl in *.
    + rewrite Hz. discriminate.
    + apply bind_not_raise; [ apply of_int_not_zero_division | ].
      intros x. apply bind_not_raise;
        [ now apply floordiv_float_not_zero_division | discriminate ].
  - intros q. apply bind_not_raise; [ apply init_not_zero_division | ].
    discriminate.
Qed.

(** C5: both divisions raise ZeroDivisionError exactly when the divisor
    is zero: the int 0, a float zero, or a Money of amount 0; raising,
    they return no value. *)
Theorem zero_division_iff_zero_divisor (m : Money) (other : pyval) :
  (true_divide m other = Raise ZeroDivisionError <-> zero_divisor other = true) /\
  (floor_divide m other = Raise ZeroDivisionError <-> zero_divisor other = true) /\
  error_kind_of ZeroDivisionError = Some DivisionByZero.
Proof.
  assert (Hnum : forall d,
             assert_operand other = Return d ->
             isinstance_Money other = false ->
             zero_divisor other = num_is_zero d).
  { intros d Hd Hm. destruct other; simpl in *; try discriminate;
      inversion Hd; reflexivity. }
  split; [ | split; [ | reflexivity ] ].
  - destruct other as [z | b | f | s | d | | o];
      try (simpl; split; discriminate).
    4: { simpl. destruct (Z.eqb_spec (amount o) 0) as [Ho | Ho];
           [ split; trivial | split; [ | discriminate ] ].
         intros H. exfalso. revert H. apply bind_not_raise.
         - intros H. now apply int_truediv_zero_division in H.
         - intros q. apply bind_not_raise;
             [ apply round_not_zero_division | discriminate ]. }
    all: unfold true_divide;
      match goal with
      | |- context [ assert_operand ?v ] =>
          rewrite (Hnum _ (eq_refl : assert_operand v = Return _) eq_refl)
      end; cbn [assert_operand as_int bind];
      match goal with
      | |- context [ num_is_zero ?d ] => destruct (num_is_zero d) eqn:Hz
      end; split; trivial; try discriminate;
      intros H; exfalso; revert H; now apply true_divide_number.
  - destruct other as [z | b | f | s | d | | o];
      try (simpl; split; discriminate).
    4: { simpl. destruct (Z.eqb_spec (amount o) 0) as [Ho | Ho];
           split; trivial; discriminate. }
    all: unfold floor_divide;
      match goal with
      | |- context [ assert_operand ?v ] =>
          rewrite (Hnum _ (eq_refl : assert_operand v = Return _) eq_refl)
      end; cbn [assert_operand as_int bind];
      match goal with
      | |- context [ num_is_zero ?d ] => destruct (num_is_zero d) eqn:Hz
      end; split; trivial; try discriminate;
      intros H; exfalso; revert H; now apply floor_divide_number.
Qed.

(** ** Equality *)

(** C9: [==] against anything that is neither a Money nor an int does
    not answer false: it raises the error of the amount check. *)
Theorem eq_non_int_raises (m : Money) (x : pyval) :
  isinstance_Money x = false ->
  isinstance_int x = false ->
  eq m x = Raise amount_error /\
  error_kind_of amount_error = Some InvalidAmount.
Proof.
  intros Hm Hi. split; [ | reflexivity ].
  unfold eq. destruct x; try discriminate;
    now rewrite assert_amount_not_int.
Qed.

Lemma eq_non_int_raises_witness :
  eq (usd 1000) (VFloat (float_lit 1000 1)) = Raise amount_error /\
  eq (usd 1000) (VStr "1000") = Raise amount_error.
Proof.
  split.
  - apply (eq_non_int_raises (usd 1000) (VFloat (float_lit 1000 1)));
      reflexivity.
  - apply (eq_non_int_raises (usd 1000) (VStr "1000")); reflexivity.
Defined.

(** ** Rounding to whole major units *)

(** The body of [round] on a nonzero amount of either sign. *)
Lemma round_positive s p :
  Zpos p < 100 * 2 ^ 47 ->
  (q <- (match SFdiv PyFloat.prec PyFloat.emax (S754_finite s p 0) (S754_finite false 100 0) with
         | S754_infinity _ => Raise OverflowError
         | f => Return f
         end) ;;
   quantized_value <-
     PyDecimal.quantize (PyDecimal.of_float q) (PyDecimal.of_float PyFloat.one) ;;
   rounded <- PyDecimal.to_int quantized_value ;;
   Money_.init (VInt (rounded * 100)))
  = Return (usd (cond_Zopp s (Zrne (Zpos p) 100) * 100)).
Proof.
  intros Ha.
  destruct (quotient_100_float s p Ha) as [m [E [-> [HE Hv]]]].
  cbn [bind].
  pose proof (Zrne_100_bound (Zpos p) ltac:(lia)) as Hb.
  rewrite quantize_of_float; trivial.
  - cbn [bind PyDecimal.to_int]. rewrite Hv.
    change (10 ^ 0) with 1. rewrite Z.mul_1_r. reflexivity.
  - rewrite Hv. change (2 ^ 47) with 140737488355328 in Hb.
    change (10 ^ 28) with 10000000000000000000000000000. lia.
Qed.

(** Below 100 * 2^47 minor units the float quotient keeps at least six
    binary places, and [round] is the half-even rounding of the exact
    quotient. *)
Lemma round_agrees (m : Money) :
  Z.abs (amount m) < 100 * 2 ^ 47 ->
  Money_.round m = Return (usd (spec_round_amount (amount m))).
Proof.
  destruct m as [a c]. cbn [amount].
  intros Ha. unfold Money_.round, spec_round_amount.
  cbn [amount]. unfold PyFloat.int_truediv.
  change (100 =? 0) with false. cbv iota.
  destruct a as [ | p | p ].
  - vm_compute. reflexivity.
  - apply (round_positive false p). lia.
  - transitivity (Return (usd (cond_Zopp true (Zrne (Zpos p) 100) * 100))).
    + apply (round_positive true p). lia.
    + change (Zneg p) with (- Zpos p). rewrite Zrne_opp by lia. reflexivity.
Qed.

(** C4: [round] divides in binary floating point before it rounds in
    decimal.  At 14073748835532851, the first amount past 100 * 2^47 where
    it matters, the float quotient of 140737488355328.51 is the tie
    140737488355328.5 and the result is one major unit too low; at
    14073748835532949 the quotient of 140737488355329.49 is the tie
    140737488355329.5 and the result is one major unit too high; at 10^31
    the quantize step exceeds the 28 digits of the decimal context and
    raises.  The two documented examples hold. *)
Theorem round_float_quotient :
  round (usd 14073748835532851) = Return (usd 14073748835532800) /\
  spec_round_amount 14073748835532851 = 14073748835532900 /\
  round (usd 14073748835532949) = Return (usd 14073748835533000) /\
  spec_round_amount 14073748835532949 = 14073748835532900 /\
  round (usd (10 ^ 31)) = Raise DecimalInvalidOperation /\
  round (usd 1001) = Return (usd 1000) /\
  round (usd 1051) = Return (usd 1100) /\
  spec_round_amount 1001 = 1000 /\ spec_round_amount 1051 = 1100.
Proof. repeat split; vm_compute; reflexivity. Qed.

(** ** Parsing *)

Lemma filter_string_app keep s t :
  filter_string keep (s ++ t) = (filter_string keep s ++ filter_string keep t)%string.
Proof.
  induction s as [ | c s IH ]; simpl; trivial.
  destruct (keep c); simpl; now rewrite IH.
Qed.

Lemma filter_string_all keep s :
  all_string keep (filter_string keep s) = true.
Proof.
  induction s as [ | c s IH ]; simpl; trivial.
  destruct (keep c) eqn:Hc; simpl; trivial. now rewrite Hc.
Qed.

Lemma filter_string_fixed keep s :
  all_string keep s = true -> filter_string keep s = s.
Proof.
  induction s as [ | c s IH ]; simpl; trivial.
  destruct (keep c); simpl; [ | discriminate ].
  intros H. now rewrite IH.
Qed.

Lemma strip_non_numeric_idempotent s :
  strip_non_numeric (strip_non_numeric s) = strip_non_numeric s.
Proof. apply filter_string_fixed, filter_string_all. Qed.

(** A character that is neither a digit nor a point can stand anywhere
    in the string without changing what is parsed. *)
Lemma from_string_ignores (c : ascii) (s t : string) :
  is_digit c || is_point c = false ->
  from_string (VStr (s ++ String c t)) = from_string (VStr (s ++ t)).
Proof.
  intros Hc. unfold from_string, strip_non_numeric.
  rewrite !filter_string_app. simpl. now rewrite Hc.
Qed.

(** C6: [from_string] parses what is left of the string once every
    character other than a digit or a point is deleted; a leading minus
    sign is among the deleted, so that "-$5.00" gives the 500 of
    "$5.00"; "$6,150,593.22" gives 615059322. *)
Theorem from_string_strips :
  (forall s, from_string (VStr s) = from_string (VStr (strip_non_numeric s))) /\
  (forall s, all_string (fun c => is_digit c || is_point c)
                        (strip_non_numeric s) = true) /\
  (forall s, from_string (VStr (String "-" s)) = from_string (VStr s)) /\
  from_string (VStr "-$5.00") = from_string (VStr "$5.00") /\
  from_string (VStr "$5.00") = Return (usd 500) /\
  (r <- from_string (VStr "$6,150,593.22") ;; Return (to_integer r))
    = Return 615059322.
Proof.
  split; [ | split; [ | split; [ | repeat split; vm_compute; reflexivity ] ] ].
  - intros s. unfold from_string.
    now rewrite strip_non_numeric_idempotent.
  - intros s. apply filter_string_all.
  - intros s. apply (from_string_ignores "-" "" s). reflexivity.
Qed.

Lemma of_string_finite s d :
  PyDecimal.of_string s = Return d ->
  exists c e, d = PyDecimal.DFinite false c e.
Proof.
  unfold PyDecimal.of_string.
  destruct (PyDecimal.split_point s) as [int_part rest].
  match goal with |- context [ if ?b then _ else _ ] => destruct b end;
    intros H; inversion H; eauto.
Qed.

Lemma to_float_finite_not_nan sg c e :
  PyDecimal.to_float (PyDecimal.DFinite sg c e) <> S754_nan.
Proof.
  unfold PyDecimal.to_float. destruct (c =? 0); [ discriminate | ].
  destruct e as [ | p | p ]; apply nearest_quotient_not_nan;
    try discriminate.
  rewrite Z.pow_pos_fold. apply Z.pow_nonzero; lia.
Qed.

Lemma of_int_100 :
  PyFloat.of_int 100 = Return (S754_finite false 7036874417766400 (-46)).
Proof. reflexivity. Qed.

Lemma floor_not_nan x :
  x <> S754_nan ->
  (exists z, PyFloat.floor x = Return z) \/ PyFloat.floor x = Raise OverflowError.
Proof.
  destruct x; simpl; intros H; eauto; try congruence.
  destruct (PyFloat.to_fraction s m e); eauto.
Qed.

(** A float that is not a NaN becomes a Money, unless it is infinite
    once scaled. *)
Lemma from_float_not_nan f :
  f <> S754_nan ->
  (exists r, from_float (VFloat f) = Return r) \/
  from_float (VFloat f) = Raise OverflowError.
Proof.
  intros Hf. unfold from_float. rewrite of_int_100.
  cbn [bind].
  destruct (floor_not_nan (PyFloat.mul f (S754_finite false 7036874417766400 (-46))))
    as [[z Hz] | Ho].
  - apply mul_not_nan; [ exact Hf | reflexivity | reflexivity ].
  - left. rewrite Hz. cbn [bind]. rewrite init_int. eauto.
  - right. now rewrite Ho.
Qed.

(** A string of 400 digits parses to an infinite float, which [floor]
    refuses. *)
Lemma from_string_overflow :
  from_string (VStr (String "1" (zeros 400))) = Raise OverflowError.
Proof. vm_compute. reflexivity. Qed.

(** C10: [from_string] raises the amount error on every input that is
    not a string and on no string; on a string it returns, or raises
    the conversion error of the decimal parser (as on "$" and "1.2.3"),
    or OverflowError; neither is one of the three error kinds. *)
Theorem from_string_error_kinds :
  (forall v, isinstance_str v = true \/ from_string v = Raise string_error) /\
  error_kind_of string_error = Some InvalidAmount /\
  (forall s,
      (exists r, from_string (VStr s) = Return r) \/
      from_string (VStr s) = Raise DecimalInvalidOperation \/
      from_string (VStr s) = Raise OverflowError) /\
  from_string (VStr "$") = Raise DecimalInvalidOperation /\
  from_string (VStr "1.2.3") = Raise DecimalInvalidOperation /\
  error_kind_of DecimalInvalidOperation = None /\
  error_kind_of OverflowError = None.
Proof.
  split; [ | split; [ reflexivity | split; [ | repeat split ] ] ].
  - intros v. destruct v; simpl; auto.
  - intros s. unfold from_string.
    destruct (PyDecimal.of_string (strip_non_numeric s)) as [d | e] eqn:Hd.
    + destruct (of_string_finite _ _ Hd) as [c [e ->]]. cbn [bind].
      destruct (from_float_not_nan _ (to_float_finite_not_nan false c e))
        as [Hr | Ho]; auto.
    + unfold PyDecimal.of_string in Hd.
      destruct (PyDecimal.split_point _) as [int_part rest].
      match type of Hd with
      | (if ?b then _ else _) = _ => destruct b
      end; inversion Hd. auto.
Qed.

End MoneySpec.

(** * Further facts about the float model *)

Lemma binary_round_aux_sign m e l :
  0 <= m ->
  positive_sign (binary_round_aux PyFloat.prec PyFloat.emax false m e l).
Proof.
  intros H. unfold binary_round_aux.
  pose proof (shr_fexp_nonneg m e l H) as H1.
  destruct (shr_fexp _ _ m e l) as [mrs1 e1]. simpl in H1.
  pose proof (shr_fexp_nonneg _ e1 loc_Exact
                (round_nearest_even_nonneg _ (loc_of_shr_record mrs1) H1)) as H2.
  destruct (shr_fexp _ _ _ e1 loc_Exact) as [mrs2 e2]. simpl in H2.
  destruct (shr_m mrs2) as [ | p | p ]; try lia; simpl; trivial.
  destruct (e2 <=? _); reflexivity.
Qed.

Lemma SFdiv_positive_sign mx ex my ey :
  positive_sign (SFdiv PyFloat.prec PyFloat.emax
                   (S754_finite false mx ex) (S754_finite false my ey)).
Proof.
  unfold SFdiv, SFdiv_core_binary.
  set (m' := match _ - _ - _ with Z0 => _ | Zpos _ => _ | Zneg _ => _ end).
  assert (Hm : 0 <= m').
  { subst m'. destruct (_ - _ - _); try lia.
    apply Z.shiftl_nonneg. lia. }
  pose proof (Z.div_pos m' (Zpos my) Hm eq_refl) as Hq.
  unfold Z.div in Hq.
  destruct (Z.div_eucl m' (Zpos my)) as [q r].
  now apply binary_round_aux_sign.
Qed.

Lemma nearest_quotient_positive_sign num den :
  0 <= num -> 0 < den -> positive_sign (PyFloat.nearest_quotient num den).
Proof.
  intros Hn Hd. unfold PyFloat.nearest_quotient.
  destruct num as [ | n | n ], den as [ | d | d ]; try lia; simpl; trivial.
  apply SFdiv_positive_sign.
Qed.

Lemma mul_hundred_positive_sign f :
  positive_sign f ->
  positive_sign (PyFloat.mul f (S754_finite false 7036874417766400 (-46))).
Proof.
  destruct f as [s | s | | s m e]; simpl; intros H; try contradiction;
    subst; simpl; trivial.
  apply binary_round_aux_sign. lia.
Qed.

Lemma to_fraction_positive m e n d :
  PyFloat.to_fraction false m e = (n, d) -> 0 <= n /\ 0 < d.
Proof.
  unfold PyFloat.to_fraction. cbn [cond_Zopp].
  assert (H2 : forall k, 0 <= k -> 0 < 2 ^ k)
    by (intros k Hk; apply Z.pow_pos_nonneg; lia).
  destruct e as [ | p | p ]; intros [= <- <-].
  - change (2 ^ 0) with 1. lia.
  - pose proof (H2 (Zpos p) ltac:(lia)) as Hp.
    change (2 ^ Zpos p) with (Z.pow_pos 2 p) in Hp.
    destruct (Z.pow_pos 2 p); split; lia.
  - split; [ lia | ]. apply (H2 (Zpos p)). lia.
Qed.

Lemma floor_positive_sign f z :
  positive_sign f -> PyFloat.floor f = Return z -> 0 <= z.
Proof.
  destruct f as [s | s | | s m e]; cbn [positive_sign PyFloat.floor];
    intros H Hz; try discriminate; try contradiction.
  - inversion Hz. lia.
  - subst s. destruct (PyFloat.to_fraction false m e) as [n d] eqn:Hf.
    apply to_fraction_positive in Hf. inversion Hz.
    apply Z.div_pos; lia.
Qed.

Lemma is_digit_value c : is_digit c = true -> 0 <= digit_value c <= 9.
Proof.
  unfold is_digit, digit_value. intros H.
  apply andb_prop in H. destruct H as [H1 H2].
  apply N.leb_le in H1. apply N.leb_le in H2. lia.
Qed.

Lemma digits_value_nonneg s acc :
  all_string is_digit s = true -> 0 <= acc ->
  0 <= PyDecimal.digits_value acc s.
Proof.
  revert acc.
  induction s as [ | c s IH ]; cbn [PyDecimal.digits_value all_string];
    intros acc H Ha; trivial.
  apply andb_prop in H. destruct H as [Hc Hs].
  apply IH; trivial. pose proof (is_digit_value c Hc). lia.
Qed.

Lemma all_string_app p s t :
  all_string p (s ++ t) = all_string p s && all_string p t.
Proof.
  induction s as [ | c s IH ]; simpl; trivial.
  now rewrite IH, andb_assoc.
Qed.

Lemma of_string_nonneg s d :
  PyDecimal.of_string s = Return d ->
  exists c e, d = PyDecimal.DFinite false c e /\ 0 <= c.
Proof.
  unfold PyDecimal.of_string.
  destruct (PyDecimal.split_point s) as [int_part rest].
  set (frac_part := match rest with Some f => f | None => EmptyString end).
  destruct (all_string is_digit int_part && all_string is_digit frac_part) eqn:Hd;
    simpl; [ | discriminate ].
  destruct (negb _); [ | discriminate ].
  intros H. inversion H. do 2 eexists. split; [ reflexivity | ].
  apply digits_value_nonneg; [ | lia ].
  now rewrite all_string_app.
Qed.

Lemma to_float_positive_sign c e :
  0 <= c -> positive_sign (PyDecimal.to_float (PyDecimal.DFinite false c e)).
Proof.
  intros Hc. unfold PyDecimal.to_float.
  destruct (Z.eqb_spec c 0); simpl; trivial.
  destruct e as [ | p | p ]; apply nearest_quotient_positive_sign; lia.
Qed.

Lemma Zrne_div_bounds n d : 0 < d -> n / d <= Zrne n d <= n / d + 1.
Proof.
  intros Hd. unfold Zrne.
  destruct (2 * (n mod d) ?= d); try destruct (Z.even (n / d)); lia.
Qed.

(** Rounding to a multiple of [1 / P] first does not change the nearest
    integer of [a / k], as long as [P] is even and exceeds [k]. *)
Lemma Zrne_twice_general a k P :
  0 < k < P -> Z.even P = true ->
  Zrne (Zrne (a * P) k) P = Zrne a k.
Proof.
  intros HP He.
  destruct (Zrne_cases a k ltac:(lia)) as [q [r [Ha [Hr Hc]]]].
  destruct (Zrne_cases (a * P) k ltac:(lia)) as [Q [R [HM [HR HcM]]]].
  set (M := Zrne (a * P) k) in *.
  assert (HMb : 2 * a * P - k <= 2 * k * M <= 2 * a * P + k).
  { destruct HcM as [[H1 H2] | [[H1 H2] | [H1 H2]]]; rewrite H2;
      try destruct (Z.even Q); nia. }
  subst a.
  destruct Hc as [[H1 ->] | [[H1 ->] | [H1 ->]]].
  - apply (Zrne_unique_lt _ _ q (M - P * q)); nia.
  - destruct (Z.eq_dec M (P * (q + 1))) as [-> | Hne].
    + apply Zrne_exact; lia.
    + apply (Zrne_unique_gt _ _ q (M - P * q)); nia.
  - apply Z.even_spec in He. destruct He as [h ->].
    assert (HMe : M = 2 * h * q + h).
    { unfold M. replace ((k * q + r) * (2 * h)) with (k * (2 * h * q + h)) by nia.
      apply Zrne_exact; lia. }
    rewrite HMe.
    apply (Zrne_unique_eq _ _ q h); lia.
Qed.

Lemma new_location_exact D r :
  0 < D -> 0 <= r < D ->
  new_location D r = loc_Exact <-> r = 0.
Proof.
  intros HD Hr. unfold new_location.
  destruct (Z.even D); unfold new_location_even, new_location_odd;
    destruct (Z.eqb_spec r 0); split; trivial; try discriminate;
    try contradiction.
Qed.

Lemma round_new_location_general D n :
  0 < D ->
  round_nearest_even (n / D) (new_location D (n mod D)) = Zrne n D.
Proof.
  intros HD.
  pose proof (Z.mod_pos_bound n D HD) as Hb.
  unfold new_location, Zrne.
  destruct (Z.even D) eqn:He; unfold new_location_even, new_location_odd;
    destruct (Z.eqb_spec (n mod D) 0) as [H0 | H0];
    cbn [round_nearest_even].
  - rewrite H0. change (2 * 0) with 0.
    now rewrite (proj2 (Z.compare_lt_iff 0 D) HD).
  - destruct (2 * (n mod D) ?= D); reflexivity.
  - rewrite H0. change (2 * 0) with 0.
    now rewrite (proj2 (Z.compare_lt_iff 0 D) HD).
  - assert (Ho : Z.odd D = true) by (rewrite <- Z.negb_even, He; reflexivity).
    apply Z.odd_spec in Ho. destruct Ho as [t Ht].
    destruct (Z.compare_spec (2 * (n mod D) + 1) D),
      (Z.compare_spec (2 * (n mod D)) D); trivial; lia.
Qed.

Lemma shr_1_of_loc q l :
  0 <= q ->
  shr_1 (shr_record_of_loc q l)
    = Build_shr_record (q / 2) (Z.odd q)
        (match l with loc_Exact => false | _ => true end).
Proof.
  intros Hq. destruct l as [ | [ | | ] ]; simpl shr_record_of_loc;
    rewrite shr_1_spec by trivial; reflexivity.
Qed.

Lemma round_shifted_location_general D n :
  0 < D -> 0 <= n ->
  let mrs := shr_1 (shr_record_of_loc (n / D) (new_location D (n mod D))) in
  round_nearest_even (shr_m mrs) (loc_of_shr_record mrs) = Zrne n (2 * D).
Proof.
  intros HD Hn mrs.
  assert (Hq : 0 <= n / D) by (apply Z.div_pos; lia).
  pose proof (Z.mod_pos_bound n D HD) as Hb.
  pose proof (Z.div_mod n D ltac:(lia)) as Hdm.
  pose proof (Z.div_mod (n / D) 2 ltac:(lia)) as Hdm2.
  pose proof (Z.mod_pos_bound (n / D) 2 ltac:(lia)) as Hb2.
  assert (Ho : Z.odd (n / D) = negb ((n / D) mod 2 =? 0)).
  { rewrite Zmod_odd. destruct (Z.odd (n / D)); reflexivity. }
  pose proof (new_location_exact D (n mod D) HD Hb) as Hex.
  subst mrs. rewrite shr_1_of_loc by trivial.
  set (q := n / D) in *. set (r := n mod D) in *. set (q2 := q / 2) in *.
  assert (Hn' : n = 2 * D * q2 + (D * (q mod 2) + r)).
  { rewrite Hdm at 1. rewrite Hdm2 at 1. ring. }
  cbn [shr_m]. rewrite Ho.
  destruct (Z.eqb_spec (q mod 2) 0) as [He | He];
    [ rewrite He in Hn' | assert (He1 : q mod 2 = 1) by lia; rewrite He1 in Hn' ];
    destruct (new_location D r) eqn:Hl;
    cbn [loc_of_shr_record round_nearest_even negb]; symmetry.
  - assert (r = 0) by (now apply Hex).
    apply (Zrne_unique_lt _ _ q2 0); lia.
  - assert (r <> 0) by (intros Hr; apply Hex in Hr; discriminate).
    apply (Zrne_unique_lt _ _ q2 r); lia.
  - assert (r = 0) by (now apply Hex).
    apply (Zrne_unique_eq _ _ q2 D); lia.
  - assert (r <> 0) by (intros Hr; apply Hex in Hr; discriminate).
    apply (Zrne_unique_gt _ _ q2 (D + r)); lia.
Qed.

(** Rounding a quotient of 53 or 54 bits to a binary64 mantissa. *)
Lemma round_quotient_general s n D e :
  0 < D -> 2 ^ 52 * D <= n < 2 ^ 54 * D -> -1074 <= e <= 960 ->
  exists m E j c,
    binary_round_aux PyFloat.prec PyFloat.emax s (n / D) e (new_location D (n mod D))
      = S754_finite s m E /\
    0 <= j <= 1 /\ (j = 1 -> 2 ^ 53 <= n / D) /\
    0 <= c <= 1 /\ E = e + j + c /\
    Zpos m * 2 ^ c = Zrne n (D * 2 ^ j) /\
    2 ^ 52 <= Zpos m < 2 ^ 53.
Proof.
  intros HD Hn He.
  assert (Hq : 2 ^ 52 <= n / D < 2 ^ 54).
  { split; [ apply Z.div_le_lower_bound | apply Z.div_lt_upper_bound ]; lia. }
  assert (Hn0 : 0 <= n) by (change (2 ^ 52) with 4503599627370496 in Hn; nia).
  unfold binary_round_aux.
  destruct (Z.lt_ge_cases (n / D) (2 ^ 53)) as [Hlt | Hge].
  - unfold shr_fexp at 1.
    rewrite (Zdigits2_unique (n / D) 53) by (simpl; lia).
    rewrite fexp_normal by lia.
    replace (Z.max (53 - 53) (-1074 - e)) with 0 by lia.
    cbn [shr]. rewrite shr_record_of_loc_m, loc_of_shr_record_of_loc.
    rewrite round_new_location_general by trivial.
    pose proof (Zrne_div_bounds n D HD) as Hb.
    assert (HM : 2 ^ 52 <= Zrne n D <= 2 ^ 53) by lia.
    destruct (shr_fexp_exact (Zrne n D) e HM ltac:(lia)) as [m' [e' [-> [Hm' [He' Hv]]]]].
    cbn [shr_m].
    destruct m' as [ | p | p ]; try (simpl in Hm'; lia).
    assert (He'' : e' <= e + 1).
    { destruct (Z.le_gt_cases e' (e + 1)); trivial. exfalso.
      assert (2 ^ 2 <= 2 ^ (e' - e)) by (apply Z.pow_le_mono_r; lia).
      change (2 ^ 52) with 4503599627370496 in *.
      change (2 ^ 53) with 9007199254740992 in *. nia. }
    exists p, e', 0, (e' - e).
    replace (e' <=? PyFloat.emax - PyFloat.prec) with true
      by (symmetry; apply Z.leb_le; unfold PyFloat.emax, PyFloat.prec; lia).
    repeat split; try lia.
    change (2 ^ 0) with 1. rewrite Z.mul_1_r. exact Hv.
  - unfold shr_fexp at 1.
    rewrite (Zdigits2_unique (n / D) 54) by (simpl; lia).
    rewrite fexp_normal by lia.
    replace (Z.max (54 - 53) (-1074 - e)) with 1 by lia.
    cbn [shr iter_pos].
    rewrite (round_shifted_location_general D n) by trivial.
    pose proof (Zrne_div_bounds n (2 * D) ltac:(lia)) as Hb.
    assert (Hqq : n / (2 * D) = n / D / 2)
      by (rewrite (Z.mul_comm 2 D); symmetry; apply Z.div_div; lia).
    assert (HM : 2 ^ 52 <= Zrne n (2 * D) <= 2 ^ 53).
    { rewrite Hqq in Hb.
      change (2 ^ 52) with 4503599627370496 in *.
      change (2 ^ 53) with 9007199254740992 in *.
      change (2 ^ 54) with 18014398509481984 in *.
      pose proof (Z.div_mod (n / D) 2 ltac:(lia)).
      pose proof (Z.mod_pos_bound (n / D) 2 ltac:(lia)). lia. }
    destruct (shr_fexp_exact (Zrne n (2 * D)) (e + 1) HM ltac:(lia)) as [m' [e' [-> [Hm' [He' Hv]]]]].
    cbn [shr_m].
    destruct m' as [ | p | p ]; try (simpl in Hm'; lia).
    assert (He'' : e' <= e + 2).
    { destruct (Z.le_gt_cases e' (e + 2)); trivial. exfalso.
      assert (2 ^ 2 <= 2 ^ (e' - (e + 1))) by (apply Z.pow_le_mono_r; lia).
      change (2 ^ 52) with 4503599627370496 in *.
      change (2 ^ 53) with 9007199254740992 in *. nia. }
    exists p, e', 1, (e' - (e + 1)).
    replace (e' <=? PyFloat.emax - PyFloat.prec) with true
      by (symmetry; apply Z.leb_le; unfold PyFloat.emax, PyFloat.prec; lia).
    repeat split; try lia.
    change (2 ^ 1) with 2. rewrite (Z.mul_comm D 2). exact Hv.
Qed.

Lemma cond_Zopp_Zrne s n d :
  0 < d -> Zrne (cond_Zopp s n) d = cond_Zopp s (Zrne n d).
Proof. intros Hd. destruct s; simpl; trivial. now apply Zrne_opp. Qed.

Lemma Zrne_one n : Zrne n 1 = n.
Proof. replace n with (1 * n) at 1 by lia. apply Zrne_exact. lia. Qed.

(** [round] on a finite float whose value is [M / 2^N]. *)
Lemma float_round_value sgn m E M N c :
  0 <= c -> 0 <= N -> Zpos m * 2 ^ c = M -> E = c - N ->
  PyFloat.round (S754_finite sgn m E) = Return (cond_Zopp sgn (Zrne M (2 ^ N))).
Proof.
  intros Hc HN HM HE. unfold PyFloat.round, PyFloat.to_fraction.
  assert (H2 : forall t, 0 <= t -> 0 < 2 ^ t)
    by (intros t Ht; apply Z.pow_pos_nonneg; lia).
  destruct E as [ | p | p ].
  - change (2 ^ 0) with 1. rewrite Z.mul_1_r, Zrne_one. f_equal.
    assert (c = N) by lia. subst c. subst M.
    rewrite (Z.mul_comm (Zpos m)), Zrne_exact; trivial. now apply H2.
  - rewrite Zrne_one. f_equal.
    assert (Hcn : c = N + Zpos p) by lia.
    subst M. rewrite Hcn, Z.pow_add_r by lia.
    replace (Zpos m * (2 ^ N * 2 ^ Zpos p)) with (2 ^ N * (Zpos m * 2 ^ Zpos p)) by ring.
    rewrite Zrne_exact by (now apply H2).
    destruct sgn; cbn [cond_Zopp]; [ apply Z.mul_opp_l | reflexivity ].
  - rewrite Z.pow_pos_fold. f_equal.
    rewrite cond_Zopp_Zrne by (apply H2; lia). f_equal.
    assert (HNc : N = c + Zpos p) by lia.
    subst M. rewrite HNc, Z.pow_add_r by lia.
    rewrite (Z.mul_comm (Zpos m)).
    symmetry. apply Zrne_scale; apply H2; lia.
Qed.

(** The float quotient of two positive ints, the dividend of at most 53
    bits: a mantissa [m] of 53 bits at an exponent [c - N], worth the
    quotient rounded to [N] binary places. *)
Lemma int_quotient_shape sa sk a k :
  Zpos a < 2 ^ 53 -> Zpos k < 2 ^ 1000 ->
  exists m E N c,
    SFdiv PyFloat.prec PyFloat.emax (S754_finite sa a 0) (S754_finite sk k 0)
      = S754_finite (xorb sa sk) m E /\
    0 <= c <= 1 /\ E = c - N /\
    52 + Zdigits2 (Zpos k) - Zdigits2 (Zpos a) <= N
      <= 53 + Zdigits2 (Zpos k) - Zdigits2 (Zpos a) /\
    Zpos m * 2 ^ c = Zrne (Zpos a * 2 ^ N) (Zpos k) /\
    2 ^ 52 <= Zpos m < 2 ^ 53.
Proof.
  intros Ha Hk.
  pose proof (Zdigits2_bounds a) as Hd1.
  pose proof (Zdigits2_bounds k) as Hd2.
  unfold SFdiv, SFdiv_core_binary.
  set (d1 := Zdigits2 (Zpos a)) in *. set (d2 := Zdigits2 (Zpos k)) in *.
  assert (Hd1' : 1 <= d1) by (unfold d1; simpl; lia).
  assert (Hd2' : 1 <= d2) by (unfold d2; simpl; lia).
  assert (Hd1'' : d1 <= 53).
  { destruct (Z.le_gt_cases d1 53); trivial. exfalso.
    assert (2 ^ 53 <= 2 ^ (d1 - 1)) by (apply Z.pow_le_mono_r; lia). lia. }
  assert (Hd2'' : d2 <= 1000).
  { destruct (Z.le_gt_cases d2 1000); trivial. exfalso.
    assert (2 ^ 1000 <= 2 ^ (d2 - 1)) by (apply Z.pow_le_mono_r; lia). lia. }
  replace (Z.min (fexp PyFloat.prec PyFloat.emax (d1 + 0 - (d2 + 0))) (0 - 0))
    with (d1 - d2 - 53)
    by (unfold fexp, emin, PyFloat.prec, PyFloat.emax; lia).
  replace (0 - 0 - (d1 - d2 - 53)) with (53 + d2 - d1) by lia.
  assert (Hs : match 53 + d2 - d1 with
               | 0 => Zpos a
               | Zpos _ => Z.shiftl (Zpos a) (53 + d2 - d1)
               | Zneg _ => 0
               end = Zpos a * 2 ^ (53 + d2 - d1)).
  { destruct (53 + d2 - d1) eqn:Hsd; try lia. rewrite <- Hsd.
    apply Z.shiftl_mul_pow2. lia. }
  rewrite Hs. clear Hs.
  set (n := Zpos a * 2 ^ (53 + d2 - d1)).
  rewrite div_eucl_div_mod.
  assert (H2 : forall t, 0 <= t -> 0 < 2 ^ t)
    by (intros t Ht; apply Z.pow_pos_nonneg; lia).
  assert (Hp : 2 ^ (d1 - 1) * 2 ^ (53 + d2 - d1) = 2 ^ 52 * 2 ^ d2)
    by (rewrite <- !Z.pow_add_r by lia; f_equal; lia).
  assert (Hp' : 2 ^ d1 * 2 ^ (53 + d2 - d1) = 2 ^ 54 * 2 ^ (d2 - 1))
    by (rewrite <- !Z.pow_add_r by lia; f_equal; lia).
  pose proof (H2 (53 + d2 - d1) ltac:(lia)) as Hpos.
  pose proof (H2 52 ltac:(lia)) as Hpos52.
  pose proof (H2 54 ltac:(lia)) as Hpos54.
  assert (Hn : 2 ^ 52 * Zpos k <= n < 2 ^ 54 * Zpos k) by (unfold n; nia).
  destruct (round_quotient_general (xorb sa sk) n (Zpos k) (d1 - d2 - 53))
    as [m [E [j [c [HR [Hj [Hj1 [Hc [HE [Hv Hm]]]]]]]]]]; try lia.
  set (N := 53 + d2 - d1 - j).
  exists m, E, N, c.
  assert (HM : Zrne n (Zpos k * 2 ^ j) = Zrne (Zpos a * 2 ^ N) (Zpos k)).
  { unfold n. replace (53 + d2 - d1) with (N + j) by (unfold N; lia).
    rewrite Z.pow_add_r by (unfold N; lia).
    replace (Zpos a * (2 ^ N * 2 ^ j)) with (2 ^ j * (Zpos a * 2 ^ N)) by ring.
    rewrite (Z.mul_comm (Zpos k)).
    apply Zrne_scale; first [ lia | apply H2; lia ]. }
  rewrite HM in Hv.
  repeat split; first [ exact HR | exact Hv | unfold N; lia | lia ].
Qed.

(** The float quotient of two positive ints, the dividend below 2^52: a
    mantissa [m] of 53 bits at an exponent [c - N], worth the quotient
    rounded to [N] binary places. *)
Lemma int_quotient_repr sa sk a k :
  Zpos a < 2 ^ 52 -> Zpos k < 2 ^ 1000 ->
  exists m E N c,
    SFdiv PyFloat.prec PyFloat.emax (S754_finite sa a 0) (S754_finite sk k 0)
      = S754_finite (xorb sa sk) m E /\
    0 <= c <= 1 /\ E = c - N /\
    Zdigits2 (Zpos k) <= N <= 53 + Zdigits2 (Zpos k) - Zdigits2 (Zpos a) /\
    52 + Zdigits2 (Zpos k) - Zdigits2 (Zpos a) <= N /\
    Zpos m * 2 ^ c = Zrne (Zpos a * 2 ^ N) (Zpos k) /\
    2 ^ 52 <= Zpos m < 2 ^ 53.
Proof.
  intros Ha Hk.
  assert (Ha' : Zpos a < 2 ^ 53)
    by (change (2 ^ 52) with 4503599627370496 in Ha;
        change (2 ^ 53) with 9007199254740992; lia).
  destruct (int_quotient_shape sa sk a k Ha' Hk)
    as [m [E [N [c [HS [Hc [HE [HN [Hv Hm]]]]]]]]].
  exists m, E, N, c.
  pose proof (Zdigits2_bounds a) as Hd1.
  assert (Hd1' : Zdigits2 (Zpos a) <= 52).
  { destruct (Z.le_gt_cases (Zdigits2 (Zpos a)) 52); trivial. exfalso.
    assert (2 ^ 52 <= 2 ^ (Zdigits2 (Zpos a) - 1))
      by (apply Z.pow_le_mono_r; lia). lia. }
  repeat split; first [ exact HS | exact Hv | lia ].
Qed.

(** That float rounds to the integer the exact quotient rounds to. *)
Lemma int_quotient_round sa sk a k :
  Zpos a < 2 ^ 52 -> Zpos k < 2 ^ 1000 ->
  exists m E,
    SFdiv PyFloat.prec PyFloat.emax (S754_finite sa a 0) (S754_finite sk k 0)
      = S754_finite (xorb sa sk) m E /\
    PyFloat.round (S754_finite (xorb sa sk) m E)
      = Return (cond_Zopp (xorb sa sk) (Zrne (Zpos a) (Zpos k))).
Proof.
  intros Ha Hk.
  destruct (int_quotient_repr sa sk a k Ha Hk)
    as [m [E [N [c [HS [Hc [HE [[HN1 HN2] [HN3 [Hv Hm]]]]]]]]]].
  exists m, E. split; [ exact HS | ].
  pose proof (Zdigits2_bounds k) as Hd2.
  assert (Hd2' : 1 <= Zdigits2 (Zpos k)) by (simpl; lia).
  assert (Hc' : 0 <= c) by lia. assert (HN' : 0 <= N) by lia.
  rewrite (float_round_value (xorb sa sk) m E
             (Zrne (Zpos a * 2 ^ N) (Zpos k)) N c Hc' HN' Hv HE).
  do 2 f_equal. apply Zrne_twice_general.
  - assert (2 ^ Zdigits2 (Zpos k) <= 2 ^ N) by (apply Z.pow_le_mono_r; lia).
    lia.
  - replace N with (1 + (N - 1)) by lia. rewrite Z.pow_add_r by lia.
    change (2 ^ 1) with 2. apply Z.even_mul.
Qed.

Lemma quotient_round_signed sa sk pa pk :
  Zpos pa < 2 ^ 52 -> Zpos pk < 2 ^ 1000 ->
  (q <- match SFdiv PyFloat.prec PyFloat.emax
                (S754_finite sa pa 0) (S754_finite sk pk 0) with
        | S754_infinity _ => Raise OverflowError
        | f => Return f
        end ;;
   PyFloat.round q)
  = Return (cond_Zopp (xorb sa sk) (Zrne (Zpos pa) (Zpos pk))).
Proof.
  intros Ha Hk.
  destruct (int_quotient_round sa sk pa pk Ha Hk) as [m [E [-> HR]]].
  exact HR.
Qed.

Lemma int_truediv_round a k :
  Z.abs a < 2 ^ 52 -> k <> 0 -> Z.abs k < 2 ^ 1000 ->
  (q <- PyFloat.int_truediv a k ;; PyFloat.round q)
    = Return (half_even_quotient a k).
Proof.
  intros Ha Hk Hkb. unfold PyFloat.int_truediv, half_even_quotient.
  destruct (Z.eqb_spec k 0) as [ | _ ]; [ contradiction | ].
  unfold PyFloat.nearest_quotient.
  destruct a as [ | pa | pa ].
  - rewrite Z.mul_0_r. replace 0 with (Z.abs k * 0) at 2 by lia.
    rewrite Zrne_exact by lia. reflexivity.
  - destruct k as [ | pk | pk ]; [ contradiction | | ].
    + etransitivity; [ apply (quotient_round_signed false false pa pk); lia | ].
      reflexivity.
    + etransitivity; [ apply (quotient_round_signed false true pa pk); lia | ].
      cbn [xorb cond_Zopp Z.sgn Z.abs]. f_equal.
      change (-1 * Zpos pa) with (- Zpos pa). symmetry. apply Zrne_opp. lia.
  - destruct k as [ | pk | pk ]; [ contradiction | | ].
    + etransitivity; [ apply (quotient_round_signed true false pa pk); lia | ].
      cbn [xorb cond_Zopp Z.sgn Z.abs]. f_equal.
      change (1 * Zneg pa) with (- Zpos pa). symmetry. apply Zrne_opp. lia.
    + etransitivity; [ apply (quotient_round_signed true true pa pk); lia | ].
      reflexivity.
Qed.

Lemma iter_pos_nat {A : Type} (f : A -> A) p x :
  iter_pos f p x = Nat.iter (Pos.to_nat p) f x.
Proof.
  revert x. induction p as [p IH | p IH | ]; intros x; cbn [iter_pos].
  - rewrite !IH, <- Nat.iter_add, <- Nat.iter_succ_r.
    f_equal. lia.
  - rewrite !IH, <- Nat.iter_add. f_equal. lia.
  - reflexivity.
Qed.

(** Shifting a mantissa to the right keeps, beside the quotient, the bit
    shifted out last and whether anything was shifted out before it. *)
Lemma iter_shr_1 m (k : nat) :
  0 <= m ->
  Nat.iter (S k) shr_1 (Build_shr_record m false false)
    = Build_shr_record (m / 2 ^ (Z.of_nat k + 1))
        (Z.odd (m / 2 ^ Z.of_nat k))
        (negb (m mod 2 ^ Z.of_nat k =? 0)).
Proof.
  intros Hm. induction k as [ | k IH ].
  - cbn [Nat.iter]. rewrite shr_1_spec by trivial.
    change (2 ^ (Z.of_nat 0 + 1)) with 2. change (2 ^ Z.of_nat 0) with 1.
    rewrite Z.div_1_r, Z.mod_1_r. reflexivity.
  - rewrite Nat.iter_succ, IH.
    assert (Hp : 0 < 2 ^ Z.of_nat k) by (apply Z.pow_pos_nonneg; lia).
    rewrite shr_1_spec by (apply Z.div_pos; [ lia | apply Z.pow_pos_nonneg; lia ]).
    rewrite Nat2Z.inj_succ.
    replace (Z.succ (Z.of_nat k)) with (Z.of_nat k + 1) by lia.
    f_equal.
    + rewrite Z.div_div by (try apply Z.pow_pos_nonneg; lia).
      f_equal. rewrite (Z.pow_add_r 2 (Z.of_nat k + 1) 1) by lia. reflexivity.
    + rewrite (Z.pow_add_r 2 (Z.of_nat k) 1) by lia. change (2 ^ 1) with 2.
      rewrite Z.rem_mul_r by lia.
      pose proof (Z.mod_pos_bound m (2 ^ Z.of_nat k) Hp) as Hb.
      rewrite Zmod_odd.
      destruct (Z.odd (m / 2 ^ Z.of_nat k));
        destruct (Z.eqb_spec (m mod 2 ^ Z.of_nat k) 0) as [H0 | H0];
        cbn [orb negb];
        match goal with
        | |- _ = negb (?x =? 0) => destruct (Z.eqb_spec x 0)
        end; cbn [negb]; trivial; exfalso; nia.
Qed.

(** The bits kept by the shift decide the rounding as the remainder
    does. *)
Lemma round_shifted m (p : positive) :
  0 <= m ->
  let mrs := iter_pos shr_1 p (Build_shr_record m false false) in
  round_nearest_even (shr_m mrs) (loc_of_shr_record mrs) = Zrne m (2 ^ Zpos p).
Proof.
  intros Hm mrs. subst mrs. rewrite iter_pos_nat.
  destruct (Pos.to_nat p) as [ | k ] eqn:Hk; [ lia | ].
  rewrite iter_shr_1 by trivial.
  replace (Zpos p) with (Z.of_nat k + 1) by lia.
  set (X := 2 ^ Z.of_nat k).
  assert (HX : 0 < X) by (apply Z.pow_pos_nonneg; lia).
  rewrite (Z.pow_add_r 2 (Z.of_nat k) 1) by lia. change (2 ^ 1) with 2.
  fold X.
  pose proof (Z.div_mod m X ltac:(lia)) as H1.
  pose proof (Z.mod_pos_bound m X HX) as H2.
  pose proof (Z.div_mod (m / X) 2 ltac:(lia)) as H3.
  pose proof (Z.mod_pos_bound (m / X) 2 ltac:(lia)) as H4.
  assert (Hq : m / (X * 2) = m / X / 2) by (symmetry; apply Z.div_div; lia).
  rewrite Hq.
  set (t := m / X) in *. set (r0 := m mod X) in *. set (q := t / 2) in *.
  assert (Hdec : m = X * 2 * q + (X * (t mod 2) + r0)).
  { rewrite H1 at 1. rewrite H3 at 1. ring. }
  cbn [shr_m]. rewrite Zmod_odd in Hdec.
  destruct (Z.odd t); destruct (Z.eqb_spec r0 0) as [H0 | H0];
    cbn [negb loc_of_shr_record round_nearest_even]; symmetry.
  - apply (Zrne_unique_eq _ _ q X); lia.
  - apply (Zrne_unique_gt _ _ q (X + r0)); lia.
  - apply (Zrne_unique_lt _ _ q 0); lia.
  - apply (Zrne_unique_lt _ _ q r0); lia.
Qed.

(** Rounding an exact mantissa of [53 + k] bits to binary64. *)
Lemma round_exact_general s P e (k : positive) :
  2 ^ (52 + Zpos k) <= P < 2 ^ (53 + Zpos k) ->
  -1074 <= e -> e + Zpos k <= 960 ->
  exists m c,
    binary_round_aux PyFloat.prec PyFloat.emax s P e loc_Exact
      = S754_finite s m (e + Zpos k + c) /\
    0 <= c <= 1 /\
    Zpos m * 2 ^ c = Zrne P (2 ^ Zpos k).
Proof.
  intros HP He He'.
  assert (H2 : forall t, 0 <= t -> 0 < 2 ^ t)
    by (intros t Ht; apply Z.pow_pos_nonneg; lia).
  pose proof (H2 (Zpos k) ltac:(lia)) as Hk.
  assert (HP0 : 0 <= P).
  { pose proof (H2 (52 + Zpos k) ltac:(lia)). lia. }
  unfold binary_round_aux. unfold shr_fexp at 1.
  rewrite (Zdigits2_unique P (53 + Zpos k)) by
    (try lia; replace (53 + Zpos k - 1) with (52 + Zpos k) by lia; exact HP).
  rewrite fexp_normal by lia.
  replace (Z.max (53 + Zpos k - 53) (-1074 - e)) with (Zpos k) by lia.
  cbn [shr shr_record_of_loc].
  rewrite (round_shifted P k HP0).
  assert (HM : 2 ^ 52 <= Zrne P (2 ^ Zpos k) <= 2 ^ 53).
  { pose proof (Zrne_div_bounds P (2 ^ Zpos k) Hk) as Hb.
    rewrite !Z.pow_add_r in HP by lia.
    assert (2 ^ 52 <= P / 2 ^ Zpos k)
      by (apply Z.div_le_lower_bound; lia).
    assert (P / 2 ^ Zpos k < 2 ^ 53)
      by (apply Z.div_lt_upper_bound; lia).
    lia. }
  destruct (shr_fexp_exact (Zrne P (2 ^ Zpos k)) (e + Zpos k) HM ltac:(lia))
    as [m' [e' [-> [Hm' [He'' Hv]]]]].
  cbn [shr_m].
  destruct m' as [ | p | p ]; try (simpl in Hm'; lia).
  assert (He3 : e' <= e + Zpos k + 1).
  { destruct (Z.le_gt_cases e' (e + Zpos k + 1)); trivial. exfalso.
    assert (2 ^ 2 <= 2 ^ (e' - (e + Zpos k))) by (apply Z.pow_le_mono_r; lia).
    change (2 ^ 52) with 4503599627370496 in *.
    change (2 ^ 53) with 9007199254740992 in *. nia. }
  exists p, (e' - (e + Zpos k)).
  replace (e' <=? PyFloat.emax - PyFloat.prec) with true
    by (symmetry; apply Z.leb_le; unfold PyFloat.emax, PyFloat.prec; lia).
  replace (e + Zpos k + (e' - (e + Zpos k))) with e' by lia.
  repeat split; first [ lia | exact Hv ].
Qed.

(** [math.floor] on a finite positive float whose value is [M / 2^T]. *)
Lemma float_floor_value m E M T c :
  0 <= c -> 0 <= T -> Zpos m * 2 ^ c = M -> E = c - T ->
  PyFloat.floor (S754_finite false m E) = Return (M / 2 ^ T).
Proof.
  intros Hc HT HM HE. unfold PyFloat.floor, PyFloat.to_fraction.
  cbn [cond_Zopp].
  assert (H2 : forall t, 0 <= t -> 0 < 2 ^ t)
    by (intros t Ht; apply Z.pow_pos_nonneg; lia).
  destruct E as [ | p | p ]; f_equal.
  - change (2 ^ 0) with 1. rewrite Z.mul_1_r, Z.div_1_r.
    assert (c = T) by lia. subst c. subst M.
    symmetry. apply Z.div_mul. pose proof (H2 T HT). lia.
  - rewrite Z.div_1_r.
    assert (Hcn : c = Zpos p + T) by lia.
    subst M. rewrite Hcn, Z.pow_add_r by lia.
    rewrite Z.mul_assoc. symmetry. apply Z.div_mul.
    pose proof (H2 T HT). lia.
  - rewrite Z.pow_pos_fold.
    assert (HNc : T = Zpos p + c) by lia.
    subst M. rewrite HNc, Z.pow_add_r by lia.
    symmetry. apply Z.div_mul_cancel_r;
      [ pose proof (H2 (Zpos p)); lia | pose proof (H2 c Hc); lia ].
Qed.

Lemma Zrne_error n d : 0 < d -> - d <= 2 * (d * Zrne n d - n) <= d.
Proof.
  intros Hd.
  destruct (Zrne_cases n d Hd) as [q [r [Hn [Hr [[H1 ->] | [[H1 ->] | [H1 ->]]]]]]];
    try destruct (Z.even q); nia.
Qed.

(** Hundredths, as a float, times 100, floored: the number of hundredths
    or one less. *)
Lemma cents_floor (pc : positive) :
  Zpos pc < 2 ^ 50 ->
  exists z,
    PyFloat.floor
      (PyFloat.mul
         (SFdiv PyFloat.prec PyFloat.emax
            (S754_finite false pc 0) (S754_finite false 100 0))
         (S754_finite false 7036874417766400 (-46))) = Return z /\
    (z = Zpos pc \/ z = Zpos pc - 1).
Proof.
  intros Hc50.
  assert (Hc52 : Zpos pc < 2 ^ 52)
    by (change (2 ^ 50) with 1125899906842624 in Hc50;
        change (2 ^ 52) with 4503599627370496; lia).
  destruct (int_quotient_repr false false pc 100 Hc52 ltac:(reflexivity))
    as [m [E [N [cc [HS [Hcc [HE [[HN1 HN2] [HN3 [Hv Hm]]]]]]]]]].
  rewrite HS. cbn [xorb].
  change (Zdigits2 100) with 7 in *.
  pose proof (Zdigits2_bounds pc) as Hd1.
  set (d1 := Zdigits2 (Zpos pc)) in *.
  assert (Hd1' : 1 <= d1) by (unfold d1; simpl; lia).
  assert (Hd50 : d1 <= 50).
  { destruct (Z.le_gt_cases d1 50); trivial. exfalso.
    assert (2 ^ 50 <= 2 ^ (d1 - 1)) by (apply Z.pow_le_mono_r; lia). lia. }
  assert (HN9 : 9 <= N <= 59) by lia.
  unfold PyFloat.mul, SFmul. cbn [xorb].
  set (P := Zpos (m * 7036874417766400)).
  assert (HP : P = Zpos m * 7036874417766400) by reflexivity.
  change (2 ^ 52) with 4503599627370496 in Hm.
  change (2 ^ 53) with 9007199254740992 in Hm.
  assert (H2 : forall t, 0 <= t -> 0 < 2 ^ t)
    by (intros t Ht; apply Z.pow_pos_nonneg; lia).
  pose proof (Zrne_error (Zpos pc * 2 ^ N) 100 ltac:(lia)) as Herr1.
  rewrite <- Hv in Herr1.
  (* the product has 105 or 106 bits *)
  destruct (Z.lt_ge_cases P (2 ^ 105)) as [H105 | H105].
  - destruct (round_exact_general false P (E + -46) 52) as [m2 [c2 [HR [Hc2 Hv2]]]].
    { change (2 ^ (52 + 52)) with 20282409603651670423947251286016.
      change (2 ^ (53 + 52)) with (2 ^ 105). lia. }
    { lia. } { lia. }
    rewrite HR.
    set (T := 46 + N - cc - 52).
    assert (HT : 1 <= T) by (unfold T; lia).
    rewrite (float_floor_value m2 (E + -46 + 52 + c2) _ T c2
               ltac:(lia) ltac:(lia) Hv2 ltac:(unfold T; lia)).
    eexists. split; [ reflexivity | ].
    pose proof (Zrne_error P (2 ^ 52) ltac:(reflexivity)) as Herr2.
    set (M := Zrne P (2 ^ 52)) in *.
    set (Y := 2 ^ T).
    assert (HY : 2 <= Y).
    { unfold Y. change 2 with (2 ^ 1) at 1. apply Z.pow_le_mono_r; lia. }
    assert (HNY : 2 ^ N = Y * 2 ^ (6 + cc)).
    { unfold Y. rewrite <- Z.pow_add_r by lia. f_equal. unfold T. lia. }
    change (2 ^ 52) with 4503599627370496 in Herr2.
    assert (Hb : (Zpos pc - 1) * Y < M < (Zpos pc + 1) * Y).
    { rewrite HNY in Herr1.
      assert (Hcc' : cc = 0 \/ cc = 1) by lia.
      destruct Hcc' as [-> | ->];
        [ change (2 ^ (6 + 0)) with 64 in Herr1; change (2 ^ 0) with 1 in Herr1
        | change (2 ^ (6 + 1)) with 128 in Herr1; change (2 ^ 1) with 2 in Herr1 ];
        nia. }
    assert (Hq : Zpos pc - 1 <= M / Y < Zpos pc + 1).
    { split; [ apply Z.div_le_lower_bound | apply Z.div_lt_upper_bound ]; lia. }
    lia.
  - destruct (round_exact_general false P (E + -46) 53) as [m2 [c2 [HR [Hc2 Hv2]]]].
    { change (2 ^ (52 + 53)) with (2 ^ 105).
      change (2 ^ (53 + 53)) with 81129638414606681695789005144064. lia. }
    { lia. } { lia. }
    rewrite HR.
    set (T := 46 + N - cc - 53).
    assert (HT : 1 <= T) by (unfold T; lia).
    rewrite (float_floor_value m2 (E + -46 + 53 + c2) _ T c2
               ltac:(lia) ltac:(lia) Hv2 ltac:(unfold T; lia)).
    eexists. split; [ reflexivity | ].
    pose proof (Zrne_error P (2 ^ 53) ltac:(reflexivity)) as Herr2.
    set (M := Zrne P (2 ^ 53)) in *.
    set (Y := 2 ^ T).
    assert (HY : 2 <= Y).
    { unfold Y. change 2 with (2 ^ 1) at 1. apply Z.pow_le_mono_r; lia. }
    assert (HNY : 2 ^ N = Y * 2 ^ (7 + cc)).
    { unfold Y. rewrite <- Z.pow_add_r by lia. f_equal. unfold T. lia. }
    change (2 ^ 53) with 9007199254740992 in Herr2.
    assert (Hb : (Zpos pc - 1) * Y < M < (Zpos pc + 1) * Y).
    { rewrite HNY in Herr1.
      assert (Hcc' : cc = 0 \/ cc = 1) by lia.
      destruct Hcc' as [-> | ->];
        [ change (2 ^ (7 + 0)) with 128 in Herr1; change (2 ^ 0) with 1 in Herr1
        | change (2 ^ (7 + 1)) with 256 in Herr1; change (2 ^ 1) with 2 in Herr1 ];
        nia. }
    assert (Hq : Zpos pc - 1 <= M / Y < Zpos pc + 1).
    { split; [ apply Z.div_le_lower_bound | apply Z.div_lt_upper_bound ]; lia. }
    lia.
Qed.

(** A whole number, as a float, times 100, floored: exact. *)
Lemma whole_floor (pn : positive) :
  Zpos pn < 2 ^ 45 ->
  PyFloat.floor
    (PyFloat.mul
       (SFdiv PyFloat.prec PyFloat.emax
          (S754_finite false pn 0) (S754_finite false 1 0))
       (S754_finite false 7036874417766400 (-46))) = Return (100 * Zpos pn).
Proof.
  intros Hc45.
  assert (Hc52 : Zpos pn < 2 ^ 52)
    by (change (2 ^ 45) with 35184372088832 in Hc45;
        change (2 ^ 52) with 4503599627370496; lia).
  destruct (int_quotient_repr false false pn 1 Hc52 ltac:(reflexivity))
    as [m [E [N [cc [HS [Hcc [HE [[HN1 HN2] [HN3 [Hv Hm]]]]]]]]]].
  rewrite HS. cbn [xorb].
  change (Zdigits2 1) with 1 in *.
  pose proof (Zdigits2_bounds pn) as Hd1.
  set (d1 := Zdigits2 (Zpos pn)) in *.
  assert (Hd1' : 1 <= d1) by (unfold d1; simpl; lia).
  assert (Hd45 : d1 <= 45).
  { destruct (Z.le_gt_cases d1 45); trivial. exfalso.
    assert (2 ^ 45 <= 2 ^ (d1 - 1)) by (apply Z.pow_le_mono_r; lia). lia. }
  rewrite Zrne_one in Hv.
  unfold PyFloat.mul, SFmul. cbn [xorb].
  set (P := Zpos (m * 7036874417766400)).
  assert (HP : P = Zpos m * 7036874417766400) by reflexivity.
  change (2 ^ 52) with 4503599627370496 in Hm.
  change (2 ^ 53) with 9007199254740992 in Hm.
  destruct (Z.lt_ge_cases P (2 ^ 105)) as [H105 | H105].
  - destruct (round_exact_general false P (E + -46) 52) as [m2 [c2 [HR [Hc2 Hv2]]]].
    { change (2 ^ (52 + 52)) with 20282409603651670423947251286016.
      change (2 ^ (53 + 52)) with (2 ^ 105). lia. }
    { lia. } { lia. }
    rewrite HR.
    set (T := 46 + N - cc - 52).
    assert (HT : 0 <= T) by (unfold T; lia).
    rewrite (float_floor_value m2 (E + -46 + 52 + c2) _ T c2
               ltac:(lia) ltac:(lia) Hv2 ltac:(unfold T; lia)).
    f_equal.
    set (Y := 2 ^ T).
    assert (HY : 0 < Y) by (apply Z.pow_pos_nonneg; lia).
    assert (HNY : 2 ^ N = Y * 2 ^ (6 + cc)).
    { unfold Y. rewrite <- Z.pow_add_r by lia. f_equal. unfold T. lia. }
    assert (HPe : P = 2 ^ 52 * (100 * Zpos pn * Y)).
    { rewrite HNY in Hv. change (2 ^ 52) with 4503599627370496.
      assert (Hcc' : cc = 0 \/ cc = 1) by lia.
      destruct Hcc' as [-> | ->];
        [ change (2 ^ (6 + 0)) with 64 in Hv; change (2 ^ 0) with 1 in Hv
        | change (2 ^ (6 + 1)) with 128 in Hv; change (2 ^ 1) with 2 in Hv ];
        nia. }
    rewrite HPe, Zrne_exact by reflexivity.
    apply Z.div_mul. lia.
  - destruct (round_exact_general false P (E + -46) 53) as [m2 [c2 [HR [Hc2 Hv2]]]].
    { change (2 ^ (52 + 53)) with (2 ^ 105).
      change (2 ^ (53 + 53)) with 81129638414606681695789005144064. lia. }
    { lia. } { lia. }
    rewrite HR.
    set (T := 46 + N - cc - 53).
    assert (HT : 0 <= T).
    { (* 106 bits need a mantissa above 2^53 * 2^52 / (25 * 2^48) *)
      unfold T. destruct (Z.le_gt_cases 53 (46 + N - cc)); [ lia | exfalso ].
      assert (HNc : N - cc = 53 - d1 - 1) by lia.
      assert (Hcc' : cc = 0 \/ cc = 1) by lia.
      assert (Hpow : 2 ^ N * 2 ^ d1 = 2 ^ (52 + cc)).
      { rewrite <- Z.pow_add_r by lia. f_equal. lia. }
      assert (Hpd : 0 < 2 ^ d1) by (apply Z.pow_pos_nonneg; lia).
      assert (HpN : 0 < 2 ^ N) by (apply Z.pow_pos_nonneg; lia).
      change (2 ^ 105) with 40564819207303340847894502572032 in H105.
      destruct Hcc' as [-> | ->];
        [ change (2 ^ 0) with 1 in Hv; change (2 ^ (52 + 0)) with 4503599627370496 in Hpow
        | change (2 ^ 1) with 2 in Hv; change (2 ^ (52 + 1)) with 9007199254740992 in Hpow ];
        nia. }
    rewrite (float_floor_value m2 (E + -46 + 53 + c2) _ T c2
               ltac:(lia) ltac:(lia) Hv2 ltac:(unfold T; lia)).
    f_equal.
    set (Y := 2 ^ T).
    assert (HY : 0 < Y) by (apply Z.pow_pos_nonneg; lia).
    assert (HNY : 2 ^ N = Y * 2 ^ (7 + cc)).
    { unfold Y. rewrite <- Z.pow_add_r by lia. f_equal. unfold T. lia. }
    assert (HPe : P = 2 ^ 53 * (100 * Zpos pn * Y)).
    { rewrite HNY in Hv. change (2 ^ 53) with 9007199254740992.
      assert (Hcc' : cc = 0 \/ cc = 1) by lia.
      destruct Hcc' as [-> | ->];
        [ change (2 ^ (7 + 0)) with 128 in Hv; change (2 ^ 0) with 1 in Hv
        | change (2 ^ (7 + 1)) with 256 in Hv; change (2 ^ 1) with 2 in Hv ];
        nia. }
    rewrite HPe, Zrne_exact by reflexivity.
    apply Z.div_mul. lia.
Qed.

(** ** Exact products and quotients of floats *)

Lemma Zdigits2_shift Q S :
  0 < Q -> 0 <= S -> Zdigits2 (Q * 2 ^ S) = Zdigits2 Q + S.
Proof.
  intros HQ HS.
  destruct Q as [ | q | q ]; try lia.
  pose proof (Zdigits2_bounds q) as Hb.
  assert (Hd : 1 <= Zdigits2 (Zpos q)) by (simpl; lia).
  set (d := Zdigits2 (Zpos q)) in *.
  apply Zdigits2_unique; [ lia | ].
  replace (d + S - 1) with (d - 1 + S) by lia.
  rewrite !Z.pow_add_r by lia.
  assert (0 < 2 ^ S) by (apply Z.pow_pos_nonneg; lia).
  nia.
Qed.

(** A mantissa [Q * 2^S] at the exponent [e] whose value [Q * 2^(e + S)]
    is a float (at most 53 bits in [Q], an exponent not below -1074)
    rounds to exactly that value. *)
Lemma binary_round_aux_exact s Q S e :
  0 < Q < 2 ^ 53 -> 0 <= S -> -1074 <= e + S <= 971 ->
  exists M E,
    binary_round_aux PyFloat.prec PyFloat.emax s (Q * 2 ^ S) e loc_Exact
      = S754_finite s M E /\
    e <= E <= e + S /\ Zpos M * 2 ^ (E - e) = Q * 2 ^ S.
Proof.
  intros HQ HS He.
  assert (H2 : forall t, 0 <= t -> 0 < 2 ^ t)
    by (intros t Ht; apply Z.pow_pos_nonneg; lia).
  pose proof (H2 S HS) as HpS.
  assert (HdQ : 1 <= Zdigits2 Q <= 53).
  { destruct Q as [ | q | q ]; try lia.
    pose proof (Zdigits2_bounds q) as Hb. split; [ simpl; lia | ].
    destruct (Z.le_gt_cases (Zdigits2 (Zpos q)) 53); trivial. exfalso.
    assert (2 ^ 53 <= 2 ^ (Zdigits2 (Zpos q) - 1))
      by (apply Z.pow_le_mono_r; lia). lia. }
  pose proof (Zdigits2_shift Q S ltac:(lia) HS) as Hd.
  set (P := Q * 2 ^ S) in *.
  assert (HP : 0 < P) by (unfold P; nia).
  assert (HPdef : P = Q * 2 ^ S) by reflexivity.
  clearbody P.
  assert (Hfexp : forall d x,
             fexp PyFloat.prec PyFloat.emax (d + x) - x
             = Z.max (d - 53) (-1074 - x))
    by (intros; unfold fexp, emin, PyFloat.prec, PyFloat.emax; lia).
  unfold binary_round_aux. unfold shr_fexp at 1.
  rewrite Hfexp, Hd. cbn [shr_record_of_loc].
  set (k := Z.max (Zdigits2 Q + S - 53) (-1074 - e)).
  assert (Hk : k <= S) by (unfold k; lia).
  destruct k as [ | pk | pk ] eqn:Hkk; cbn [shr].
  - (* no shift *)
    cbn [shr_m loc_of_shr_record round_nearest_even].
    unfold shr_fexp. rewrite Hfexp, Hd. fold k. rewrite Hkk.
    cbn [shr_record_of_loc shr shr_m].
    destruct P as [ | p | p ] eqn:HPp; try lia.
    replace (e <=? PyFloat.emax - PyFloat.prec) with true
      by (symmetry; apply Z.leb_le; unfold PyFloat.emax, PyFloat.prec; lia).
    exists p, e. repeat split; try lia.
    replace (e - e) with 0 by lia. change (2 ^ 0) with 1. lia.
  - (* a shift by [pk] bits, all of them zero *)
    rewrite (round_shifted P pk ltac:(lia)).
    assert (HPk : P = 2 ^ Zpos pk * (Q * 2 ^ (S - Zpos pk))).
    { rewrite HPdef. replace S with (Zpos pk + (S - Zpos pk)) at 1 by lia.
      rewrite Z.pow_add_r by lia. ring. }
    replace (Zrne P (2 ^ Zpos pk)) with (Q * 2 ^ (S - Zpos pk))
      by (rewrite HPk; symmetry; apply Zrne_exact; apply H2; lia).
    assert (HdM : Zdigits2 (Q * 2 ^ (S - Zpos pk)) = Zdigits2 Q + (S - Zpos pk))
      by (apply Zdigits2_shift; lia).
    remember (Q * 2 ^ (S - Zpos pk)) as M eqn:HMdef.
    assert (HM : 0 < M) by (pose proof (H2 (S - Zpos pk)); nia).
    unfold shr_fexp. rewrite Hfexp, HdM.
    replace (Z.max (Zdigits2 Q + (S - Zpos pk) - 53) (-1074 - (e + Zpos pk)))
      with 0 by (unfold k in Hkk; lia).
    cbn [shr_record_of_loc shr shr_m].
    destruct M as [ | p | p ]; try lia.
    replace (e + Zpos pk <=? PyFloat.emax - PyFloat.prec) with true
      by (symmetry; apply Z.leb_le; unfold PyFloat.emax, PyFloat.prec; lia).
    exists p, (e + Zpos pk). repeat split; try lia.
    replace (e + Zpos pk - e) with (Zpos pk) by lia.
    rewrite HPk. ring.
  - (* a negative difference: no shift *)
    cbn [shr_m loc_of_shr_record round_nearest_even].
    unfold shr_fexp. rewrite Hfexp, Hd. fold k. rewrite Hkk.
    cbn [shr_record_of_loc shr shr_m].
    destruct P as [ | p | p ] eqn:HPp; try lia.
    replace (e <=? PyFloat.emax - PyFloat.prec) with true
      by (symmetry; apply Z.leb_le; unfold PyFloat.emax, PyFloat.prec; lia).
    exists p, e. repeat split; try lia.
    replace (e - e) with 0 by lia. change (2 ^ 0) with 1. lia.
Qed.

(** A mantissa of exactly 53 bits in the exponent range is kept as it is. *)
Lemma binary_round_aux_canonical s (m : positive) e :
  2 ^ 52 <= Zpos m < 2 ^ 53 -> -1074 <= e <= 971 ->
  binary_round_aux PyFloat.prec PyFloat.emax s (Zpos m) e loc_Exact
    = S754_finite s m e.
Proof.
  intros Hm He. unfold binary_round_aux.
  assert (Hs : shr_fexp PyFloat.prec PyFloat.emax (Zpos m) e loc_Exact
               = (Build_shr_record (Zpos m) false false, e)).
  { unfold shr_fexp.
    rewrite (Zdigits2_unique (Zpos m) 53) by (simpl; lia).
    rewrite fexp_normal by lia.
    replace (Z.max (53 - 53) (-1074 - e)) with 0 by lia.
    replace (e + 0) with e by lia. reflexivity. }
  rewrite Hs. cbn [shr_m loc_of_shr_record round_nearest_even].
  rewrite Hs. cbn [shr_m].
  replace (e <=? PyFloat.emax - PyFloat.prec) with true
    by (symmetry; apply Z.leb_le; unfold PyFloat.emax, PyFloat.prec; lia).
  reflexivity.
Qed.

Lemma iter_xO_shift (d a : positive) :
  Zpos (Pos.iter xO a d) = Zpos a * 2 ^ Zpos d.
Proof.
  induction d as [ | d IH ] using Pos.peano_ind.
  - cbn [Pos.iter]. change (2 ^ 1) with 2. lia.
  - rewrite Pos.iter_succ, Pos2Z.inj_xO, IH, Pos2Z.inj_succ, Z.pow_succ_r by lia.
    ring.
Qed.

(** [float(n)] for an int of at most 53 bits: the mantissa is [n] shifted
    to 53 bits, the value is [n]. *)
Lemma of_int_repr s (a : positive) :
  Zpos a < 2 ^ 53 ->
  exists m N,
    binary_round PyFloat.prec PyFloat.emax s a 0 = S754_finite s m (- N) /\
    0 <= N <= 52 /\ Zpos m = Zpos a * 2 ^ N /\ 2 ^ 52 <= Zpos m < 2 ^ 53.
Proof.
  intros Ha.
  pose proof (Zdigits2_bounds a) as Hd.
  change (Zdigits2 (Zpos a)) with (Zpos (digits2_pos a)) in Hd.
  unfold binary_round, shl_align.
  set (d := Zpos (digits2_pos a)) in *.
  assert (Hd53 : d <= 53).
  { destruct (Z.le_gt_cases d 53); trivial. exfalso.
    assert (2 ^ 53 <= 2 ^ (d - 1)) by (apply Z.pow_le_mono_r; lia). lia. }
  assert (Hf : fexp PyFloat.prec PyFloat.emax (d + 0) - 0 = d - 53)
    by (unfold fexp, emin, PyFloat.prec, PyFloat.emax; lia).
  rewrite Hf.
  assert (Hf' : fexp PyFloat.prec PyFloat.emax (d + 0) = d - 53) by lia.
  destruct (d - 53) as [ | p | p ] eqn:Hp; try lia.
  - exists a, 0. rewrite binary_round_aux_canonical.
    + repeat split; try lia.
      replace (d - 1) with 52 in Hd by lia. lia.
    + replace (d - 1) with 52 in Hd by lia. lia.
    + lia.
  - rewrite Hf'.
    assert (Hm : Zpos (Pos.iter xO a p) = Zpos a * 2 ^ Zpos p)
      by apply iter_xO_shift.
    assert (Hb : 2 ^ 52 <= Zpos (Pos.iter xO a p) < 2 ^ 53).
    { rewrite Hm.
      replace 52 with (d - 1 + Zpos p) by lia.
      replace 53 with (d + Zpos p) by lia.
      rewrite !Z.pow_add_r by lia.
      assert (0 < 2 ^ Zpos p) by (apply Z.pow_pos_nonneg; lia).
      nia. }
    exists (Pos.iter xO a p), (Zpos p).
    rewrite binary_round_aux_canonical by lia.
    repeat split; lia.
Qed.

(** The product of two floats with 53-bit mantissas. *)
Lemma mul_canonical sx mx ex sy my ey :
  2 ^ 52 <= Zpos mx < 2 ^ 53 -> 2 ^ 52 <= Zpos my < 2 ^ 53 ->
  -1074 <= ex + ey -> ex + ey <= 900 ->
  exists m c k,
    PyFloat.mul (S754_finite sx mx ex) (S754_finite sy my ey)
      = S754_finite (xorb sx sy) m (ex + ey + k + c) /\
    0 <= c <= 1 /\ 52 <= k <= 53 /\
    2 ^ (52 + k) <= Zpos mx * Zpos my < 2 ^ (53 + k) /\
    Zpos m * 2 ^ c = Zrne (Zpos mx * Zpos my) (2 ^ k).
Proof.
  intros Hx Hy He1 He2.
  unfold PyFloat.mul, SFmul.
  change (Zpos (mx * my)) with (Zpos mx * Zpos my).
  set (P := Zpos mx * Zpos my).
  change (2 ^ 52) with 4503599627370496 in Hx, Hy.
  change (2 ^ 53) with 9007199254740992 in Hx, Hy.
  assert (HP : 2 ^ 104 <= P < 2 ^ 106).
  { change (2 ^ 104) with (4503599627370496 * 4503599627370496).
    change (2 ^ 106) with (9007199254740992 * 9007199254740992).
    unfold P. nia. }
  destruct (Z.lt_ge_cases P (2 ^ 105)) as [H105 | H105].
  - destruct (round_exact_general (xorb sx sy) P (ex + ey) 52)
      as [m [c [HR [Hc Hv]]]].
    { change (52 + 52) with 104. change (53 + 52) with 105. lia. }
    { lia. } { lia. }
    exists m, c, 52. repeat split; try lia; trivial.
  - destruct (round_exact_general (xorb sx sy) P (ex + ey) 53)
      as [m [c [HR [Hc Hv]]]].
    { change (52 + 53) with 105. change (53 + 53) with 106. lia. }
    { lia. } { lia. }
    exists m, c, 53. repeat split; try lia; trivial.
Qed.

(** When the exact product [Q / 2^T] of two floats is a float, [round]
    of the float product is the half-even rounding of [Q / 2^T]. *)
Lemma round_mul_general sx mx ex sy my ey Q S T :
  Zpos mx * Zpos my = Q * 2 ^ S -> Q < 2 ^ 53 ->
  0 <= S -> 0 <= T <= 1074 -> ex + ey + S = - T ->
  PyFloat.round (PyFloat.mul (S754_finite sx mx ex) (S754_finite sy my ey))
    = Return (cond_Zopp (xorb sx sy) (Zrne Q (2 ^ T))).
Proof.
  intros HP HQ HS HT HST.
  assert (H2 : forall t, 0 <= t -> 0 < 2 ^ t)
    by (intros t Ht; apply Z.pow_pos_nonneg; lia).
  assert (HQ0 : 0 < Q) by (pose proof (H2 S HS); nia).
  unfold PyFloat.mul, SFmul.
  change (Zpos (mx * my)) with (Zpos mx * Zpos my). rewrite HP.
  destruct (binary_round_aux_exact (xorb sx sy) Q S (ex + ey)
              ltac:(lia) HS ltac:(lia))
    as [m [E [-> [HE Hv]]]].
  rewrite (float_round_value (xorb sx sy) m E (Zpos m) (- E) 0) by lia.
  f_equal. f_equal.
  replace S with ((- T - E) + (E - (ex + ey))) in Hv by lia.
  rewrite Z.pow_add_r, Z.mul_assoc in Hv by lia.
  apply Z.mul_cancel_r in Hv;
    [ | pose proof (H2 (E - (ex + ey)) ltac:(lia)); lia ].
  rewrite Hv.
  replace (- E) with ((- T - E) + T) by lia.
  rewrite Z.pow_add_r by lia.
  rewrite (Z.mul_comm Q).
  apply Zrne_scale; apply H2; lia.
Qed.

Lemma of_int_signed s (a : positive) :
  Zpos a < 2 ^ 53 ->
  exists m N,
    PyFloat.of_int (cond_Zopp s (Zpos a)) = Return (S754_finite s m (- N)) /\
    0 <= N <= 52 /\ Zpos m = Zpos a * 2 ^ N /\ 2 ^ 52 <= Zpos m < 2 ^ 53.
Proof.
  intros Ha. destruct (of_int_repr s a Ha) as [m [N [HR H]]].
  exists m, N. split; trivial.
  unfold PyFloat.of_int.
  destruct s; cbn [cond_Zopp Z.opp binary_normalize]; rewrite HR; reflexivity.
Qed.

Lemma Zrne_zero d : 0 < d -> Zrne 0 d = 0.
Proof. intros Hd. replace 0 with (d * 0) at 1 by lia. now apply Zrne_exact. Qed.

(** The float of the dyadic fraction [J / 2^T], down to the smallest
    subnormal exponent: its value is exactly [J / 2^T]. *)
Lemma dyadic_value s (J : positive) T :
  Zpos J < 2 ^ 53 -> 0 <= T <= 1074 ->
  exists m N,
    PyFloat.nearest_quotient (cond_Zopp s (Zpos J)) (2 ^ T)
      = S754_finite s m (- N) /\
    T <= N <= 1074 /\ Zpos m = Zpos J * 2 ^ (N - T).
Proof.
  intros HJ HT.
  assert (H2 : forall t, 0 <= t -> 0 < 2 ^ t)
    by (intros t Ht; apply Z.pow_pos_nonneg; lia).
  pose proof (H2 T ltac:(lia)) as HpT.
  destruct (2 ^ T) as [ | k | k ] eqn:Hk; try lia.
  assert (Hdk : Zdigits2 (Zpos k) = T + 1).
  { apply Zdigits2_unique; try lia.
    replace (T + 1 - 1) with T by lia. rewrite <- Hk.
    split; [ lia | apply Z.pow_lt_mono_r; lia ]. }
  pose proof (Zdigits2_bounds J) as HdJ.
  assert (HdJ1 : 1 <= Zdigits2 (Zpos J)) by (simpl; lia).
  assert (HdJ2 : Zdigits2 (Zpos J) <= 53).
  { destruct (Z.le_gt_cases (Zdigits2 (Zpos J)) 53); trivial. exfalso.
    assert (2 ^ 53 <= 2 ^ (Zdigits2 (Zpos J) - 1))
      by (apply Z.pow_le_mono_r; lia). lia. }
  set (d1 := Zdigits2 (Zpos J)) in *.
  remember (Z.min (T + 54 - d1) 1074) as sft eqn:Hsdef.
  assert (Hsft : T <= sft <= 1074) by lia.
  assert (Hsft1 : 1 <= sft) by lia.
  assert (Hq : SFdiv PyFloat.prec PyFloat.emax
                 (S754_finite s J 0) (S754_finite false k 0)
               = binary_round_aux PyFloat.prec PyFloat.emax s
                   (Zpos J * 2 ^ (sft - T)) (- sft) loc_Exact).
  { unfold SFdiv, SFdiv_core_binary. fold d1. rewrite Hdk.
    replace (Z.min (fexp PyFloat.prec PyFloat.emax (d1 + 0 - (T + 1 + 0)))
                   (0 - 0)) with (- sft)
      by (unfold fexp, emin, PyFloat.prec, PyFloat.emax; lia).
    replace (0 - 0 - - sft) with sft by lia.
    assert (Hs : match sft with
                 | 0 => Zpos J
                 | Zpos _ => Z.shiftl (Zpos J) sft
                 | Zneg _ => 0
                 end = Zpos J * 2 ^ sft).
    { destruct sft eqn:Hsd; try lia.
      rewrite <- Hsd. apply Z.shiftl_mul_pow2. lia. }
    rewrite Hs. clear Hs.
    rewrite div_eucl_div_mod.
    assert (Hn : Zpos J * 2 ^ sft = Zpos J * 2 ^ (sft - T) * Zpos k).
    { rewrite <- Hk, <- Z.mul_assoc, <- Z.pow_add_r by lia.
      do 2 f_equal. lia. }
    rewrite Hn, Z.div_mul, Z.mod_mul by lia.
    rewrite xorb_false_r.
    replace (new_location (Zpos k) 0) with loc_Exact
      by (symmetry; apply new_location_exact; lia).
    reflexivity. }
  destruct (binary_round_aux_exact s (Zpos J) (sft - T) (- sft)
              ltac:(lia) ltac:(lia) ltac:(lia))
    as [m [E [HR [HE Hv]]]].
  exists m, (- E).
  replace (- - E) with E by lia.
  split.
  - unfold PyFloat.nearest_quotient.
    destruct s; cbn [cond_Zopp Z.opp Z.abs Z.to_pos Z.ltb Z.compare];
      rewrite Hq, HR; reflexivity.
  - split; [ lia | ].
    replace (sft - T) with ((- E - T) + (E - - sft)) in Hv by lia.
    rewrite Z.pow_add_r, Z.mul_assoc in Hv by lia.
    apply Z.mul_cancel_r in Hv; [ exact Hv | ].
    pose proof (H2 (E - - sft) ltac:(lia)). lia.
Qed.

(** An int times a dyadic float, rounded: exact when the product of the
    two numerators fits in 53 bits. *)
Lemma mul_dyadic_signed sa sj (a J : positive) T :
  Zpos a * Zpos J < 2 ^ 53 -> 0 <= T <= 1074 ->
  (x <- PyFloat.of_int (cond_Zopp sa (Zpos a)) ;;
   PyFloat.round
     (PyFloat.mul x (PyFloat.nearest_quotient (cond_Zopp sj (Zpos J)) (2 ^ T))))
  = Return (cond_Zopp (xorb sa sj) (Zrne (Zpos a * Zpos J) (2 ^ T))).
Proof.
  intros HaJ HT.
  assert (Ha : Zpos a < 2 ^ 53) by nia.
  assert (HJ : Zpos J < 2 ^ 53) by nia.
  destruct (of_int_signed sa a Ha) as [mx [Nx [-> [HNx [Hmx Hbx]]]]].
  destruct (dyadic_value sj J T HJ HT) as [my [Ny [-> [HNy Hmy]]]].
  cbn [bind].
  apply (round_mul_general sa mx (- Nx) sj my (- Ny) (Zpos a * Zpos J)
           (Nx + (Ny - T)) T); try lia.
  rewrite Hmx, Hmy, Z.pow_add_r by lia. ring.
Qed.

Lemma mul_int_signed sa sj (a j : positive) :
  Zpos a * Zpos j < 2 ^ 53 ->
  (x <- PyFloat.of_int (cond_Zopp sa (Zpos a)) ;;
   y <- PyFloat.of_int (cond_Zopp sj (Zpos j)) ;;
   PyFloat.round (PyFloat.mul x y))
  = Return (cond_Zopp (xorb sa sj) (Zpos a * Zpos j)).
Proof.
  intros Haj.
  assert (Ha : Zpos a < 2 ^ 53) by nia.
  assert (Hj : Zpos j < 2 ^ 53) by nia.
  destruct (of_int_signed sa a Ha) as [mx [Nx [-> [HNx [Hmx Hbx]]]]].
  destruct (of_int_signed sj j Hj) as [my [Ny [-> [HNy [Hmy Hby]]]]].
  cbn [bind].
  rewrite (round_mul_general sa mx (- Nx) sj my (- Ny) (Zpos a * Zpos j)
           (Nx + Ny) 0); try lia.
  - change (2 ^ 0) with 1. now rewrite Zrne_one.
  - rewrite Hmx, Hmy, Z.pow_add_r by lia. ring.
Qed.

(** [math.floor] on a finite float of either sign whose value is
    [M / 2^T]. *)
Lemma float_floor_signed s m E M T c :
  0 <= c -> 0 <= T -> Zpos m * 2 ^ c = M -> E = c - T ->
  PyFloat.floor (S754_finite s m E) = Return (cond_Zopp s M / 2 ^ T).
Proof.
  intros Hc HT HM HE. unfold PyFloat.floor, PyFloat.to_fraction.
  assert (H2 : forall t, 0 <= t -> 0 < 2 ^ t)
    by (intros t Ht; apply Z.pow_pos_nonneg; lia).
  assert (Hopp : forall u v, cond_Zopp s (u * v) = cond_Zopp s u * v)
    by (intros u v; destruct s; cbn [cond_Zopp]; ring).
  destruct E as [ | p | p ]; f_equal.
  - change (2 ^ 0) with 1. rewrite Z.mul_1_r, Z.div_1_r.
    assert (c = T) by lia. subst c. subst M.
    rewrite Hopp. symmetry. apply Z.div_mul. pose proof (H2 T HT). lia.
  - rewrite Z.div_1_r.
    assert (Hcn : c = Zpos p + T) by lia.
    subst M. rewrite Hcn, Z.pow_add_r by lia.
    rewrite Z.mul_assoc, Hopp, Hopp. symmetry. apply Z.div_mul.
    pose proof (H2 T HT). lia.
  - rewrite Z.pow_pos_fold.
    assert (HNc : T = Zpos p + c) by lia.
    subst M. rewrite HNc, Z.pow_add_r by lia.
    rewrite Hopp.
    symmetry. apply Z.div_mul_cancel_r;
      [ pose proof (H2 (Zpos p)); lia | pose proof (H2 c Hc); lia ].
Qed.

(** In the same case [math.floor] of the float product is the floor of
    [Q / 2^T]. *)
Lemma floor_mul_general sx mx ex sy my ey Q S T :
  Zpos mx * Zpos my = Q * 2 ^ S -> Q < 2 ^ 53 ->
  0 <= S -> 0 <= T <= 1074 -> ex + ey + S = - T ->
  PyFloat.floor (PyFloat.mul (S754_finite sx mx ex) (S754_finite sy my ey))
    = Return (cond_Zopp (xorb sx sy) Q / 2 ^ T).
Proof.
  intros HP HQ HS HT HST.
  assert (H2 : forall t, 0 <= t -> 0 < 2 ^ t)
    by (intros t Ht; apply Z.pow_pos_nonneg; lia).
  assert (HQ0 : 0 < Q) by (pose proof (H2 S HS); nia).
  unfold PyFloat.mul, SFmul.
  change (Zpos (mx * my)) with (Zpos mx * Zpos my). rewrite HP.
  destruct (binary_round_aux_exact (xorb sx sy) Q S (ex + ey)
              ltac:(lia) HS ltac:(lia))
    as [m [E [-> [HE Hv]]]].
  rewrite (float_floor_signed (xorb sx sy) m E (Zpos m) (- E) 0) by lia.
  f_equal.
  replace S with ((- T - E) + (E - (ex + ey))) in Hv by lia.
  rewrite Z.pow_add_r, Z.mul_assoc in Hv by lia.
  apply Z.mul_cancel_r in Hv;
    [ | pose proof (H2 (E - (ex + ey)) ltac:(lia)); lia ].
  rewrite Hv.
  replace (- E) with (T + (- T - E)) by lia.
  rewrite Z.pow_add_r by lia.
  assert (Hopp : cond_Zopp (xorb sx sy) (Q * 2 ^ (- T - E))
                 = cond_Zopp (xorb sx sy) Q * 2 ^ (- T - E))
    by (destruct (xorb sx sy); cbn [cond_Zopp]; ring).
  rewrite Hopp.
  apply Z.div_mul_cancel_r;
    pose proof (H2 T ltac:(lia)); pose proof (H2 (- T - E) ltac:(lia)); lia.
Qed.

Lemma cond_Zopp_abs (z : Z) :
  z <> 0 -> exists s p, z = cond_Zopp s (Zpos p) /\ Z.abs z = Zpos p.
Proof.
  destruct z as [ | p | p ]; intros Hz; try contradiction.
  - exists false, p. split; reflexivity.
  - exists true, p. split; reflexivity.
Qed.

Lemma cond_Zopp_xorb sa sj u v :
  cond_Zopp sa u * cond_Zopp sj v = cond_Zopp (xorb sa sj) (u * v).
Proof. destruct sa, sj; cbn [cond_Zopp xorb]; ring. Qed.

Lemma of_int_zero : PyFloat.of_int 0 = Return (S754_zero false).
Proof. reflexivity. Qed.

Lemma half_even_floor a k :
  k <> 0 ->
  a / k <= half_even_quotient a k <= a / k + 1 /\
  (a mod k = 0 -> half_even_quotient a k = a / k).
Proof.
  intros Hk. unfold half_even_quotient.
  assert (Hd : (Z.sgn k * a) / Z.abs k = a / k).
  { destruct (Z.lt_trichotomy k 0) as [H | [H | H]]; try lia.
    - rewrite (Z.sgn_neg k H), (Z.abs_neq k) by lia.
      replace (-1 * a) with (- a) by lia. apply Z.div_opp_opp. lia.
    - rewrite (Z.sgn_pos k H), (Z.abs_eq k) by lia.
      now rewrite Z.mul_1_l. }
  split.
  - rewrite <- Hd. apply Zrne_div_bounds. lia.
  - intros Hm. rewrite <- Hd.
    apply Z.mod_divide in Hm; trivial. destruct Hm as [t ->].
    replace (Z.sgn k * (t * k)) with (Z.abs k * t)
      by (rewrite <- Z.sgn_abs; ring).
    rewrite Zrne_exact by lia.
    rewrite Z.mul_comm, Z.div_mul by lia. reflexivity.
Qed.

(** The location of a remainder, whatever the parity of the divisor. *)
Lemma new_location_spec D r :
  0 < D -> 0 <= r < D ->
  new_location D r
    = if r =? 0 then loc_Exact else loc_Inexact (2 * r ?= D).
Proof.
  intros HD Hr. unfold new_location.
  destruct (Z.even D) eqn:He; unfold new_location_even, new_location_odd.
  - reflexivity.
  - destruct (Z.eqb_spec r 0) as [ | Hr0 ]; trivial.
    assert (Ho : Z.odd D = true) by (rewrite <- Z.negb_even, He; reflexivity).
    apply Z.odd_spec in Ho. destruct Ho as [t Ht].
    f_equal.
    destruct (Z.compare_spec (2 * r + 1) D), (Z.compare_spec (2 * r) D);
      trivial; lia.
Qed.

Lemma new_location_scale D r t :
  0 < t -> 0 < D -> 0 <= r < D ->
  new_location (D * t) (r * t) = new_location D r.
Proof.
  intros Ht HD Hr.
  rewrite !new_location_spec by nia.
  destruct (Z.eqb_spec r 0) as [-> | Hr0].
  - reflexivity.
  - destruct (Z.eqb_spec (r * t) 0) as [H0 | _]; [ nia | ].
    f_equal. replace (2 * (r * t)) with (2 * r * t) by ring.
    symmetry. apply Zmult_compare_compat_r. lia.
Qed.

Lemma digits_of_shifted (a m : positive) N :
  0 <= N <= 52 -> Zpos m = Zpos a * 2 ^ N -> 2 ^ 52 <= Zpos m < 2 ^ 53 ->
  Zdigits2 (Zpos a) = 53 - N.
Proof.
  intros HN Hm Hb. apply Zdigits2_unique; [ lia | ].
  rewrite Hm in Hb.
  replace 52 with ((53 - N - 1) + N) in Hb by lia.
  replace 53 with ((53 - N) + N) in Hb at 2 by lia.
  rewrite !Z.pow_add_r in Hb by lia.
  assert (0 < 2 ^ N) by (apply Z.pow_pos_nonneg; lia).
  assert (0 < 2 ^ (53 - N - 1)) by (apply Z.pow_pos_nonneg; lia).
  assert (0 < 2 ^ (53 - N)) by (apply Z.pow_pos_nonneg; lia).
  nia.
Qed.

(** Dividing the floats of two ints of at most 53 bits gives what the
    true division of the two ints gives. *)
Lemma SFdiv_of_ints sx sy (a k mx my : positive) Nx Ny :
  0 <= Nx <= 52 -> Zpos mx = Zpos a * 2 ^ Nx -> 2 ^ 52 <= Zpos mx < 2 ^ 53 ->
  0 <= Ny <= 52 -> Zpos my = Zpos k * 2 ^ Ny -> 2 ^ 52 <= Zpos my < 2 ^ 53 ->
  SFdiv PyFloat.prec PyFloat.emax
    (S754_finite sx mx (- Nx)) (S754_finite sy my (- Ny))
  = SFdiv PyFloat.prec PyFloat.emax
      (S754_finite sx a 0) (S754_finite sy k 0).
Proof.
  intros HNx Hmx Hbx HNy Hmy Hby.
  pose proof (digits_of_shifted a mx Nx HNx Hmx Hbx) as Hda.
  pose proof (digits_of_shifted k my Ny HNy Hmy Hby) as Hdk.
  assert (H2 : forall t, 0 <= t -> 0 < 2 ^ t)
    by (intros t Ht; apply Z.pow_pos_nonneg; lia).
  unfold SFdiv, SFdiv_core_binary.
  rewrite Hda, Hdk.
  rewrite (Zdigits2_unique (Zpos mx) 53), (Zdigits2_unique (Zpos my) 53)
    by (simpl; lia).
  replace (Z.min (fexp PyFloat.prec PyFloat.emax (53 + - Nx - (53 + - Ny)))
                 (- Nx - - Ny)) with (Ny - Nx - 53)
    by (unfold fexp, emin, PyFloat.prec, PyFloat.emax; lia).
  replace (Z.min (fexp PyFloat.prec PyFloat.emax (53 - Nx + 0 - (53 - Ny + 0)))
                 (0 - 0)) with (Ny - Nx - 53)
    by (unfold fexp, emin, PyFloat.prec, PyFloat.emax; lia).
  replace (- Nx - - Ny - (Ny - Nx - 53)) with 53 by lia.
  replace (0 - 0 - (Ny - Nx - 53)) with (53 + Nx - Ny) by lia.
  assert (Hs : match 53 + Nx - Ny with
               | 0 => Zpos a
               | Zpos _ => Z.shiftl (Zpos a) (53 + Nx - Ny)
               | Zneg _ => 0
               end = Zpos a * 2 ^ (53 + Nx - Ny)).
  { destruct (53 + Nx - Ny) eqn:Hsd; try lia. rewrite <- Hsd.
    apply Z.shiftl_mul_pow2. lia. }
  rewrite Hs. clear Hs.
  rewrite Z.shiftl_mul_pow2 by lia.
  rewrite !div_eucl_div_mod.
  set (n := Zpos a * 2 ^ (53 + Nx - Ny)).
  set (t := 2 ^ Ny).
  assert (Ht : 0 < t) by (apply H2; lia).
  assert (Hn : Zpos mx * 2 ^ 53 = n * t).
  { unfold n, t. rewrite Hmx, <- !Z.mul_assoc, <- !Z.pow_add_r by lia.
    do 2 f_equal. lia. }
  rewrite Hn, Hmy. fold t.
  rewrite Z.div_mul_cancel_r by lia.
  rewrite Zmult_mod_distr_r.
  rewrite new_location_scale; trivial; try lia.
  apply Z.mod_pos_bound. lia.
Qed.



Lemma div_of_ints_signed sa sj (a j : positive) :
  Zpos a < 2 ^ 53 -> Zpos j < 2 ^ 53 ->
  exists x y,
    PyFloat.of_int (cond_Zopp sa (Zpos a)) = Return x /\
    PyFloat.of_int (cond_Zopp sj (Zpos j)) = Return y /\
    PyFloat.div x y
      = PyFloat.int_truediv (cond_Zopp sa (Zpos a)) (cond_Zopp sj (Zpos j)).
Proof.
  intros Ha Hj.
  destruct (of_int_signed sa a Ha) as [mx [Nx [Hx [HNx [Hmx Hbx]]]]].
  destruct (of_int_signed sj j Hj) as [my [Ny [Hy [HNy [Hmy Hby]]]]].
  exists (S754_finite sa mx (- Nx)), (S754_finite sj my (- Ny)).
  repeat split; trivial.
  unfold PyFloat.div, PyFloat.int_truediv, PyFloat.nearest_quotient.
  cbn [PyFloat.is_zero].
  rewrite (SFdiv_of_ints sa sj a j mx my Nx Ny) by trivial.
  assert (Hj' : Zpos j < 2 ^ 1000).
  { apply Z.lt_trans with (1 := Hj). apply Z.pow_lt_mono_r; lia. }
  destruct (int_quotient_shape sa sj a j Ha Hj') as [m [E [_ [_ [HS _]]]]].
  destruct sa, sj; cbn [cond_Zopp Z.opp Z.eqb Z.abs Z.to_pos Z.ltb Z.compare];
    rewrite HS; reflexivity.
Qed.

(** The float nearest to [a / 100] has [a] as its nearest number of
    hundredths. *)
Lemma round_ndigits_quotient_100 s (a : positive) :
  Zpos a < 2 ^ 52 ->
  exists m E,
    SFdiv PyFloat.prec PyFloat.emax (S754_finite s a 0) (S754_finite false 100 0)
      = S754_finite s m E /\
    PyFloat.round_ndigits (S754_finite s m E) 2 = Return (S754_finite s m E).
Proof.
  intros Ha.
  assert (Ha' : Zpos a < 2 ^ 53)
    by (change (2 ^ 52) with 4503599627370496 in Ha;
        change (2 ^ 53) with 9007199254740992; lia).
  destruct (int_quotient_shape s false a 100 Ha' ltac:(reflexivity))
    as [m [E [N [c [HS [Hc [HE [HN [Hv Hm]]]]]]]]].
  rewrite xorb_false_r in HS.
  exists m, E. split; [ exact HS | ].
  change (Zdigits2 100) with 7 in HN.
  pose proof (Zdigits2_bounds a) as Hd1.
  assert (Hd1' : Zdigits2 (Zpos a) <= 52).
  { destruct (Z.le_gt_cases (Zdigits2 (Zpos a)) 52); trivial. exfalso.
    assert (2 ^ 52 <= 2 ^ (Zdigits2 (Zpos a) - 1))
      by (apply Z.pow_le_mono_r; lia). lia. }
  assert (HN7 : 7 <= N) by lia.
  assert (H2 : forall t, 0 <= t -> 0 < 2 ^ t)
    by (intros t Ht; apply Z.pow_pos_nonneg; lia).
  unfold PyFloat.round_ndigits, PyFloat.to_fraction.
  destruct E as [ | p | p ]; try lia.
  rewrite Z.pow_pos_fold. change (10 ^ 2) with 100.
  assert (Hp : N = Zpos p + c) by lia.
  assert (Hr : Zrne (Zpos m * 100) (2 ^ Zpos p) = Zpos a).
  { pose proof (Zrne_error (Zpos a * 2 ^ N) 100 ltac:(lia)) as Herr.
    rewrite <- Hv in Herr.
    rewrite <- (Zrne_scale (2 ^ c)) by (apply H2; lia).
    rewrite <- Z.pow_add_r, (Z.add_comm c), <- Hp by lia.
    assert (H128 : 2 ^ 7 <= 2 ^ N) by (apply Z.pow_le_mono_r; lia).
    change (2 ^ 7) with 128 in H128.
    set (X := 2 ^ N) in *. set (M := Zpos m * 2 ^ c) in *.
    replace (2 ^ c * (Zpos m * 100)) with (100 * M) by (unfold M; ring).
    destruct (Z.le_gt_cases (Zpos a * X) (100 * M)).
    - apply (Zrne_unique_lt _ _ (Zpos a) (100 * M - Zpos a * X)); lia.
    - transitivity (Zpos a - 1 + 1); [ | lia ].
      apply (Zrne_unique_gt _ _ (Zpos a - 1) (100 * M - Zpos a * X + X)); lia. }
  replace (cond_Zopp s (Zpos m) * 100) with (cond_Zopp s (Zpos m * 100))
    by (destruct s; cbn [cond_Zopp]; ring).
  rewrite cond_Zopp_Zrne, Hr by (apply H2; lia).
  unfold PyFloat.nearest_quotient.
  destruct s; cbn [cond_Zopp Z.opp Z.eqb Z.abs Z.to_pos Z.ltb Z.compare];
    rewrite HS; reflexivity.
Qed.

(** Hundredths of either sign, as a float, times 100, floored: the number
    of hundredths or one less. *)
Lemma cents_floor_signed s (pc : positive) :
  Zpos pc < 2 ^ 50 ->
  exists z,
    PyFloat.floor
      (PyFloat.mul
         (SFdiv PyFloat.prec PyFloat.emax
            (S754_finite s pc 0) (S754_finite false 100 0))
         (S754_finite false 7036874417766400 (-46))) = Return z /\
    (z = cond_Zopp s (Zpos pc) \/ z = cond_Zopp s (Zpos pc) - 1).
Proof.
  intros Hc50.
  assert (Hc53 : Zpos pc < 2 ^ 53)
    by (change (2 ^ 50) with 1125899906842624 in Hc50;
        change (2 ^ 53) with 9007199254740992; lia).
  destruct (int_quotient_shape s false pc 100 Hc53 ltac:(reflexivity))
    as [m [E [N [cc [HS [Hcc [HE [HN [Hv Hm]]]]]]]]].
  rewrite HS, xorb_false_r.
  change (Zdigits2 100) with 7 in *.
  pose proof (Zdigits2_bounds pc) as Hd1.
  set (d1 := Zdigits2 (Zpos pc)) in *.
  assert (Hd1' : 1 <= d1) by (unfold d1; simpl; lia).
  assert (Hd50 : d1 <= 50).
  { destruct (Z.le_gt_cases d1 50); trivial. exfalso.
    assert (2 ^ 50 <= 2 ^ (d1 - 1)) by (apply Z.pow_le_mono_r; lia). lia. }
  assert (HN9 : 9 <= N <= 59) by lia.
  destruct (mul_canonical s m E false 7036874417766400 (-46) Hm
              ltac:(change (2 ^ 52) with 4503599627370496;
                    change (2 ^ 53) with 9007199254740992; lia)
              ltac:(lia) ltac:(lia))
    as [m2 [c2 [k [-> [Hc2 [Hk [Hb Hv2]]]]]]].
  rewrite xorb_false_r.
  set (P := Zpos m * 7036874417766400) in *.
  set (T := 46 + N - cc - k).
  assert (HT : 1 <= T) by (unfold T; lia).
  rewrite (float_floor_signed s m2 (E + -46 + k + c2) _ T c2
             ltac:(lia) ltac:(lia) Hv2 ltac:(unfold T; lia)).
  eexists. split; [ reflexivity | ].
  assert (H2 : forall t, 0 <= t -> 0 < 2 ^ t)
    by (intros t Ht; apply Z.pow_pos_nonneg; lia).
  pose proof (Zrne_error (Zpos pc * 2 ^ N) 100 ltac:(lia)) as Herr1.
  rewrite <- Hv in Herr1.
  pose proof (Zrne_error P (2 ^ k) ltac:(apply H2; lia)) as Herr2.
  set (M := Zrne P (2 ^ k)) in *.
  set (Y := 2 ^ T).
  assert (HY : 2 <= Y).
  { unfold Y. change 2 with (2 ^ 1) at 1. apply Z.pow_le_mono_r; lia. }
  assert (HNY : 2 ^ N = Y * 2 ^ (k - 46 + cc)).
  { unfold Y. rewrite <- Z.pow_add_r by lia. f_equal. unfold T. lia. }
  assert (HB : (Zpos pc - 1) * Y < M < (Zpos pc + 1) * Y).
  { rewrite HNY in Herr1. unfold P in Herr2.
    assert (Hk' : k = 52 \/ k = 53) by lia.
    assert (Hcc' : cc = 0 \/ cc = 1) by lia.
    destruct Hk' as [-> | ->], Hcc' as [-> | ->];
      cbn [Z.sub Z.add Z.opp Z.pos_sub Pos.add Pos.succ Z.succ_double
           Z.pred_double Z.double Pos.pred_double Pos.add_carry] in Herr1;
      repeat match type of Herr1 with
             | context [2 ^ ?e] =>
                 let v := eval vm_compute in (2 ^ e) in
                 change (2 ^ e) with v in Herr1
             end;
      repeat match type of Herr2 with
             | context [2 ^ ?e] =>
                 let v := eval vm_compute in (2 ^ e) in
                 change (2 ^ e) with v in Herr2
             end;
      nia. }
  destruct s; cbn [cond_Zopp].
  - assert (Hq : - Zpos pc - 1 <= - M / Y < - Zpos pc + 1).
    { split; [ apply Z.div_le_lower_bound | apply Z.div_lt_upper_bound ]; lia. }
    lia.
  - assert (Hq : Zpos pc - 1 <= M / Y < Zpos pc + 1).
    { split; [ apply Z.div_le_lower_bound | apply Z.div_lt_upper_bound ]; lia. }
    lia.
Qed.

(** * Further properties of the Money class *)

Module MoneyLaws.

Import Money_.

(** X1: the constructor, and [instance] on any object, take exactly the
    ints (a bool counts as one) and store the amount with the currency
    USD; every other value raises the amount error. *)
Theorem init_accepts_ints_only (self : Money) (v : pyval) :
  instance self v = init v /\
  ((exists a, as_int v = Some a /\ init v = Return (usd a)) \/
   (as_int v = None /\ init v = Raise amount_error)).
Proof.
  unfold instance, init, assert_amount.
  destruct (as_int v) as [a | ]; simpl; split; eauto.
Qed.

(** X2: an int on the right of [+] counts as the Money of that amount,
    from either side, and adding two Money values is commutative and
    associative. *)
Theorem add_commutative_associative (m n p : Money) (k : Z) :
  add m (VInt k) = add m (VMoney (usd k)) /\
  radd m (VInt k) = add (usd k) (VMoney m) /\
  add m (VMoney n) = add n (VMoney m) /\
  (r <- add m (VMoney n) ;; add r (VMoney p))
    = (r <- add n (VMoney p) ;; add m (VMoney r)).
Proof.
  unfold radd, add, init, assert_amount; simpl.
  repeat split; do 2 f_equal; lia.
Qed.

(** X3: subtracting a Money undoes adding it, and the other way round;
    a Money minus itself is the zero the int 0 equals. *)
Theorem add_sub_money_round_trip (m n : Money) :
  (r <- add m (VMoney n) ;; r' <- sub r (VMoney n) ;; eq r' (VMoney m))
    = Return true /\
  (r <- sub m (VMoney n) ;; r' <- add r (VMoney n) ;; eq r' (VMoney m))
    = Return true /\
  (r <- sub m (VMoney m) ;; eq r (VInt 0)) = Return true.
Proof.
  repeat split; simpl; f_equal; apply Z.eqb_eq; lia.
Qed.

(** X4: the reflected subtraction [k - m] negates and then adds: its
    amount is [k] minus the amount, it is the negation of [m - k], and a
    float on the left is refused like one on the right. *)
Theorem rsub_is_negated_sub (m : Money) (k : Z) (f : PyFloat.float) :
  rsub m (VInt k) = Return (usd (k - amount m)) /\
  (r <- rsub m (VInt k) ;; s <- sub m (VInt k) ;; n <- neg s ;;
   eq r (VMoney n)) = Return true /\
  (r <- rsub m (VInt k) ;; r' <- add r (VMoney m) ;; eq r' (VInt k))
    = Return true /\
  rsub m (VFloat f) = Raise amount_error.
Proof.
  split; [ | repeat split; simpl; f_equal; apply Z.eqb_eq; lia ].
  unfold rsub, neg, add, init, usd. simpl. do 2 f_equal. lia.
Qed.

(** X5: the unary operators: negation is an involution and cancels under
    [+], [abs] is idempotent, blind to the sign and never negative, and
    unary plus changes nothing. *)
Theorem sign_operators (m : Money) :
  (n <- neg m ;; r <- neg n ;; eq r (VMoney m)) = Return true /\
  (n <- neg m ;; r <- add m (VMoney n) ;; eq r (VInt 0)) = Return true /\
  (a <- abs m ;; r <- abs a ;; eq r (VMoney a)) = Return true /\
  (n <- neg m ;; a <- abs n ;; b <- abs m ;; eq a (VMoney b)) = Return true /\
  (a <- abs m ;; ge a (VInt 0)) = Return true /\
  (r <- pos m ;; eq r (VMoney m)) = Return true.
Proof.
  repeat split; simpl; f_equal;
    first [ apply Z.eqb_eq; lia | apply Z.geb_le; lia ].
Qed.

(** X6: the five comparisons agree on what they accept: an operand that
    is neither a Money nor an int makes every one of them raise the amount
    error; on a Money or an int they answer as the order of the integers
    does, so that exactly one of [<], [==], [>] holds, [<=] is [<] or [==]
    and [>=] is [>] or [==]. *)
Theorem comparisons_total_order (m : Money) (v : pyval) :
  match operand_amount v with
  | None =>
      lt m v = Raise amount_error /\ le m v = Raise amount_error /\
      gt m v = Raise amount_error /\ ge m v = Raise amount_error /\
      eq m v = Raise amount_error
  | Some b =>
      exists l e g,
        lt m v = Return l /\ eq m v = Return e /\ gt m v = Return g /\
        le m v = Return (l || e) /\ ge m v = Return (g || e) /\
        (l = true <-> amount m < b) /\ (e = true <-> amount m = b) /\
        (g = true <-> b < amount m) /\
        (if l then e = false /\ g = false
         else if e then g = false else g = true)
  end.
Proof.
  assert (Hord : forall a b,
             (a <=? b) = (a <? b) || (a =? b) /\
             (a >=? b) = (a >? b) || (a =? b) /\
             ((a <? b) = true <-> a < b) /\ ((a =? b) = true <-> a = b) /\
             ((a >? b) = true <-> b < a) /\
             (if a <? b then (a =? b) = false /\ (a >? b) = false
              else if a =? b then (a >? b) = false else (a >? b) = true)).
  { intros a b. rewrite Z.geb_leb, Z.gtb_ltb.
    destruct (Z.ltb_spec a b), (Z.eqb_spec a b), (Z.leb_spec a b),
      (Z.ltb_spec b a), (Z.leb_spec b a); simpl;
      repeat split; intros; try lia; try discriminate; trivial. }
  destruct v as [z | b | f | s | d | | o]; simpl; auto;
    match goal with
    | |- exists _ _ _, _ => idtac
    | _ => repeat split
    end;
    unfold lt, le, gt, ge, eq, compare, assert_amount; simpl.
  - destruct (Hord (amount m) z) as [H1 [H2 [H3 [H4 [H5 H6]]]]].
    exists (amount m <? z), (amount m =? z), (amount m >? z).
    rewrite H1, H2. repeat split; try apply H3; try apply H4; try apply H5; trivial.
  - destruct (Hord (amount m) (Z.b2z b)) as [H1 [H2 [H3 [H4 [H5 H6]]]]].
    exists (amount m <? Z.b2z b), (amount m =? Z.b2z b), (amount m >? Z.b2z b).
    rewrite H1, H2. repeat split; try apply H3; try apply H4; try apply H5; trivial.
  - destruct (Hord (amount m) (amount o)) as [H1 [H2 [H3 [H4 [H5 H6]]]]].
    exists (amount m <? amount o), (amount m =? amount o), (amount m >? amount o).
    rewrite H1, H2. repeat split; try apply H3; try apply H4; try apply H5; trivial.
Qed.

(** X7: the order is invariant under translation: adding a positive int
    gives a strictly greater Money, adding 0 an equal one, and adding the
    same int to two Money values leaves their comparison as it was. *)
Theorem add_monotone (m n : Money) (k : Z) :
  (r <- add m (VInt k) ;; lt m (VMoney r)) = Return (0 <? k) /\
  (r <- sub m (VInt k) ;; lt r (VMoney m)) = Return (0 <? k) /\
  (r <- add m (VInt k) ;; eq r (VMoney m)) = Return (k =? 0) /\
  (a <- add m (VInt k) ;; b <- add n (VInt k) ;; lt a (VMoney b))
    = lt m (VMoney n).
Proof.
  unfold lt, compare. simpl. repeat split; f_equal.
  - destruct (Z.ltb_spec (amount m) (amount m + k)), (Z.ltb_spec 0 k); lia.
  - destruct (Z.ltb_spec (amount m - k) (amount m)), (Z.ltb_spec 0 k); lia.
  - destruct (Z.eqb_spec (amount m + k) (amount m)), (Z.eqb_spec k 0); lia.
  - destruct (Z.ltb_spec (amount m + k) (amount n + k)),
      (Z.ltb_spec (amount m) (amount n)); lia.
Qed.

(** X8: floor division by a nonzero int is exact integer division: the
    quotient times the divisor differs from the dividend by a remainder
    that has the sign of the divisor and is smaller than it. *)
Theorem floor_divide_int_euclid (m : Money) (k : Z) :
  k <> 0 ->
  exists q p r,
    floor_divide m (VInt k) = Return (VMoney q) /\
    mul q (VInt k) = Return p /\
    sub m (VMoney p) = Return r /\
    amount q = amount m / k /\
    (0 < k -> 0 <= amount r < k) /\
    (k < 0 -> k < amount r <= 0).
Proof.
  intros Hk. unfold floor_divide. simpl.
  destruct (Z.eqb_spec k 0) as [ | _ ]; [ contradiction | ]. simpl.
  exists (usd (amount m / k)), (usd (amount m / k * k)),
    (usd (amount m - amount m / k * k)).
  repeat split; simpl.
  - pose proof (Z.mod_pos_bound (amount m) k H).
    pose proof (Z.div_mod (amount m) k Hk). lia.
  - pose proof (Z.mod_pos_bound (amount m) k H).
    pose proof (Z.div_mod (amount m) k Hk). lia.
  - pose proof (Z.mod_neg_bound (amount m) k H).
    pose proof (Z.div_mod (amount m) k Hk). lia.
  - pose proof (Z.mod_neg_bound (amount m) k H).
    pose proof (Z.div_mod (amount m) k Hk). lia.
Qed.

Lemma floor_divide_int_euclid_witness :
  exists q p r,
    floor_divide (usd (-1000)) (VInt 3) = Return (VMoney q) /\
    mul q (VInt 3) = Return p /\
    sub (usd (-1000)) (VMoney p) = Return r /\
    amount q = -1000 / 3 /\
    (0 < 3 -> 0 <= amount r < 3) /\
    (3 < 0 -> 3 < amount r <= 0).
Proof. apply (floor_divide_int_euclid (usd (-1000)) 3). lia. Defined.

(** X9: multiplication and the divisions refuse a factor or divisor that
    is neither an int nor a float with the operand error; for
    multiplication that includes a Money. *)
Theorem non_numeric_operand_rejected (m : Money) (v : pyval) :
  isinstance_int v = false ->
  isinstance_float v = false ->
  mul m v = Raise operand_error /\
  rmul m v = Raise operand_error /\
  (isinstance_Money v = false ->
   true_divide m v = Raise operand_error /\
   floor_divide m v = Raise operand_error) /\
  error_kind_of operand_error = Some InvalidOperand.
Proof.
  intros Hi Hf.
  destruct v; try discriminate; repeat split; intros; try discriminate.
Qed.

Lemma non_numeric_operand_rejected_witness :
  mul (usd 1000) (VMoney (usd 2)) = Raise operand_error /\
  true_divide (usd 1000) (VStr "10") = Raise operand_error.
Proof.
  split.
  - apply (non_numeric_operand_rejected (usd 1000) (VMoney (usd 2)));
      reflexivity.
  - apply (non_numeric_operand_rejected (usd 1000) (VStr "10"));
      reflexivity.
Defined.

Ltac bind_inv H :=
  repeat match type of H with
    | bind ?c _ = Return _ => destruct c eqn:?; cbn [bind] in H
    | (if ?b then _ else _) = Return _ => destruct b eqn:?
    | Raise _ = Return _ => discriminate H
    end.

(** X10: what a division returns is decided by the type of the divisor:
    a plain int for a Money divisor, a Money for an int or a float. *)
Theorem division_result_type (m : Money) (v : pyval) (r : pyval) :
  true_divide m v = Return r \/ floor_divide m v = Return r ->
  if isinstance_Money v then exists z, r = VInt z
  else exists q, r = VMoney q.
Proof.
  intros [H | H]; destruct v; simpl in *;
    try discriminate H; bind_inv H; inversion H; eauto.
Qed.

Lemma division_result_type_witness :
  (exists z, VInt 100 = VInt z) /\ (exists q, VMoney (usd 100) = VMoney q).
Proof.
  split.
  - apply (division_result_type (usd 1000) (VMoney (usd 10)) (VInt 100)).
    left. reflexivity.
  - apply (division_result_type (usd 1000) (VInt 10) (VMoney (usd 100))).
    right. reflexivity.
Defined.

(** X11: multiplication by ints is exact integer arithmetic: it
    distributes over addition, composes as the product of the factors,
    has 1 as its unit, and -1 negates. *)
Theorem mul_int_ring (m n : Money) (k j : Z) :
  (s <- add m (VMoney n) ;; mul s (VInt k))
    = (a <- mul m (VInt k) ;; b <- mul n (VInt k) ;; add a (VMoney b)) /\
  (a <- mul m (VInt k) ;; mul a (VInt j)) = mul m (VInt (k * j)) /\
  (r <- mul m (VInt 1) ;; eq r (VMoney m)) = Return true /\
  mul m (VInt (-1)) = neg m /\
  mul m (VInt 0) = Return (usd 0).
Proof.
  unfold mul, neg, add, eq, init, usd; simpl.
  repeat split; do 2 f_equal; lia.
Qed.

(** X12: [from_string] never gives a negative amount: whatever sign the
    text carries is deleted with the other symbols. *)
Theorem from_string_nonnegative (s : string) (r : Money) :
  from_string (VStr s) = Return r -> 0 <= amount r.
Proof.
  unfold from_string.
  destruct (PyDecimal.of_string (strip_non_numeric s)) as [d | e] eqn:Hd;
    [ | discriminate ].
  destruct (of_string_nonneg _ _ Hd) as [c [e [-> Hc]]]. cbn [bind].
  unfold from_float. rewrite MoneySpec.of_int_100. cbn [bind].
  destruct (PyFloat.floor _) as [z | e'] eqn:Hz; [ | discriminate ].
  cbn [bind]. intros H. inversion H. simpl.
  apply (floor_positive_sign _ _ (mul_hundred_positive_sign _
           (to_float_positive_sign c e Hc)) Hz).
Qed.

Lemma from_string_nonnegative_witness :
  from_string (VStr "-$5.00") = Return (usd 500) /\ 0 <= amount (usd 500).
Proof.
  split; [ reflexivity | ].
  apply (from_string_nonnegative "-$5.00" (usd 500)). reflexivity.
Defined.

(** X13: [from_float] takes floats only, so that an int is refused like
    any other value; a NaN raises the ValueError of the float-to-int
    conversion, an infinity OverflowError, a zero of either sign gives the
    zero amount, and any other float a Money or OverflowError. *)
Theorem from_float_cases (v : pyval) :
  match v with
  | VFloat S754_nan => from_float v = Raise PyFloat.nan_to_integer
  | VFloat (S754_infinity _) => from_float v = Raise OverflowError
  | VFloat (S754_zero _) => from_float v = Return (usd 0)
  | VFloat (S754_finite _ _ _) =>
      (exists r, from_float v = Return r) \/ from_float v = Raise OverflowError
  | _ => from_float v = Raise float_error
  end /\
  error_kind_of float_error = Some InvalidAmount /\
  error_kind_of PyFloat.nan_to_integer = None.
Proof.
  split; [ | split; reflexivity ].
  destruct v as [z | b | f | s | d | | o]; try reflexivity.
  destruct f as [s | s | | s m e]; try reflexivity.
  apply MoneySpec.from_float_not_nan. discriminate.
Qed.

(** X14: below 2^52 in absolute value, an amount divided by a nonzero int
    is the exact quotient rounded half to even: the float division inside
    [true_divide] loses nothing.  The same number comes back unwrapped
    when the divisor is a Money. *)
Theorem true_divide_exact (m d : Money) :
  Z.abs (amount m) < 2 ^ 52 ->
  amount d <> 0 -> Z.abs (amount d) < 2 ^ 1000 ->
  true_divide m (VInt (amount d))
    = Return (VMoney (usd (half_even_quotient (amount m) (amount d)))) /\
  true_divide m (VMoney d)
    = Return (VInt (half_even_quotient (amount m) (amount d))).
Proof.
  intros Ha Hk Hkb.
  pose proof (int_truediv_round (amount m) (amount d) Ha Hk Hkb) as H.
  unfold true_divide. cbn [assert_operand as_int bind num_is_zero num_truediv].
  destruct (Z.eqb_spec (amount d) 0) as [ | _ ]; [ contradiction | ].
  destruct (PyFloat.int_truediv (amount m) (amount d)) as [q | e];
    cbn [bind] in *; [ | discriminate H ].
  rewrite H. split; reflexivity.
Qed.

Lemma true_divide_exact_witness :
  true_divide (usd 1000) (VInt 3) = Return (VMoney (usd 333)) /\
  true_divide (usd 1000) (VMoney (usd 3)) = Return (VInt 333).
Proof.
  apply (true_divide_exact (usd 1000) (usd 3)); vm_compute; congruence.
Defined.

(** The bound cannot be dropped: 2^53 + 1 is not a float. *)
Lemma true_divide_inexact :
  true_divide (usd (2 ^ 53 + 1)) (VInt 1) = Return (VMoney (usd (2 ^ 53))).
Proof. vm_compute. reflexivity. Qed.

(** X15: a text that reads as [c] hundredths (two digits after the point)
    parses to [c] minor units or to one less, never to more: the float
    product is floored, and 0.29 * 100 is 28.999999999999996. *)
Theorem from_string_hundredths (s : string) (c : Z) :
  PyDecimal.of_string (strip_non_numeric s)
    = Return (PyDecimal.DFinite false c (-2)) ->
  c < 2 ^ 50 ->
  from_string (VStr s) = Return (usd c) \/
  from_string (VStr s) = Return (usd (c - 1)).
Proof.
  intros Hs Hc.
  destruct (of_string_nonneg _ _ Hs) as [c' [e' [Heq Hc0]]].
  injection Heq as <- <-.
  unfold from_string. rewrite Hs. cbn [bind].
  destruct c as [ | pc | pc ]; [ left; reflexivity | | lia ].
  unfold from_float. rewrite MoneySpec.of_int_100. cbn [bind].
  destruct (cents_floor pc Hc) as [z [Hz Hcases]].
  change (PyDecimal.to_float (PyDecimal.DFinite false (Zpos pc) (-2)))
    with (SFdiv PyFloat.prec PyFloat.emax
            (S754_finite false pc 0) (S754_finite false 100 0)).
  rewrite Hz. cbn [bind]. rewrite MoneySpec.init_int.
  destruct Hcases as [-> | ->]; auto.
Qed.

Lemma from_string_hundredths_witness :
  (from_string (VStr "$0.29") = Return (usd 29) \/
   from_string (VStr "$0.29") = Return (usd (29 - 1))) /\
  from_string (VStr "$0.29") = Return (usd 28).
Proof.
  split; [ | reflexivity ].
  apply (from_string_hundredths "$0.29" 29); reflexivity.
Defined.

(** X16: a text without a decimal point, reading as the whole number [n],
    parses to exactly [100 * n] minor units. *)
Theorem from_string_whole (s : string) (n : Z) :
  PyDecimal.of_string (strip_non_numeric s)
    = Return (PyDecimal.DFinite false n 0) ->
  n < 2 ^ 45 ->
  from_string (VStr s) = Return (usd (100 * n)).
Proof.
  intros Hs Hn.
  destruct (of_string_nonneg _ _ Hs) as [c' [e' [Heq Hc0]]].
  injection Heq as <- <-.
  unfold from_string. rewrite Hs. cbn [bind].
  destruct n as [ | pn | pn ]; [ reflexivity | | lia ].
  unfold from_float. rewrite MoneySpec.of_int_100. cbn [bind].
  assert (Hf : PyDecimal.to_float (PyDecimal.DFinite false (Zpos pn) 0)
               = SFdiv PyFloat.prec PyFloat.emax
                   (S754_finite false pn 0) (S754_finite false 1 0)).
  { unfold PyDecimal.to_float. cbn [Z.eqb cond_Zopp].
    change (10 ^ 0) with 1. rewrite Z.mul_1_r. reflexivity. }
  rewrite Hf, (whole_floor pn Hn). cbn [bind]. apply MoneySpec.init_int.
Qed.

Lemma from_string_whole_witness :
  from_string (VStr "$1,000") = Return (usd (100 * 1000)).
Proof. apply (from_string_whole "$1,000" 1000); reflexivity. Defined.

(** ** Rounding, and floats as operands *)

(** X17: below 100 * 2^47 minor units in absolute value, [round] returns
    a multiple of 100 at most 50 away from the amount, leaves a multiple
    of 100 as it is, and rounding the result again changes nothing. *)
Theorem round_nearest_multiple (m : Money) :
  Z.abs (amount m) < 100 * 2 ^ 47 ->
  exists r,
    Money_.round m = Return r /\
    amount r mod 100 = 0 /\
    Z.abs (amount r - amount m) <= 50 /\
    (amount m mod 100 = 0 -> amount r = amount m) /\
    Money_.round r = Return r.
Proof.
  intros Ha. exists (usd (spec_round_amount (amount m))).
  pose proof (MoneySpec.round_agrees m Ha) as Hr.
  unfold spec_round_amount in *. cbn [amount usd].
  destruct (Zrne_cases (amount m) 100 ltac:(lia)) as [q0 [r0 [Hd [Hr0 Hc]]]].
  set (q := Zrne (amount m) 100) in *.
  assert (Hq0 : q = q0 \/ q = q0 + 1) by (destruct Hc as [ [_ ->] | [ [_ ->] | [_ ->] ] ]; [ | | destruct (Z.even q0) ]; lia).
  change (2 ^ 47) with 140737488355328 in Ha.
  assert (Hq : Z.abs q <= 140737488355328) by lia.
  repeat split; trivial.
  - apply Z_mod_mult.
  - lia.
  - intros Hm. apply Z.mod_divide in Hm; [ | lia ].
    destruct Hm as [t Ht]. lia.
  - destruct (Z.eq_dec (Z.abs q) 140737488355328) as [He | Hne].
    + assert (Hq2 : q = 140737488355328 \/ q = - 140737488355328) by lia.
      destruct Hq2 as [-> | ->]; vm_compute; reflexivity.
    + rewrite MoneySpec.round_agrees.
      * unfold spec_round_amount. cbn [amount usd].
        rewrite (Z.mul_comm q 100), Zrne_exact by lia.
        now rewrite (Z.mul_comm 100 q).
      * cbn [amount usd]. change (2 ^ 47) with 140737488355328. lia.
Qed.

Lemma round_nearest_multiple_witness :
  exists r,
    Money_.round (usd 1050) = Return r /\
    amount r mod 100 = 0 /\
    Z.abs (amount r - amount (usd 1050)) <= 50 /\
    (amount (usd 1050) mod 100 = 0 -> amount r = amount (usd 1050)) /\
    Money_.round r = Return r.
Proof. apply (round_nearest_multiple (usd 1050)). cbn [amount usd]. lia. Defined.

(** X18: a float factor that is the float of an int [j] acts as [j]
    itself, from either side, as long as the product stays below 2^53:
    the float product is exact and [round] gives it back. *)
Theorem mul_integral_float (m : Money) (j : Z) :
  Z.abs (amount m) < 2 ^ 53 -> Z.abs j < 2 ^ 53 ->
  Z.abs (amount m * j) < 2 ^ 53 ->
  exists f,
    PyFloat.of_int j = Return f /\
    mul m (VFloat f) = Return (usd (amount m * j)) /\
    rmul m (VFloat f) = Return (usd (amount m * j)) /\
    mul m (VInt j) = Return (usd (amount m * j)).
Proof.
  destruct m as [a cur]. cbn [amount]. intros Ha Hj Haj.
  assert (Hi : mul (mkMoney a cur) (VInt j) = Return (usd (a * j)))
    by reflexivity.
  unfold rmul. unfold mul at 1 2. cbn [assert_operand bind num_mul amount].
  destruct (Z.eq_dec j 0) as [-> | Hj0].
  - exists (S754_zero false). rewrite Z.mul_0_r in *.
    assert (Hm : (p <- (x <- PyFloat.of_int a;;
                        Return (NFloat (PyFloat.mul x (S754_zero false))));;
                  r <- py_round p;; init (VInt r)) = Return (usd 0)).
    { destruct (Z.eq_dec a 0) as [-> | Ha0]; [ reflexivity | ].
      destruct (cond_Zopp_abs a Ha0) as [sa [pa [-> Hpa]]].
      destruct (of_int_signed sa pa ltac:(lia)) as [mx [Nx [-> _]]].
      reflexivity. }
    repeat split; trivial.
  - destruct (cond_Zopp_abs j Hj0) as [sj [pj [-> Hpj]]].
    destruct (Z.eq_dec a 0) as [-> | Ha0].
    + destruct (of_int_signed sj pj ltac:(lia)) as [my [Ny [Hy _]]].
      exists (S754_finite sj my (- Ny)). rewrite Hy.
      repeat split; trivial.
    + destruct (cond_Zopp_abs a Ha0) as [sa [pa [-> Hpa]]].
      rewrite cond_Zopp_xorb in *.
      assert (Hp : Zpos pa * Zpos pj < 2 ^ 53).
      { destruct (xorb sa sj); cbn [cond_Zopp] in Haj; lia. }
      pose proof (mul_int_signed sa sj pa pj Hp) as Hr.
      destruct (of_int_signed sj pj ltac:(lia)) as [my [Ny [Hy _]]].
      exists (S754_finite sj my (- Ny)). rewrite Hy in *.
      destruct (PyFloat.of_int (cond_Zopp sa (Zpos pa))) as [x | e];
        cbn [bind] in *; [ | discriminate Hr ].
      cbn [py_round]. rewrite Hr. cbn [bind].
      repeat split; trivial.
Qed.

Lemma mul_integral_float_witness :
  exists f,
    PyFloat.of_int 3 = Return f /\
    mul (usd 250) (VFloat f) = Return (usd (amount (usd 250) * 3)) /\
    rmul (usd 250) (VFloat f) = Return (usd (amount (usd 250) * 3)) /\
    mul (usd 250) (VInt 3) = Return (usd (amount (usd 250) * 3)).
Proof. apply (mul_integral_float (usd 250) 3); cbn [amount usd]; lia. Defined.

(** X19: a float factor worth exactly [J / 2^T] (0.5, 0.25, 1.5, ...),
    with [J] of at most 53 bits and [T] from 0 down to the last binary
    place of the floats, 1074, gives the exact product rounded half to
    even, as long as [amount * J] stays below 2^53: Money(5) * 0.5 is
    Money(2) and Money(15) * 0.5 is Money(8). *)
Theorem mul_dyadic_float (m : Money) (J T : Z) :
  Z.abs (amount m) < 2 ^ 53 -> Z.abs J < 2 ^ 53 ->
  Z.abs (amount m * J) < 2 ^ 53 -> 0 <= T <= 1074 ->
  mul m (VFloat (float_lit J (2 ^ T)))
    = Return (usd (Zrne (amount m * J) (2 ^ T))).
Proof.
  destruct m as [a cur]. cbn [amount]. intros Ha HJ HaJ HT.
  assert (HpT : 0 < 2 ^ T) by (apply Z.pow_pos_nonneg; lia).
  unfold mul, float_lit. cbn [assert_operand bind num_mul amount].
  destruct (Z.eq_dec a 0) as [-> | Ha0].
  - rewrite Z.mul_0_l, Zrne_zero, of_int_zero by trivial. cbn [bind].
    destruct (Z.eq_dec J 0) as [-> | HJ0].
    + unfold PyFloat.nearest_quotient. reflexivity.
    + destruct (cond_Zopp_abs J HJ0) as [sj [pj [-> Hpj]]].
      destruct (dyadic_value sj pj T ltac:(lia) HT) as [my [Ny [-> _]]].
      reflexivity.
  - destruct (cond_Zopp_abs a Ha0) as [sa [pa [-> Hpa]]].
    destruct (Z.eq_dec J 0) as [-> | HJ0].
    + rewrite Z.mul_0_r, Zrne_zero by trivial.
      destruct (of_int_signed sa pa ltac:(lia)) as [mx [Nx [-> _]]].
      cbn [bind]. unfold PyFloat.nearest_quotient. reflexivity.
    + destruct (cond_Zopp_abs J HJ0) as [sj [pj [-> Hpj]]].
      rewrite cond_Zopp_xorb in *.
      assert (Hp : Zpos pa * Zpos pj < 2 ^ 53).
      { destruct (xorb sa sj); cbn [cond_Zopp] in HaJ; lia. }
      pose proof (mul_dyadic_signed sa sj pa pj T Hp HT) as Hr.
      destruct (PyFloat.of_int (cond_Zopp sa (Zpos pa))) as [x | e];
        cbn [bind] in *; [ | discriminate Hr ].
      cbn [py_round]. rewrite Hr. cbn [bind].
      rewrite cond_Zopp_Zrne by trivial. reflexivity.
Qed.

Lemma mul_dyadic_float_witness :
  mul (usd 5) (VFloat (float_lit 1 (2 ^ 1)))
    = Return (usd (Zrne (amount (usd 5) * 1) (2 ^ 1))) /\
  Zrne (amount (usd 5) * 1) (2 ^ 1) = 2.
Proof.
  split; [ | reflexivity ].
  apply (mul_dyadic_float (usd 5) 1 1); cbn [amount usd]; lia.
Defined.

(** A dyadic float times [float(100)], floored. *)
Lemma from_float_dyadic_signed s (J : positive) T :
  100 * Zpos J < 2 ^ 53 -> 0 <= T <= 1074 ->
  from_float (VFloat (PyFloat.nearest_quotient (cond_Zopp s (Zpos J)) (2 ^ T)))
    = Return (usd (cond_Zopp s (100 * Zpos J) / 2 ^ T)).
Proof.
  intros HJ HT.
  assert (HJ53 : Zpos J < 2 ^ 53) by lia.
  destruct (dyadic_value s J T HJ53 HT) as [my [Ny [-> [HNy Hmy]]]].
  unfold from_float. rewrite MoneySpec.of_int_100. cbn [bind].
  rewrite (floor_mul_general s my (- Ny) false 7036874417766400 (-46)
             (100 * Zpos J) (Ny - T + 46) T); try lia.
  - rewrite xorb_false_r. cbn [bind]. apply MoneySpec.init_int.
  - rewrite Hmy, Z.pow_add_r by lia.
    change (2 ^ 46) with 70368744177664. ring.
Qed.

(** X20: on a float worth exactly [J / 2^T], with [100 * J] below 2^53
    and [T] from 0 down to the last binary place of the floats, 1074,
    [from_float] returns the floor of [100 * J / 2^T]: whole amounts
    and binary fractions convert without error, and a negative value is
    floored away from zero (-0.125 gives -13). *)
Theorem from_float_dyadic (J T : Z) :
  Z.abs (100 * J) < 2 ^ 53 -> 0 <= T <= 1074 ->
  from_float (VFloat (float_lit J (2 ^ T)))
    = Return (usd ((100 * J) / 2 ^ T)).
Proof.
  intros HJ HT. unfold float_lit.
  destruct (Z.eq_dec J 0) as [-> | HJ0].
  - unfold PyFloat.nearest_quotient. rewrite Z.mul_0_r, Z.div_0_l; [ reflexivity | ].
    pose proof (Z.pow_pos_nonneg 2 T). lia.
  - destruct (cond_Zopp_abs J HJ0) as [sj [pj [-> Hpj]]].
    replace (100 * cond_Zopp sj (Zpos pj)) with (cond_Zopp sj (100 * Zpos pj)) in *
      by (destruct sj; cbn [cond_Zopp]; lia).
    apply from_float_dyadic_signed; trivial.
    destruct sj; cbn [cond_Zopp] in HJ; lia.
Qed.

Lemma from_float_dyadic_witness :
  from_float (VFloat (float_lit (-1) (2 ^ 3)))
    = Return (usd ((100 * -1) / 2 ^ 3)) /\
  (100 * -1) / 2 ^ 3 = -13.
Proof.
  split; [ | reflexivity ].
  apply (from_float_dyadic (-1) 3); lia.
Defined.

(** X21: for an amount below 2^52 in absolute value and a nonzero int
    divisor, true division is floor division or one minor unit more, and
    the two agree when the division is exact; with a Money divisor the
    same two numbers come back as plain ints. *)
Theorem true_floor_divide_gap (m : Money) (k : Z) :
  Z.abs (amount m) < 2 ^ 52 -> k <> 0 -> Z.abs k < 2 ^ 1000 ->
  exists q t,
    floor_divide m (VInt k) = Return (VMoney q) /\
    true_divide m (VInt k) = Return (VMoney t) /\
    floor_divide m (VMoney (usd k)) = Return (VInt (amount q)) /\
    true_divide m (VMoney (usd k)) = Return (VInt (amount t)) /\
    amount q <= amount t <= amount q + 1 /\
    (amount m mod k = 0 -> amount t = amount q).
Proof.
  intros Ha Hk Hkb.
  pose proof (int_truediv_round (amount m) k Ha Hk Hkb) as H.
  exists (usd (amount m / k)), (usd (half_even_quotient (amount m) k)).
  unfold true_divide, floor_divide.
  cbn [assert_operand as_int bind num_is_zero num_truediv num_floordiv
       amount usd].
  destruct (Z.eqb_spec k 0) as [ | _ ]; [ contradiction | ].
  destruct (PyFloat.int_truediv (amount m) k) as [x | e];
    cbn [bind] in *; [ | discriminate H ].
  rewrite H.
  destruct (half_even_floor (amount m) k Hk) as [Hb He].
  repeat split; trivial; lia.
Qed.

Lemma true_floor_divide_gap_witness :
  exists q t,
    floor_divide (usd 1000) (VInt 3) = Return (VMoney q) /\
    true_divide (usd 1000) (VInt 3) = Return (VMoney t) /\
    floor_divide (usd 1000) (VMoney (usd 3)) = Return (VInt (amount q)) /\
    true_divide (usd 1000) (VMoney (usd 3)) = Return (VInt (amount t)) /\
    amount q <= amount t <= amount q + 1 /\
    (amount (usd 1000) mod 3 = 0 -> amount t = amount q).
Proof.
  apply (true_floor_divide_gap (usd 1000) 3); cbn [amount usd]; lia.
Defined.

(** X22: dividing by the float of a nonzero int [j] is dividing by [j]:
    the same result or the same error, for amounts and divisors below
    2^53 in absolute value. *)
Theorem true_divide_integral_float (m : Money) (j : Z) :
  Z.abs (amount m) < 2 ^ 53 -> j <> 0 -> Z.abs j < 2 ^ 53 ->
  exists f,
    PyFloat.of_int j = Return f /\
    true_divide m (VFloat f) = true_divide m (VInt j).
Proof.
  destruct m as [a cur]. cbn [amount]. intros Ha Hj0 Hj.
  destruct (cond_Zopp_abs j Hj0) as [sj [pj [-> Hpj]]].
  unfold true_divide.
  cbn [assert_operand as_int bind num_is_zero num_truediv amount].
  destruct (Z.eq_dec a 0) as [-> | Ha0].
  - destruct (of_int_signed sj pj ltac:(lia)) as [my [Ny [Hy _]]].
    exists (S754_finite sj my (- Ny)). split; trivial.
    cbn [PyFloat.is_zero]. rewrite of_int_zero. cbn [bind].
    destruct sj; reflexivity.
  - destruct (cond_Zopp_abs a Ha0) as [sa [pa [-> Hpa]]].
    destruct (div_of_ints_signed sa sj pa pj ltac:(lia) ltac:(lia))
      as [x [y [Hx [Hy Hd]]]].
    exists y. split; trivial.
    rewrite Hx. cbn [bind]. rewrite Hd.
    assert (Hz : PyFloat.is_zero y = false).
    { destruct (of_int_signed sj pj ltac:(lia)) as [my [Ny [Hy' _]]].
      rewrite Hy' in Hy. injection Hy as <-. reflexivity. }
    rewrite Hz.
    replace (cond_Zopp sj (Zpos pj) =? 0) with false
      by (symmetry; apply Z.eqb_neq; exact Hj0).
    reflexivity.
Qed.

Lemma true_divide_integral_float_witness :
  exists f,
    PyFloat.of_int 3 = Return f /\
    true_divide (usd 1000) (VFloat f) = true_divide (usd 1000) (VInt 3).
Proof.
  apply (true_divide_integral_float (usd 1000) 3); cbn [amount usd]; lia.
Defined.

Lemma to_float_value a cur :
  Z.abs a < 2 ^ 52 ->
  to_float (mkMoney a cur) = Return (float_lit a 100) /\
  PyFloat.is_finite (float_lit a 100) = true.
Proof.
  intros Ha.
  unfold to_float, float_lit, PyFloat.int_truediv. cbn [amount].
  change (100 =? 0) with false. cbv iota.
  destruct (Z.eq_dec a 0) as [-> | Ha0].
  - split; reflexivity.
  - destruct (cond_Zopp_abs a Ha0) as [sa [pa [-> Hpa]]].
    destruct (round_ndigits_quotient_100 sa pa ltac:(lia)) as [mq [E [HS HR]]].
    assert (Hq : PyFloat.nearest_quotient (cond_Zopp sa (Zpos pa)) 100
                 = S754_finite sa mq E).
    { unfold PyFloat.nearest_quotient.
      destruct sa; cbn [cond_Zopp Z.opp Z.abs Z.to_pos Z.ltb Z.compare];
        rewrite HS; reflexivity. }
    rewrite Hq. cbn [bind]. split; trivial.
Qed.

(** X23: below 2^52 minor units in absolute value, [float(m)] is the
    float nearest to [amount / 100], what the division alone gives: the
    [round(..., 2)] after it changes nothing. *)
Theorem to_float_nearest (m : Money) :
  Z.abs (amount m) < 2 ^ 52 ->
  to_float m = Return (float_lit (amount m) 100) /\
  PyFloat.int_truediv (amount m) 100 = Return (float_lit (amount m) 100) /\
  PyFloat.is_finite (float_lit (amount m) 100) = true.
Proof.
  destruct m as [a cur]. cbn [amount]. intros Ha.
  destruct (to_float_value a cur Ha) as [Hv Hf].
  repeat split; trivial.
  unfold PyFloat.int_truediv, float_lit in *.
  change (100 =? 0) with false. cbv iota.
  destruct (PyFloat.nearest_quotient a 100); try reflexivity; discriminate Hf.
Qed.

Lemma to_float_nearest_witness :
  to_float (usd 29) = Return (float_lit (amount (usd 29)) 100) /\
  PyFloat.int_truediv (amount (usd 29)) 100
    = Return (float_lit (amount (usd 29)) 100) /\
  PyFloat.is_finite (float_lit (amount (usd 29)) 100) = true.
Proof. apply (to_float_nearest (usd 29)). cbn [amount usd]. lia. Defined.

(** X24: the way out and back, [Money.from_float(float(m))], returns
    the amount or one minor unit less, never more, for amounts below
    2^50 in absolute value. *)
Theorem float_round_trip (m : Money) :
  Z.abs (amount m) < 2 ^ 50 ->
  exists x r,
    to_float m = Return x /\
    from_float (VFloat x) = Return r /\
    (amount r = amount m \/ amount r = amount m - 1).
Proof.
  destruct m as [a cur]. cbn [amount]. intros Ha.
  assert (Ha52 : Z.abs a < 2 ^ 52)
    by (change (2 ^ 50) with 1125899906842624 in Ha;
        change (2 ^ 52) with 4503599627370496; lia).
  destruct (to_float_value a cur Ha52) as [Hx _].
  exists (float_lit a 100). rewrite Hx.
  unfold from_float. rewrite MoneySpec.of_int_100. cbn [bind].
  unfold float_lit, PyFloat.nearest_quotient.
  destruct (Z.eq_dec a 0) as [-> | Ha0].
  - exists (usd 0). repeat split. left. reflexivity.
  - destruct (cond_Zopp_abs a Ha0) as [sa [pa [-> Hpa]]].
    destruct (cents_floor_signed sa pa ltac:(lia)) as [z [Hz Hc]].
    exists (usd z).
    assert (Hf : PyFloat.floor
      (PyFloat.mul
         match cond_Zopp sa (Zpos pa) with
         | 0 => S754_zero (100 <? 0)
         | _ =>
             SFdiv PyFloat.prec PyFloat.emax
               (S754_finite (cond_Zopp sa (Zpos pa) <? 0)
                  (Z.to_pos (Z.abs (cond_Zopp sa (Zpos pa)))) 0)
               (S754_finite (100 <? 0) (Z.to_pos (Z.abs 100)) 0)
         end (S754_finite false 7036874417766400 (-46))) = Return z).
    { destruct sa; exact Hz. }
    rewrite Hf. cbn [bind]. rewrite MoneySpec.init_int.
    repeat split; trivial.
Qed.

Lemma float_round_trip_witness :
  exists x r,
    to_float (usd 29) = Return x /\
    from_float (VFloat x) = Return r /\
    (amount r = amount (usd 29) \/ amount r = amount (usd 29) - 1).
Proof. apply (float_round_trip (usd 29)). cbn [amount usd]. lia. Defined.

(** The cent is really lost: 0.29 * 100 is 28.999999999999996. *)
Lemma float_round_trip_loses :
  (x <- to_float (usd 29) ;; from_float (VFloat x)) = Return (usd 28).
Proof. vm_compute. reflexivity. Qed.

End MoneyLaws.
